(** * iblrig: session parameters, trial state machines and code archival

    A shallow embedding of the parts of the rig software that sequence a
    trial (the state machines of the habituation and passive tasks), derive
    the session parameters (adaptive reward and gain, rotary encoder
    thresholds, session order) and archive the task code, together with the
    properties the design document states about them.

    Python objects are dynamically typed: JSON data is embedded as the
    type [value], exceptions as the type [exn], and a call that may raise
    as a computation in the monad [result]. *)

From Stdlib Require Import ZArith QArith String Ascii List Lia Floats.
From stdpp Require Import base gmap strings list pretty.
From Equations Require Import Equations.

Local Open Scope string_scope.
Local Open Scope list_scope.
Local Open Scope stdpp_scope.
Local Open Scope Z_scope.

(** ** Exceptions and results *)

(** The exception classes that the modelled code can raise.  In Python 3
    [IOError] is an alias of [OSError], whose subclasses are the file
    errors below. *)
Inductive exn : Type :=
| IOError
| FileNotFoundError
| FileExistsError
| IsADirectoryError
| NotADirectoryError
| KeyError
| IndexError
| TypeError
| ZeroDivisionError
| JSONDecodeError
| UnboundLocalError
| AssertionError.

(** [except IOError] catches the class and its subclasses. *)
Definition is_IOError (e : exn) : bool :=
  match e with
  | IOError | FileNotFoundError | FileExistsError
  | IsADirectoryError | NotADirectoryError => true
  | _ => false
  end.

Inductive result (A : Type) : Type :=
| Ok (a : A)
| Raise (e : exn).
Arguments Ok {A} a.
Arguments Raise {A} e.

#[global] Instance result_ret : MRet result := fun A a => Ok a.
#[global] Instance result_bind : MBind result := fun A B f m =>
  match m with
  | Ok a => f a
  | Raise e => Raise e
  end.

(** [try: body except IOError: handler] *)
Definition try_except_IOError {A} (body handler : result A) : result A :=
  match body with
  | Ok a => Ok a
  | Raise e => if is_IOError e then handler else Raise e
  end.

(** ** JSON values *)

(** What [json.loads] returns, and what the session objects store.  A finite
    float is represented by the rational number it denotes. *)
#[warnings="-register-all"]
Inductive value : Type :=
| VNone
| VBool (b : bool)
| VInt (n : Z)
| VFloat (q : Q)
| VStr (s : string)
| VList (l : list value)
| VDict (d : gmap string value).

(** Python truthiness, as used by [if x] and [not x]. *)
Definition truthy (v : value) : bool :=
  match v with
  | VNone => false
  | VBool b => b
  | VInt n => negb (n =? 0)
  | VFloat q => negb (Qeq_bool q 0)
  | VStr s => negb (String.eqb s "")
  | VList l => match l with [] => false | _ => true end
  | VDict d => negb (bool_decide (d = ∅))
  end.

(** [v[k]] for a string key. *)
Definition getitem (v : value) (k : string) : result value :=
  match v with
  | VDict d => match d !! k with
               | Some x => Ok x
               | None => Raise KeyError
               end
  | _ => Raise TypeError
  end.

(** [l[i]] on a list, with Python's negative indices. *)
Definition list_getitem {A} (l : list A) (i : Z) : result A :=
  let n := Z.of_nat (length l) in
  let j := if i <? 0 then i + n else i in
  if (j <? 0) || (n <=? j) then Raise IndexError
  else match l !! Z.to_nat j with
       | Some x => Ok x
       | None => Raise IndexError
       end.

(** The number a value denotes in a comparison or in arithmetic ([bool] is
    a subclass of [int]). *)
Definition as_number (v : value) : option Q :=
  match v with
  | VBool b => Some (inject_Z (Z.b2z b))
  | VInt n => Some (inject_Z n)
  | VFloat q => Some q
  | _ => None
  end.

(** [v >= n] for an integer literal [n]. *)
Definition py_ge (v : value) (n : Z) : result bool :=
  match as_number v with
  | Some q => Ok (Qle_bool (inject_Z n) q)
  | None => Raise TypeError
  end.

(** [v + 1].  The sum of two integers is exact; the sum of a float and 1 is
    rounded by [float_add], the addition of the machine. *)
Definition py_succ (float_add : Q -> Q -> Q) (v : value) : result value :=
  match v with
  | VBool b => Ok (VInt (Z.b2z b + 1))
  | VInt n => Ok (VInt (n + 1))
  | VFloat q => Ok (VFloat (float_add q 1%Q))
  | _ => Raise TypeError
  end.

(** [json.loads] on a string: the parser is Python's own and is a parameter
    of the development; a text it rejects raises [JSONDecodeError]. *)
Definition loads (json_parse : string -> option value) (s : string)
  : result value :=
  match json_parse s with
  | Some v => Ok v
  | None => Raise JSONDecodeError
  end.

(** ** Strings *)

Definition quote : ascii := ascii_of_nat 39.
Definition dquote : ascii := ascii_of_nat 34.
Definition comma : ascii := ascii_of_nat 44.

Definition newline : string := String (ascii_of_nat 10) EmptyString.

(** [s.replace(a, b)] for single characters. *)
Fixpoint replace (a b : ascii) (s : string) : string :=
  match s with
  | EmptyString => EmptyString
  | String c rest => String (if Ascii.eqb c a then b else c) (replace a b rest)
  end.

(** [s[1:-1]] *)
Definition strip_ends (s : string) : string :=
  String.substring 1 (String.length s - 2) s.

(** [s.split(sep)] for a separator that is not empty: the occurrences of
    [sep] are found from left to right and do not overlap.  [skip] counts
    the characters of a separator that was found and is being passed. *)
Fixpoint split_from (sep : string) (skip : nat) (s cur : string) : list string :=
  match s with
  | EmptyString => [cur]
  | String c rest =>
      match skip with
      | S k => split_from sep k rest cur
      | O =>
          if String.prefix sep s
          then cur :: split_from sep (String.length sep - 1) rest EmptyString
          else split_from sep O rest (cur +:+ String c EmptyString)
      end
  end.

Definition split (sep s : string) : list string := split_from sep O s EmptyString.

(** The separator of [PYBPOD_SUBJECT_EXTRA]: a comma between two double
    quotes. *)
Definition extra_sep : string :=
  String dquote (String comma (String dquote EmptyString)).

(** ** The file system *)

(** A path is the list of its components below the root;
    [os.path.join(p, x)] is [p ++ [x]]. *)
Abbreviation path := (list string).

(** A plain file holds bytes or is a zip archive, given by its members in
    the order they were written: archive name and content. *)
#[warnings="-register-all"]
Inductive file : Type :=
| Bytes (b : string)
| ZipFile (members : list (path * file)).

(** A directory maps the names of its entries to files and directories. *)
#[warnings="-register-all"]
Inductive node : Type :=
| File (f : file)
| Dir (entries : gmap string node).

Fixpoint fs_lookup (p : path) (n : node) : option node :=
  match p with
  | [] => Some n
  | x :: q =>
      match n with
      | Dir entries => entries !! x ≫= fs_lookup q
      | File _ => None
      end
  end.

(** [os.path.isdir] *)
Definition isdir (p : path) (fs : node) : bool :=
  match fs_lookup p fs with
  | Some (Dir _) => true
  | _ => false
  end.

(** What the system reports for a path that leads to nothing: the first
    name that is missing in its directory gives [FileNotFoundError], a plain
    file on the way gives [NotADirectoryError]. *)
Fixpoint lookup_error (p : path) (n : node) : exn :=
  match p, n with
  | x :: q, Dir entries =>
      match entries !! x with
      | Some m => lookup_error q m
      | None => FileNotFoundError
      end
  | _ :: _, File _ => NotADirectoryError
  | [], _ => FileNotFoundError
  end.

(** [os.listdir] *)
Definition listdir (p : path) (fs : node) : result (list string) :=
  match fs_lookup p fs with
  | Some (Dir entries) => Ok (map_to_list entries).*1
  | Some (File _) => Raise NotADirectoryError
  | None => Raise (lookup_error p fs)
  end.

(** The files below a directory in the order of [os.walk]: the files of the
    directory itself, then those of each of its subdirectories.  Each file
    comes with its path relative to the directory. *)
Fixpoint walk (n : node) : list (path * file) :=
  match n with
  | File _ => []
  | Dir entries =>
      map_fold (fun x m acc =>
                  match m with
                  | File f => ([x], f) :: acc
                  | Dir _ => acc
                  end) [] entries
      ++
      map_fold (fun x m acc =>
                  match m with
                  | File _ => acc
                  | Dir _ => map (fun '(q, f) => (x :: q, f)) (walk m) ++ acc
                  end) [] entries
  end.

Arguments walk : simpl never.

(** A change of the directory that holds the last component of a path.
    [change x entries] is what becomes of the entries of that directory. *)
Fixpoint at_entry (p : path)
    (change : string -> gmap string node -> result (gmap string node))
    (n : node) : result node :=
  match n with
  | File _ => Raise NotADirectoryError
  | Dir entries =>
      match p with
      | [] => Raise IsADirectoryError
      | [x] => entries' ← change x entries; Ok (Dir entries')
      | x :: q =>
          match entries !! x with
          | None => Raise FileNotFoundError
          | Some m => m' ← at_entry q change m; Ok (Dir (<[x := m']> entries))
          end
      end
  end.

(** [open(p, 'w')] followed by writing [f] and closing: the file is created
    or replaced, a directory of that name is an error. *)
Definition write_file (p : path) (f : file) (fs : node) : result node :=
  at_entry p (fun x entries =>
                match entries !! x with
                | Some (Dir _) => Raise IsADirectoryError
                | _ => Ok (<[x := File f]> entries)
                end) fs.

(** [shutil.rmtree] *)
Definition rmtree (p : path) (fs : node) : result node :=
  at_entry p (fun x entries =>
                match entries !! x with
                | Some (Dir _) => Ok (delete x entries)
                | Some (File _) => Raise NotADirectoryError
                | None => Raise FileNotFoundError
                end) fs.

(** [os.makedirs(p)] followed by filling the new directory with the entries
    of [tree]: the directories on the way are created, [p] itself must not
    exist and no file may be on the way. *)
Fixpoint makedirs_with (p : path) (tree : gmap string node) (n : node)
  : result node :=
  match n with
  | File _ => Raise NotADirectoryError
  | Dir entries =>
      match p with
      | [] => Raise FileExistsError
      | [x] =>
          match entries !! x with
          | Some _ => Raise FileExistsError
          | None => Ok (Dir (<[x := Dir tree]> entries))
          end
      | x :: q =>
          m' ← makedirs_with q tree (default (Dir ∅) (entries !! x));
          Ok (Dir (<[x := m']> entries))
      end
  end.

(** [shutil.copytree(src, dst)]: the tree below [src] as it is when the copy
    starts is put at [dst]. *)
Definition copytree (src dst : path) (fs : node) : result node :=
  match fs_lookup src fs with
  | Some (Dir tree) => makedirs_with dst tree fs
  | Some (File _) => Raise NotADirectoryError
  | None => Raise (lookup_error src fs)
  end.

(** [zipdir(path, ziph)]: every file below [path] is written to the archive
    under its path relative to the parent of [path].  [os.walk] yields
    nothing when [path] is not a directory. *)
Definition zipdir (p : path) (ziph : list (path * file)) (fs : node)
  : list (path * file) :=
  match fs_lookup p fs with
  | Some (Dir entries) =>
      ziph ++ map (fun '(q, f) => (option_list (last p) ++ q, f))
                  (walk (Dir entries))
  | _ => ziph
  end.

(** [zipit(dir_list, zip_name)]: [zipfile.ZipFile(zip_name, 'w')] creates
    the archive file when it is opened, the directories are added in turn
    and closing the archive writes it out.  The functions [zipdir] and
    [zipit] of [iotasks.py] and the static methods of the same names of
    [session_param_handler] are the same code. *)
Definition zipit (dir_list : list path) (zip_name : path) (fs : node)
  : result node :=
  fs ← write_file zip_name (ZipFile []) fs;
  let zipf := foldl (fun ziph dir => zipdir dir ziph fs) [] dir_list in
  write_file zip_name (ZipFile zipf) fs.

(** [[shutil.rmtree(x) for x in dirs]] *)
Fixpoint rmtree_all (dirs : list path) (fs : node) : result node :=
  match dirs with
  | [] => Ok fs
  | x :: rest => fs ← rmtree x fs; rmtree_all rest fs
  end.

(** [[os.path.join(folder, x) for x in os.listdir(folder)
      if os.path.isdir(os.path.join(folder, x))]] *)
Definition subfolders (folder : path) (fs : node) : result (list path) :=
  names ← listdir folder fs;
  Ok (List.filter (fun p => isdir p fs) (map (fun x => folder ++ [x]) names)).

(** *** What the archival leaves in a folder *)

Definition is_dir (n : node) : bool :=
  match n with
  | Dir _ => true
  | File _ => false
  end.

(** The entries of a directory that are plain files. *)
Definition plain_files (entries : gmap string node) : gmap string node :=
  filter (fun kv => is_dir kv.2 = false) entries.

(** The names of the subdirectories of a directory, in the order of its
    listing. *)
Definition subfolder_names (entries : gmap string node) : list string :=
  List.filter (fun x => from_option is_dir false (entries !! x))
              (map_to_list entries).*1.

(** The members that zipping the subdirectories [names] of a directory
    writes: every file below a subdirectory, under the name of the
    subdirectory followed by the path of the file in it. *)
Definition members_of (entries : gmap string node) (names : list string)
  : list (path * file) :=
  flat_map (fun x =>
              match entries !! x with
              | Some (Dir d) => map (fun '(q, f) => (x :: q, f)) (walk (Dir d))
              | _ => []
              end) names.

(** Two paths part ways when they go on with different names after a
    common beginning: neither leads to the other or into it. *)
Fixpoint part_ways (p q : path) : bool :=
  match p, q with
  | a :: p', b :: q' => if String.eqb a b then part_ways p' q' else true
  | _, _ => false
  end.

(** ** Attributes of the session object *)

(** The settings that pybpod hands over as text. *)
Record user_settings : Type := {
  PYBPOD_CREATOR : string;
  PYBPOD_USER_EXTRA : string;
  PYBPOD_SUBJECTS : list string;
  PYBPOD_SUBJECT_EXTRA : string
}.

(** The same four attributes after deserialization. *)
Record parsed_settings : Type := {
  CREATOR : value;
  USER_EXTRA : value;
  SUBJECTS : value;
  SUBJECT_EXTRA : value
}.

(** The folders and names that the code archival reads. *)
Record session_folders : Type := {
  IBLRIG_PARAMS_FOLDER : path;
  SESSION_RAW_DATA_FOLDER : path;
  PYBPOD_PROTOCOL : string;
  VISUAL_STIM_FOLDER : path;
  VISUAL_STIMULUS_TYPE : string
}.

(** ** [iblrig/iotasks.py] *)

Module Iotasks.

Section WithLibraries.

(** [json.loads], [misc.draw_session_order], which draws from a random
    generator whose state is [rng], and the addition of floats. *)
Variable json_parse : string -> option value.
Variable rng : Type.
Variable draw_session_order : rng -> value * rng.
Variable float_add : Q -> Q -> Q.

(** [[json.loads(x.replace(quote, dquote)) for x in subjects]] *)
Fixpoint loads_subjects (subjects : list string) : result (list value) :=
  match subjects with
  | [] => Ok []
  | x :: rest =>
      v ← loads json_parse (replace quote dquote x);
      vs ← loads_subjects rest;
      Ok (v :: vs)
  end.

(** [[json.loads(x) for x in pieces]] *)
Fixpoint loads_all (pieces : list string) : result (list value) :=
  match pieces with
  | [] => Ok []
  | x :: rest =>
      v ← loads json_parse x;
      vs ← loads_all rest;
      Ok (v :: vs)
  end.

Definition deserialize_pybpod_user_settings (sph : user_settings)
  : result parsed_settings :=
  creator ← loads json_parse (PYBPOD_CREATOR sph);
  user_extra ← loads json_parse (PYBPOD_USER_EXTRA sph);
  subjects ← loads_subjects (PYBPOD_SUBJECTS sph);
  subjects ← (if (length subjects =? 1)%nat
              then list_getitem subjects 0
              else Raise IOError);
  subject_extra ←
    loads_all (split extra_sep (strip_ends (PYBPOD_SUBJECT_EXTRA sph)));
  subject_extra ← (if (length subject_extra =? 1)%nat
                   then list_getitem subject_extra 0
                   else Ok (VList subject_extra));
  Ok {| CREATOR := creator;
        USER_EXTRA := user_extra;
        SUBJECTS := subjects;
        SUBJECT_EXTRA := subject_extra |}.

(** [open(path, 'a')], two [write] calls and the end of the [with] block,
    on the text of the file: [None] stands for a file that does not exist
    yet.  The text is added behind what the file holds. *)
Definition append_text (file : option string) (text : string) : option string :=
  Some (default EmptyString file +:+ text).

Section Settings.

(** The session object is serialized by [json.dumps] with the encoder of
    the module; the settings are read back by [raw.load_settings] of the
    library ibllib, which gets the session folder and reads the disk, here
    the text of the settings file; [==] is the equality of Python. *)
Variable session : Type.
Variable dumps : session -> result string.
Variable load_settings : option string -> result value.
Variable py_eq : value -> value -> bool.

(** The call returns [None] or raises; in both cases the settings file has
    been written. *)
Definition save_session_settings (sph : session) (file : option string)
  : result unit * option string :=
  match dumps sph with
  | Raise e => (Raise e, file)
  | Ok save_this =>
      let file := append_text file save_this in
      let file := append_text file newline in
      (save_this ← loads json_parse save_this;
       settings ← load_settings file;
       if py_eq save_this settings then Ok tt else Raise AssertionError,
       file)
  end.

End Settings.

Definition copy_task_code (sph : session_folders) (fs : node) : result node :=
  fs ← copytree (IBLRIG_PARAMS_FOLDER sph ++ ["IBL"; "tasks"; PYBPOD_PROTOCOL sph])
                (SESSION_RAW_DATA_FOLDER sph ++ [PYBPOD_PROTOCOL sph]) fs;
  copytree (VISUAL_STIM_FOLDER sph ++ [VISUAL_STIMULUS_TYPE sph])
           (SESSION_RAW_DATA_FOLDER sph ++ [VISUAL_STIMULUS_TYPE sph]) fs.

Definition save_task_code (sph : session_folders) (fs : node) : result node :=
  behavior_code_files ← subfolders (SESSION_RAW_DATA_FOLDER sph) fs;
  fs ← zipit behavior_code_files
             (SESSION_RAW_DATA_FOLDER sph ++ ["_iblrig_taskCodeFiles.raw.zip"]) fs;
  rmtree_all behavior_code_files fs.

(** [k in d.keys()] *)
Definition has_key (d : gmap string value) (k : string) : bool :=
  bool_decide (is_Some (d !! k)).

(** [v is None] *)
Definition is_None (v : value) : bool :=
  match v with
  | VNone => true
  | _ => false
  end.

(** The settings of the previous session are [None] or a dictionary.  The
    generator advances only when an order is drawn. *)
Definition load_session_order_idx (last_settings_data : option (gmap string value))
    (g : rng) : result (value * value) * rng :=
  let d := default ∅ last_settings_data in
  if negb (match last_settings_data with
           | Some d => truthy (VDict d)
           | None => false
           end)
     || negb (has_key d "SESSION_ORDER")
     || match d !! "SESSION_ORDER" with
        | Some v => is_None v
        | None => false
        end
  then
    let '(session_order, g) := draw_session_order g in
    (Ok (session_order, VInt 0), g)
  else if has_key d "SESSION_ORDER" then
    (session_order ← getitem (VDict d) "SESSION_ORDER";
     idx ← getitem (VDict d) "SESSION_IDX";
     session_idx ← py_succ float_add idx;
     Ok (session_order, session_idx), g)
  else (Raise UnboundLocalError, g).

End WithLibraries.

End Iotasks.

(** ** Session parameters of the training task ([session_params.py]) *)

Module SessionParams.

(** The attributes of [session_param_handler] that the adaptive rules read
    and write.  [LAST_TRIAL_DATA] is [VNone] or the record that
    [_load_last_trial] returned. *)
Record session_param_handler : Type := {
  ADAPTIVE_REWARD : value;
  REWARD_AMOUNT : value;
  AR_INIT_VALUE : value;
  CALIBRATION_VALUE : value;
  ADAPTIVE_GAIN : value;
  STIM_GAIN : value;
  AG_INIT_VALUE : value;
  AG_MIN_VALUE : value;
  PREVIOUS_DATA_FILE : option string;
  LAST_TRIAL_DATA : value
}.

Definition set_LAST_TRIAL_DATA (v : value) (self : session_param_handler) :=
  {| ADAPTIVE_REWARD := ADAPTIVE_REWARD self;
     REWARD_AMOUNT := REWARD_AMOUNT self;
     AR_INIT_VALUE := AR_INIT_VALUE self;
     CALIBRATION_VALUE := CALIBRATION_VALUE self;
     ADAPTIVE_GAIN := ADAPTIVE_GAIN self;
     STIM_GAIN := STIM_GAIN self;
     AG_INIT_VALUE := AG_INIT_VALUE self;
     AG_MIN_VALUE := AG_MIN_VALUE self;
     PREVIOUS_DATA_FILE := PREVIOUS_DATA_FILE self;
     LAST_TRIAL_DATA := v |}.

Definition set_CALIBRATION_VALUE (v : value) (self : session_param_handler) :=
  {| ADAPTIVE_REWARD := ADAPTIVE_REWARD self;
     REWARD_AMOUNT := REWARD_AMOUNT self;
     AR_INIT_VALUE := AR_INIT_VALUE self;
     CALIBRATION_VALUE := v;
     ADAPTIVE_GAIN := ADAPTIVE_GAIN self;
     STIM_GAIN := STIM_GAIN self;
     AG_INIT_VALUE := AG_INIT_VALUE self;
     AG_MIN_VALUE := AG_MIN_VALUE self;
     PREVIOUS_DATA_FILE := PREVIOUS_DATA_FILE self;
     LAST_TRIAL_DATA := LAST_TRIAL_DATA self |}.

Section WithLibraries.

(** [json.loads], the lines that [open(path, 'r')] iterates over (or the
    error it raises), and the operator [/] on numbers are Python's own;
    the rules are stated for any of them. *)
Variable json_parse : string -> option value.
Variable open_lines : string -> result (list string).
Variable truediv : value -> value -> result value.

(** [for line in f: trial_data.append(json.loads(line))] *)
Fixpoint read_trials (lines : list string) (trial_data : list value)
  : result (list value) :=
  match lines with
  | [] => Ok trial_data
  | line :: rest =>
      last_trial ← loads json_parse line;
      read_trials rest (trial_data ++ [last_trial])
  end.

(** The arguments of the [print] call of [_load_last_trial], evaluated
    from left to right. *)
Definition print_previous_session (trial_data : list value) (i : Z)
  : result unit :=
  t ← list_getitem trial_data i; _ ← getitem t "trial_num";
  t ← list_getitem trial_data i; _ ← getitem t "non_rc_ntrials";
  t ← list_getitem trial_data i; _ ← getitem t "reward_amount";
  t ← list_getitem trial_data i; _ ← getitem t "stim_gain";
  t ← list_getitem trial_data i; ac ← getitem t "ac";
  _ ← getitem ac "contrast_set";
  t ← list_getitem trial_data i; ac ← getitem t "ac";
  _ ← getitem ac "buffer";
  Ok tt.

Definition _load_last_trial (self : session_param_handler) (i : Z)
  : result value :=
  match PREVIOUS_DATA_FILE self with
  | None => Ok VNone
  | Some data_file =>
      lines ← open_lines data_file;
      trial_data ← read_trials lines [];
      _ ← print_previous_session trial_data i;
      match trial_data with
      | [] => Ok VNone
      | _ => list_getitem trial_data i
      end
  end.

Definition _init_reward (self : session_param_handler) : result value :=
  if negb (truthy (ADAPTIVE_REWARD self)) then Ok (REWARD_AMOUNT self)
  else
    match LAST_TRIAL_DATA self with
    | VNone => Ok (AR_INIT_VALUE self)
    | last =>
        try_except_IOError
          (a ← getitem last "reward_valve_time";
           b ← getitem last "reward_calibration";
           truediv a b)
          (a ← getitem last "reward_valve_time";
           truediv a (CALIBRATION_VALUE self))
    end.

Definition _init_stim_gain (self : session_param_handler) : result value :=
  if negb (truthy (ADAPTIVE_GAIN self)) then Ok (STIM_GAIN self)
  else
    c ← (if truthy (LAST_TRIAL_DATA self)
         then n ← getitem (LAST_TRIAL_DATA self) "trial_num"; py_ge n 200
         else Ok false);
    if (c : bool) then Ok (AG_MIN_VALUE self) else Ok (AG_INIT_VALUE self).

(** The method has the body of [Iotasks.deserialize_pybpod_user_settings];
    it updates the object instead of returning it. *)
Definition deserialize_session_user_settings (self : user_settings)
  : result parsed_settings :=
  creator ← loads json_parse (PYBPOD_CREATOR self);
  user_extra ← loads json_parse (PYBPOD_USER_EXTRA self);
  subjects ← Iotasks.loads_subjects json_parse (PYBPOD_SUBJECTS self);
  subjects ← (if (length subjects =? 1)%nat
              then list_getitem subjects 0
              else Raise IOError);
  subject_extra ←
    Iotasks.loads_all json_parse
      (split extra_sep (strip_ends (PYBPOD_SUBJECT_EXTRA self)));
  subject_extra ← (if (length subject_extra =? 1)%nat
                   then list_getitem subject_extra 0
                   else Ok (VList subject_extra));
  Ok {| CREATOR := creator;
        USER_EXTRA := user_extra;
        SUBJECTS := subjects;
        SUBJECT_EXTRA := subject_extra |}.

Definition _save_task_code (self : session_folders) (fs : node) : result node :=
  fs ← copytree (IBLRIG_PARAMS_FOLDER self ++ ["IBL"; "tasks"; PYBPOD_PROTOCOL self])
                (SESSION_RAW_DATA_FOLDER self ++ [PYBPOD_PROTOCOL self]) fs;
  folders_to_zip ← subfolders (SESSION_RAW_DATA_FOLDER self) fs;
  fs ← zipit folders_to_zip
             (SESSION_RAW_DATA_FOLDER self ++ ["_iblrig_codeFiles.raw.zip"]) fs;
  rmtree_all folders_to_zip fs.

(** Lines 79 to 84 of the constructor: the record is loaded first, then
    the two rules run on it. *)
Definition init_adaptive (self : session_param_handler)
  : result (value * value) :=
  last ← _load_last_trial self (-1);
  let self := set_LAST_TRIAL_DATA last self in
  reward ← _init_reward self;
  gain ← _init_stim_gain self;
  Ok (reward, gain).

End WithLibraries.

(** An instance of [/] for running the rules: exact division of the numbers
    the operands denote. *)
Definition exact_truediv (a b : value) : result value :=
  match as_number a, as_number b with
  | Some x, Some y =>
      if Qeq_bool y 0 then Raise ZeroDivisionError else Ok (VFloat (Qred (x / y)))
  | _, _ => Raise TypeError
  end.

End SessionParams.

(** ** The rotary encoder ([MyRotaryEncoder] of [session_params.py])

    Python computes the thresholds in double precision: a float is a
    binary64 number of the kernel with its IEEE operations.  The thresholds
    and the gain of the task settings are [int]s or [float]s. *)

Module RotaryEncoder.

(** A number as the constructor gets it: an [int] or a [float]. *)
Inductive number : Type :=
| Int (n : Z)
| Float (f : float).

(** What the constructor raises: an exception of the kinds above, or the
    [OverflowError] of an [int] that is too large for a float. *)
Inductive raised : Type :=
| Exn (e : exn)
| OverflowError.

Inductive outcome (A : Type) : Type :=
| Returns (a : A)
| Raises (r : raised).
Arguments Returns {A} a.
Arguments Raises {A} r.

#[global] Instance outcome_ret : MRet outcome := fun A a => Returns a.
#[global] Instance outcome_bind : MBind outcome := fun A B f m =>
  match m with
  | Returns a => f a
  | Raises r => Raises r
  end.

Record MyRotaryEncoder : Type := {
  all_thresholds : list number;
  wheel_perim : float;
  deg_mm : float;
  mm_deg : float;
  factor : float;
  SET_THRESHOLDS : list float;
  ENABLE_THRESHOLDS : list bool
}.

(** [np.pi], the double nearest to the number pi. *)
Definition pi : float := 0x1.921fb54442d18p+1%float.

(** The double nearest to an integer, ties to even; integers beyond the
    range of the doubles give an infinity. *)
Definition float_of_int (n : Z) : float :=
  SF2Prim (binary_normalize prec emax n 0 false).

(** The operand of [*] or [/] whose other operand is a float: an [int] is
    converted, which raises when it is too large. *)
Definition to_float (x : number) : outcome float :=
  match x with
  | Float f => Returns f
  | Int n =>
      if is_infinity (float_of_int n) then Raises OverflowError
      else Returns (float_of_int n)
  end.

(** [a / b] on floats *)
Definition truediv (a b : float) : outcome float :=
  if (b =? 0)%float then Raises (Exn ZeroDivisionError)
  else Returns (a / b)%float.

(** [[x * factor for x in thresholds]] *)
Fixpoint scale (factor : float) (thresholds : list number)
  : outcome (list float) :=
  match thresholds with
  | [] => Returns []
  | x :: rest =>
      x ← to_float x;
      rest ← scale factor rest;
      Returns ((x * factor)%float :: rest)
  end.

(** [while len(l) < 8: l.append(False)] *)
Equations? pad_to_8 (l : list bool) : list bool by wf (8 - length l)%nat lt :=
  pad_to_8 l with lt_dec (length l) 8 := {
    | left _ => pad_to_8 (l ++ [false]);
    | right _ => l }.
Proof. rewrite length_app. simpl. lia. Qed.

Definition __init__ (thresholds : list number) (gain : number)
  : outcome MyRotaryEncoder :=
  k ← to_float (Int (31 * 2));
  let perim := (k * pi)%float in
  a ← to_float (Int 360);
  deg ← truediv a perim;
  b ← to_float (Int 360);
  mm ← truediv perim b;
  g ← to_float gain;
  one ← to_float (Int 1);
  fac ← truediv one (mm * g)%float;
  set_thresholds ← scale fac thresholds;
  let enable_thresholds :=
    map (fun x => if negb (x =? 0)%float then true else false) set_thresholds in
  Returns {| all_thresholds := thresholds;
             wheel_perim := perim;
             deg_mm := deg;
             mm_deg := mm;
             factor := fac;
             SET_THRESHOLDS := set_thresholds;
             ENABLE_THRESHOLDS := pad_to_8 enable_thresholds |}.

End RotaryEncoder.

(** ** State machines sent to the Bpod ([pybpodapi]) *)

(** A state as [StateMachine.add_state] receives it.  The conditions are a
    dictionary from event names to the names of the next states. *)
Record state : Type := {
  state_name : string;
  state_timer : Q;
  state_change_conditions : gmap string string;
  output_actions : list (string * Z)
}.

(** A state machine is the list of its states in the order they were
    added. *)
Abbreviation StateMachine := (list state).

Definition add_state (sma : StateMachine) (name : string) (timer : Q)
    (conditions : gmap string string) (actions : list (string * Z))
  : StateMachine :=
  sma ++ [{| state_name := name;
             state_timer := timer;
             state_change_conditions := conditions;
             output_actions := actions |}].

(** What a script asks of the device, in the order of the calls. *)
Inductive bpod_call : Type :=
| send_state_machine (sma : StateMachine)
| run_state_machine (sma : StateMachine)
| get_reading.

(** The calls that concern state machines. *)
Definition is_state_machine_call (c : bpod_call) : bool :=
  match c with
  | send_state_machine _ | run_state_machine _ => true
  | get_reading => false
  end.

(** Every state has the single condition [Tup], which leads to the state
    added next, and the last state leads to [exit]. *)
Fixpoint chained (sma : StateMachine) : Prop :=
  match sma with
  | [] => True
  | s :: rest =>
      state_change_conditions s
      = {["Tup" := match rest with
                   | [] => "exit"
                   | next :: _ => state_name next
                   end]}
      /\ chained rest
  end.

(** ** The habituation task *)

Module Habituation.

Definition rotary_encoder_reset : Z := 1.
Definition re_stop_stim : Z := rotary_encoder_reset + 1.
Definition re_show_stim : Z := rotary_encoder_reset + 2.
Definition re_show_center : Z := rotary_encoder_reset + 3.

(** The attributes of the trial parameter handler that a trial reads. *)
Record trial_params : Type := {
  delay_to_stim_center : Q;
  reward_valve_time : Q;
  iti : Q;
  out_tone : string * Z
}.

(** The state machine that one pass of the main loop declares. *)
Definition trial_sma (tph : trial_params) : StateMachine :=
  let sma : StateMachine := [] in
  let sma := add_state sma "trial_start" 1 {["Tup" := "stim_on"]}
               [("Serial1", re_stop_stim)] in
  let sma := add_state sma "stim_on" (delay_to_stim_center tph)
               {["Tup" := "stim_center"]}
               [("Serial1", re_show_stim); out_tone tph] in
  let sma := add_state sma "stim_center" (1 # 2) {["Tup" := "reward"]}
               [("Serial1", re_show_center)] in
  let sma := add_state sma "reward" (reward_valve_time tph) {["Tup" := "iti"]}
               [("Valve1", 255)] in
  let sma := add_state sma "iti" (iti tph) {["Tup" := "exit"]} [] in
  sma.

Section MainLoop.

(** The trial parameter handler belongs to a module of the task that
    changes it in [next_trial] and [trial_completed]; [params] reads its
    attributes. *)
Variable handler : Type.
Variable next_trial : handler -> handler.
Variable trial_completed : handler -> handler.
Variable params : handler -> trial_params.
Variable RECORD_AMBIENT_SENSOR_DATA : bool.

(** One pass of the loop: the handler and the calls made so far. *)
Definition trial (w : handler * list bpod_call) (i : nat)
  : handler * list bpod_call :=
  let '(tph, bpod) := w in
  let tph := next_trial tph in
  let sma := trial_sma (params tph) in
  let bpod := bpod ++ [send_state_machine sma] in
  let bpod := bpod ++ [run_state_machine sma] in
  let tph := trial_completed tph in
  let bpod := if RECORD_AMBIENT_SENSOR_DATA then bpod ++ [get_reading] else bpod in
  (tph, bpod).

(** [for i in range(sph.NTRIALS)] *)
Definition main_loop (NTRIALS : Z) (tph : handler) : handler * list bpod_call :=
  foldl trial (tph, []) (seq 0 (Z.to_nat NTRIALS)).

(** The handler when pass [i] of the loop begins (passes count from 0), and
    the parameters that the pass reads after [next_trial]. *)
Definition handler_at (tph : handler) (i : nat) : handler :=
  Nat.iter i (fun t => trial_completed (next_trial t)) tph.

Definition params_at (tph : handler) (i : nat) : trial_params :=
  params (next_trial (handler_at tph i)).

(** The state machine of pass [i] and the calls of that pass. *)
Definition sma_at (tph : handler) (i : nat) : StateMachine :=
  trial_sma (params_at tph i).

Definition calls_at (tph : handler) (i : nat) : list bpod_call :=
  [send_state_machine (sma_at tph i); run_state_machine (sma_at tph i)]
  ++ (if RECORD_AMBIENT_SENSOR_DATA then [get_reading] else []).

End MainLoop.

End Habituation.

(** ** The passive task *)

Module Passive.

Definition valve_click_sma (reward_valve_time : Q) : StateMachine :=
  add_state [] "valve_open" reward_valve_time {["Tup" := "exit"]}
    [("Valve1", 255); ("BNC1", 255)].

Definition do_valve_click (bpod : list bpod_call) (reward_valve_time : Q)
  : list bpod_call :=
  let sma := valve_click_sma reward_valve_time in
  let bpod := bpod ++ [send_state_machine sma] in
  bpod ++ [run_state_machine sma].

Definition bpod_sound_sma (sound_msg : Z) : StateMachine :=
  add_state [] "play_tone" 0 {["BNC2Low" := "exit"]} [("Serial3", sound_msg)].

Definition do_bpod_sound (bpod : list bpod_call) (sound_msg : Z)
  : list bpod_call :=
  let sma := bpod_sound_sma sound_msg in
  let bpod := bpod ++ [send_state_machine sma] in
  bpod ++ [run_state_machine sma].

End Passive.


(** ** Sample data *)

Module Sample.

Import SessionParams.

(** The last record of a session of 250 trials. *)
Definition long_record : gmap string value :=
  <["trial_num" := VInt 250]>
  (<["reward_valve_time" := VInt 150]>
  (<["reward_calibration" := VInt 50]> ∅)).

(** The last record of a session of 40 trials. *)
Definition short_record : gmap string value :=
  <["trial_num" := VInt 40]>
  (<["reward_valve_time" := VInt 150]>
  (<["reward_calibration" := VInt 50]> ∅)).

Definition session (adaptive : bool) (file : option string) (last : value)
  : session_param_handler :=
  {| ADAPTIVE_REWARD := VBool adaptive;
     REWARD_AMOUNT := VInt 3;
     AR_INIT_VALUE := VInt 2;
     CALIBRATION_VALUE := VInt 50;
     ADAPTIVE_GAIN := VBool adaptive;
     STIM_GAIN := VInt 4;
     AG_INIT_VALUE := VInt 8;
     AG_MIN_VALUE := VInt 4;
     PREVIOUS_DATA_FILE := file;
     LAST_TRIAL_DATA := last |}.

(** Trial parameters whose delay grows with the trial. *)
Definition params_of (t : nat) : Habituation.trial_params :=
  {| Habituation.delay_to_stim_center := inject_Z (Z.of_nat t);
     Habituation.reward_valve_time := 1 # 10;
     Habituation.iti := 1;
     Habituation.out_tone := ("SoftCode", 1) |}.

(** A data file of two lines.  The parser stands for [json.loads] on these
    two lines, which hold the records of trials 249 and 250. *)
Definition full_record (n : Z) : gmap string value :=
  <["trial_num" := VInt n]>
  (<["non_rc_ntrials" := VInt n]>
  (<["reward_amount" := VInt 3]>
  (<["stim_gain" := VInt 4]>
  (<["ac" := VDict (<["contrast_set" := VList []]>
                    (<["buffer" := VList []]> ∅))]>
  (<["reward_valve_time" := VInt 150]>
  (<["reward_calibration" := VInt 50]> ∅)))))).

Definition data_json (s : string) : option value :=
  if String.eqb s "trial 249" then Some (VDict (full_record 249))
  else if String.eqb s "trial 250" then Some (VDict (full_record 250))
  else None.

Definition data_files (p : string) : result (list string) :=
  if String.eqb p "data.jsonable" then Ok ["trial 249"; "trial 250"]
  else Raise FileNotFoundError.

(** A parser for three JSON texts. *)
Definition small_json (s : string) : option value :=
  if String.eqb s "{}" then Some (VDict ∅)
  else if String.eqb s "[]" then Some (VList [])
  else if String.eqb s "1" then Some (VInt 1)
  else None.

Definition settings_of (subjects : list string) : user_settings :=
  {| PYBPOD_CREATOR := "[]";
     PYBPOD_USER_EXTRA := "{}";
     PYBPOD_SUBJECTS := subjects;
     PYBPOD_SUBJECT_EXTRA := "[{}]" |}.

(** A session object without attributes, which [json.dumps] writes as a
    pair of braces. *)
Definition dumps_braces (sph : unit) : result string := Ok "{}".

Fixpoint only_blank (s : string) : bool :=
  match s with
  | EmptyString => true
  | String c rest =>
      (Ascii.eqb c (ascii_of_nat 10) || Ascii.eqb c " ") && only_blank rest
  end.

(** [json.loads] on a fragment of JSON: a pair of braces followed by blanks
    and line ends is the empty dictionary, and anything that follows the
    braces otherwise, such as a second document, is an error.  Texts that
    do not begin with the pair of braces are outside the fragment and are
    rejected here. *)
Definition braces_json (s : string) : option value :=
  match s with
  | String "{" (String "}" rest) =>
      if only_blank rest then Some (VDict ∅) else None
  | _ => None
  end.

(** What [raw.load_settings] of ibllib does with the settings file of the
    session: [json.load] of its text. *)
Definition load_settings (file : option string) : result value :=
  match file with
  | Some text => loads braces_json text
  | None => Raise FileNotFoundError
  end.

(** [==] on the values of the fragment: two empty dictionaries are equal. *)
Definition eq_dict (a b : value) : bool :=
  match a, b with
  | VDict d1, VDict d2 => bool_decide (d1 = ∅) && bool_decide (d2 = ∅)
  | _, _ => false
  end.

(** A rig whose task code is installed, and a session folder that holds a
    data file, an archive left by an earlier run and the stimulus code. *)
Definition folders : session_folders :=
  {| IBLRIG_PARAMS_FOLDER := ["iblrig_params"];
     SESSION_RAW_DATA_FOLDER := ["data"; "raw_behavior_data"];
     PYBPOD_PROTOCOL := "habituation";
     VISUAL_STIM_FOLDER := ["visual_stim"];
     VISUAL_STIMULUS_TYPE := "GaborHabituationTask" |}.

Definition task_code : gmap string node :=
  <["task.py" := File (Bytes "sma.add_state")]>
  (<["lib" := Dir {["settings.py" := File (Bytes "NTRIALS")]}]> ∅).

Definition raw_folder : gmap string node :=
  <["_iblrig_taskData.raw.jsonable" := File (Bytes "trial 1")]>
  (<["_iblrig_taskCodeFiles.raw.zip" := File (Bytes "earlier run")]>
  (<["Gabor2D" := Dir {["stim.bonsai" := File (Bytes "workflow")]}]> ∅)).

Definition disk : node :=
  Dir (<["iblrig_params" :=
           Dir {["IBL" := Dir {["tasks" := Dir {["habituation" := Dir task_code]}]}]}]>
      (<["data" := Dir {["raw_behavior_data" := Dir raw_folder]}]> ∅)).

End Sample.

(** ** Further sample data *)

Module Cases.

(** Data files: one is empty, one holds a line that is not JSON after a
    line that is. *)
Definition data_files (p : string) : result (list string) :=
  if String.eqb p "empty.jsonable" then Ok []
  else if String.eqb p "broken.jsonable" then Ok ["trial 249"; "tri"]
  else if String.eqb p "data.jsonable" then Ok ["trial 249"; "trial 250"]
  else Raise FileNotFoundError.

End Cases.

(** ** The video code and the trial data ([iblrig/iotasks.py]) *)

(** The folders that the archival of the video code reads. *)
Record video_folders : Type := {
  VIDEO_RECORDING_FOLDER : path;
  SESSION_RAW_VIDEO_DATA_FOLDER : path
}.

Module Video.

Definition copy_video_code (sph : video_folders) (fs : node) : result node :=
  copytree (VIDEO_RECORDING_FOLDER sph)
           (SESSION_RAW_VIDEO_DATA_FOLDER sph ++ ["camera_recordings"]) fs.

Definition save_video_code (sph : video_folders) (fs : node) : result node :=
  video_code_files ← subfolders (SESSION_RAW_VIDEO_DATA_FOLDER sph) fs;
  fs ← zipit video_code_files
             (SESSION_RAW_VIDEO_DATA_FOLDER sph
              ++ ["_iblrig_videoCodeFiles.raw.zip"]) fs;
  rmtree_all video_code_files fs.

End Video.

Module Data.

(** [raw.load_data] of ibllib returns [None] when there is no data file and
    the list of the trial records otherwise, or raises; what it does for
    the session folder is a parameter. *)
Definition load_data (raw_load_data : result (option (list value))) (i : Z)
  : result value :=
  trial_data ← raw_load_data;
  match trial_data with
  | None | Some [] => Ok VNone
  | Some trial_data => list_getitem trial_data i
  end.

End Data.

(** ** Names of the encoder events ([session_param_handler.__init__]) *)

Module Events.

Section Thresholds.

(** The thresholds are numbers; what the dictionary needs of them is that
    equal numbers are the same key. *)
Context {K : Type} `{Countable K}.

Definition ALL_THRESHOLDS (STIM_POSITIONS QUIESCENCE_THRESHOLDS : list K)
  : list K :=
  STIM_POSITIONS ++ QUIESCENCE_THRESHOLDS.

(** ['RotaryEncoder1_{}'.format(x)] *)
Definition event_name (x : nat) : string := "RotaryEncoder1_" +:+ pretty x.

Definition ENCODER_EVENTS (all_thresholds : list K) : list string :=
  map event_name (seq 1 (length all_thresholds)).

(** [dict(zip(keys, values))]: the pairs are put into the dictionary from
    left to right, a later pair replaces an earlier one that has the same
    key. *)
Definition dict_zip {V : Type} (keys : list K) (values : list V) : gmap K V :=
  foldl (fun d kv => <[kv.1 := kv.2]> d) ∅ (zip keys values).

Definition THRESHOLD_EVENTS (all_thresholds : list K) : gmap K string :=
  dict_zip all_thresholds (ENCODER_EVENTS all_thresholds).

End Thresholds.

End Events.

(** ** The replay of the task stimuli in the passive task *)

Module PassiveLoop.

(** What the script sends to Bonsai: [bonsai.send_stim_info] with its
    arguments, and [send_message("/re", n)]. *)
Inductive osc_message : Type :=
| stim_info (pcs_idx : nat) (pos : Z) (cont phase freq angle gain sigma : Q)
| re (n : Z).

(** The attributes of the session that the replay reads. *)
Record passive_params : Type := {
  STIM_DELAYS : list Q;
  STIM_IDS : list string;
  REWARD_VALVE_TIME : Q;
  POSITIONS : list Q;
  CONTRASTS : list Q;
  STIM_PHASE : list Q
}.

(** The calls made to the Bpod, the messages sent to Bonsai and the
    arguments of [time.sleep], each in the order of the calls, and the two
    counters of the script. *)
Record world : Type := {
  bpod : list bpod_call;
  osc : list osc_message;
  slept : list Q;
  pcs_idx : nat;
  scount : nat
}.

(** [int(x)] of a float: the fraction is cut off. *)
Definition py_int (x : Q) : Z := Z.quot (Qnum x) (Zpos (Qden x)).

Definition sleep (seconds : Q) (w : world) : world :=
  {| bpod := bpod w; osc := osc w; slept := slept w ++ [seconds];
     pcs_idx := pcs_idx w; scount := scount w |}.

Definition send (m : osc_message) (w : world) : world :=
  {| bpod := bpod w; osc := osc w ++ [m]; slept := slept w;
     pcs_idx := pcs_idx w; scount := scount w |}.

Definition with_bpod (calls : list bpod_call) (w : world) : world :=
  {| bpod := calls; osc := osc w; slept := slept w;
     pcs_idx := pcs_idx w; scount := scount w |}.

Definition do_gabor (pcs_idx : nat) (pos cont phase : Q) (w : world) : world :=
  let w := send (stim_info pcs_idx (py_int pos) cont phase
                   (1 # 10) 0 4 7) w in
  let w := send (re 2) w in
  let w := sleep (3 # 10) w in
  send (re 1) w.

(** What ends the replay before its time: an exception of the kinds above,
    or the [ValueError] that [time.sleep] raises for a negative delay. *)
Inductive raised : Type :=
| Exn (e : exn)
| ValueError.

Section Replay.

Variable sph : passive_params.
(** The two serial messages that [BpodMessageCreator] made for the sound
    card. *)
Variable sc_play_tone : Z.
Variable sc_play_noise : Z.

(** One pass of the loop, [scount += 1] apart: what it raises, if anything,
    and the world after the pass or when the exception is raised.  The
    arguments of [do_gabor] are evaluated before the call. *)
Definition stimulus (sdel : Q) (sid : string) (w : world)
  : option raised * world :=
  if negb (Qle_bool 0 sdel) then (Some ValueError, w)
  else
    let w := sleep sdel w in
    if String.eqb sid "V" then
      (None,
       with_bpod (Passive.do_valve_click (bpod w) (REWARD_VALVE_TIME sph)) w)
    else if String.eqb sid "T" then
      (None, with_bpod (Passive.do_bpod_sound (bpod w) sc_play_tone) w)
    else if String.eqb sid "N" then
      (None, with_bpod (Passive.do_bpod_sound (bpod w) sc_play_noise) w)
    else if String.eqb sid "G" then
      match (pos ← list_getitem (POSITIONS sph) (Z.of_nat (pcs_idx w));
             cont ← list_getitem (CONTRASTS sph) (Z.of_nat (pcs_idx w));
             phase ← list_getitem (STIM_PHASE sph) (Z.of_nat (pcs_idx w));
             Ok (pos, cont, phase)) with
      | Ok (pos, cont, phase) =>
          let w := do_gabor (pcs_idx w) pos cont phase w in
          (None, {| bpod := bpod w; osc := osc w; slept := slept w;
                    pcs_idx := pcs_idx w + 1; scount := scount w |})
      | Raise e => (Some (Exn e), w)
      end
    else (None, w).

(** [for sdel, sid in stims]: what the loop raises, if anything, and the
    world when it ends. *)
Fixpoint replay (stims : list (Q * string)) (w : world)
  : option raised * world :=
  match stims with
  | [] => (None, w)
  | (sdel, sid) :: rest =>
      match stimulus sdel sid w with
      | (None, w) =>
          replay rest {| bpod := bpod w; osc := osc w; slept := slept w;
                         pcs_idx := pcs_idx w; scount := scount w + 1 |}
      | (Some e, w) => (Some e, w)
      end
  end.

(** Lines 109 to 135: the counters start at 0 and 1, the loop runs over
    [zip(sph.STIM_DELAYS, sph.STIM_IDS)]. *)
Definition main_loop (w : world) : option raised * world :=
  replay (zip (STIM_DELAYS sph) (STIM_IDS sph))
         {| bpod := bpod w; osc := osc w; slept := slept w;
            pcs_idx := 0; scount := 1 |}.

(** The stimuli of the replay with the identifier [sid]. *)
Definition stimuli_with (sid : string) (stims : list (Q * string))
  : list (Q * string) :=
  List.filter (fun s => String.eqb s.2 sid) stims.

(** The calls that the Bpod gets for one stimulus. *)
Definition bpod_calls_for (sid : string) : list bpod_call :=
  if String.eqb sid "V" then
    Passive.do_valve_click [] (REWARD_VALVE_TIME sph)
  else if String.eqb sid "T" then Passive.do_bpod_sound [] sc_play_tone
  else if String.eqb sid "N" then Passive.do_bpod_sound [] sc_play_noise
  else [].

(** The number of Gabor patches that the session has parameters for. *)
Definition patches : nat :=
  Nat.min (length (POSITIONS sph))
          (Nat.min (length (CONTRASTS sph)) (length (STIM_PHASE sph))).

(** The messages of the Gabor patch number [k]. *)
Definition gabor_messages (k : nat) : list osc_message :=
  [stim_info k (py_int (default 0%Q (POSITIONS sph !! k)))
     (default 0%Q (CONTRASTS sph !! k)) (default 0%Q (STIM_PHASE sph !! k))
     (1 # 10) 0 4 7;
   re 2; re 1].

(** No delay of the stimuli is negative. *)
Definition delays_ok (stims : list (Q * string)) : Prop :=
  Forall (fun s : Q * string => Qle_bool 0 s.1 = true) stims.

End Replay.

End PassiveLoop.

(** ** The backup of the local configuration ([update.py]) *)

Module Update.

(** [str.isdigit] on a character of the ASCII range, and the digit it
    stands for; the default file name, the only one the script passes, ends
    in such a character or in a letter. *)
Definition digit_of (c : ascii) : option nat :=
  let n := nat_of_ascii c in
  if ((48 <=? n) && (n <=? 57))%nat then Some (n - 48)%nat else None.

(** [s[-1]] of a string that is not empty. *)
Fixpoint last_char (s : string) : option ascii :=
  match s with
  | EmptyString => None
  | String c EmptyString => Some c
  | String _ rest => last_char rest
  end.

(** [shutil.ignore_patterns(name)] for a name without wildcards, as
    [copytree] applies it: in every directory of the tree the entry of that
    name is left out. *)
Fixpoint ignore_patterns (name : string) (n : node) : node :=
  match n with
  | File f => File f
  | Dir entries => Dir (delete name (ignore_patterns name <$> entries))
  end.

(** [shutil.copytree(src, dst, ignore=shutil.ignore_patterns(name))] *)
Definition copytree_ignore (name : string) (src dst : path) (fs : node)
  : result node :=
  match fs_lookup src fs with
  | Some (Dir tree) =>
      makedirs_with dst (delete name (ignore_patterns name <$> tree)) fs
  | Some (File _) => Raise NotADirectoryError
  | None => Raise (lookup_error src fs)
  end.

Section Folders.

(** [os.getcwd()] and [os.path.expanduser('~')] *)
Variable cwd : path.
Variable home : path.

Definition pybpod_projects_path : path := cwd ++ ["pybpod_projects"].

(** The name of the backup.  The last character of the path [dst] is the
    last character of [filename], which is a file name: it is not empty. *)
Definition backup_name (filename : string) (fs : node) : string :=
  match fs_lookup (home ++ [filename]) fs with
  | Some _ =>
      match last_char filename ≫= digit_of with
      | None => filename +:+ "0"
      | Some d => filename +:+ pretty (d + 1)%nat
      end
  | None => filename
  end.

(** The default of the argument [filename]. *)
Definition default_filename : string := "pybpod_projects.bk".

Definition backup_pybpod_projects (filename : string) (fs : node)
  : result node :=
  let src := pybpod_projects_path in
  let dst := home ++ [backup_name filename fs] in
  copytree_ignore "sessions" src dst fs.

End Folders.

End Update.

(** ** Sample sessions of the passive task *)

Module PassiveCases.

(** Five delays for four stimuli; the session has parameters for as many
    patches as the shortest of the three lists. *)
Definition session (ids : list string) (contrasts : list Q)
  : PassiveLoop.passive_params :=
  {| PassiveLoop.STIM_DELAYS := [1; 2; 3; 4; 5]%Q;
     PassiveLoop.STIM_IDS := ids;
     PassiveLoop.REWARD_VALVE_TIME := 1 # 10;
     PassiveLoop.POSITIONS := [-35 # 1; 35 # 1]%Q;
     PassiveLoop.CONTRASTS := contrasts;
     PassiveLoop.STIM_PHASE := [0; 1]%Q |}.

Definition start (pcs_idx scount : nat) : PassiveLoop.world :=
  {| PassiveLoop.bpod := []; PassiveLoop.osc := []; PassiveLoop.slept := [];
     PassiveLoop.pcs_idx := pcs_idx; PassiveLoop.scount := scount |}.

End PassiveCases.

(** * Properties *)

(** ** The result monad and lists *)

Lemma bind_Ok {A B} (f : A -> result B) (m : result A) (b : B) :
  m ≫= f = Ok b -> exists a, m = Ok a /\ f a = Ok b.
Proof. destruct m as [a|e]; simpl; [eauto | discriminate]. Qed.

Lemma bind_Raise {A B} (f : A -> result B) (m : result A) (e : exn) :
  m ≫= f = Raise e ->
  m = Raise e \/ exists a, m = Ok a /\ f a = Raise e.
Proof. destruct m as [a|e']; simpl; [eauto | intros [= ->]; auto]. Qed.

Lemma list_getitem_last {A} (l : list A) (x : A) :
  list_getitem (l ++ [x]) (-1) = Ok x.
Proof.
  unfold list_getitem. rewrite length_app. simpl length.
  replace (-1 <? 0) with true by reflexivity.
  replace (-1 + Z.of_nat (length l + 1)) with (Z.of_nat (length l)) by lia.
  destruct (Z.ltb_spec (Z.of_nat (length l)) 0); [lia|].
  destruct (Z.leb_spec (Z.of_nat (length l + 1)) (Z.of_nat (length l))); [lia|].
  simpl. rewrite Nat2Z.id.
  rewrite lookup_app_r by lia. rewrite Nat.sub_diag. reflexivity.
Qed.

Lemma list_getitem_nil {A} (i : Z) : list_getitem (@nil A) i = Raise IndexError.
Proof.
  unfold list_getitem. simpl length.
  destruct (_ || _); [reflexivity|]. now rewrite lookup_nil.
Qed.

(** [l[-1]] is the last element, and there is one. *)
Lemma list_getitem_last_inv {A} (l : list A) (x : A) :
  list_getitem l (-1) = Ok x -> exists front, l = front ++ [x].
Proof.
  destruct l as [|y l'] using rev_ind; intros H.
  - rewrite list_getitem_nil in H. discriminate.
  - rewrite list_getitem_last in H. injection H as ->. eauto.
Qed.

Lemma list_getitem_Raise {A} (l : list A) (i : Z) (e : exn) :
  list_getitem l i = Raise e -> e = IndexError.
Proof.
  unfold list_getitem. destruct (_ || _); [now intros [=]|].
  destruct (l !! _); [discriminate | now intros [=]].
Qed.

Lemma getitem_Ok (v x : value) (k : string) :
  getitem v k = Ok x -> exists d, v = VDict d /\ d !! k = Some x.
Proof.
  destruct v; simpl; try discriminate.
  destruct (d !! k) eqn:E; [|discriminate]. intros [= ->]. eauto.
Qed.

(** ** The adaptive rules *)

Section AdaptiveRules.

Import SessionParams.

Variable json_parse : string -> option value.
Variable open_lines : string -> result (list string).
Variable truediv : value -> value -> result value.

(** Without a data file of a previous session no record is loaded. *)
Lemma load_last_trial_no_file (self : session_param_handler) (i : Z) :
  PREVIOUS_DATA_FILE self = None ->
  _load_last_trial json_parse open_lines self i = Ok VNone.
Proof. unfold _load_last_trial. now intros ->. Qed.

(** With a data file, what is loaded is the last record of the file, a
    dictionary that has the key [trial_num]. *)
Lemma load_last_trial_final (self : session_param_handler) (p : string)
    (last : value) :
  PREVIOUS_DATA_FILE self = Some p ->
  _load_last_trial json_parse open_lines self (-1) = Ok last ->
  exists lines records d,
    open_lines p = Ok lines /\
    read_trials json_parse lines [] = Ok (records ++ [VDict d]) /\
    last = VDict d /\ is_Some (d !! "trial_num").
Proof.
  unfold _load_last_trial. intros -> H.
  apply bind_Ok in H as (lines & Hopen & H).
  apply bind_Ok in H as (trial_data & Hread & H).
  apply bind_Ok in H as ([] & Hprint & H).
  unfold print_previous_session in Hprint.
  apply bind_Ok in Hprint as (t & Ht & Hprint).
  apply bind_Ok in Hprint as (n & Hn & _).
  apply list_getitem_last_inv in Ht as Hfront. destruct Hfront as (front & ->).
  apply getitem_Ok in Hn as (d & -> & Hd).
  destruct (front ++ [VDict d]) eqn:E.
  { destruct front; discriminate. }
  rewrite <- E in *. rewrite list_getitem_last in H. injection H as <-.
  exists lines, front, d. rewrite Hd. eauto.
Qed.

Lemma init_reward_not_adaptive (self : session_param_handler) :
  truthy (ADAPTIVE_REWARD self) = false ->
  _init_reward truediv self = Ok (REWARD_AMOUNT self).
Proof. unfold _init_reward. now intros ->. Qed.

Lemma init_reward_first_session (self : session_param_handler) :
  truthy (ADAPTIVE_REWARD self) = true ->
  LAST_TRIAL_DATA self = VNone ->
  _init_reward truediv self = Ok (AR_INIT_VALUE self).
Proof. unfold _init_reward. now intros -> ->. Qed.

Lemma init_reward_from_record (self : session_param_handler)
    (d : gmap string value) (a b : value) :
  (forall x y e, truediv x y = Raise e -> is_IOError e = false) ->
  truthy (ADAPTIVE_REWARD self) = true ->
  LAST_TRIAL_DATA self = VDict d ->
  d !! "reward_valve_time" = Some a ->
  d !! "reward_calibration" = Some b ->
  _init_reward truediv self = truediv a b.
Proof.
  intros Hdiv Had Hlast Ha Hb. unfold _init_reward.
  rewrite Had, Hlast. simpl. rewrite Ha, Hb. simpl.
  unfold try_except_IOError.
  destruct (truediv a b) as [q|e] eqn:E; [reflexivity|].
  now rewrite (Hdiv _ _ _ E).
Qed.

(** A record without [reward_calibration] raises [KeyError], which the
    handler for [IOError] does not catch: [CALIBRATION_VALUE] is never
    used. *)
Lemma init_reward_missing_calibration (self : session_param_handler)
    (d : gmap string value) (a : value) :
  truthy (ADAPTIVE_REWARD self) = true ->
  LAST_TRIAL_DATA self = VDict d ->
  d !! "reward_valve_time" = Some a ->
  d !! "reward_calibration" = None ->
  _init_reward truediv self = Raise KeyError.
Proof.
  intros Had Hlast Ha Hb. unfold _init_reward.
  rewrite Had, Hlast. simpl. now rewrite Ha, Hb.
Qed.

End AdaptiveRules.

Lemma exact_truediv_not_IOError (x y : value) (e : exn) :
  SessionParams.exact_truediv x y = Raise e -> is_IOError e = false.
Proof.
  unfold SessionParams.exact_truediv.
  destruct (as_number x), (as_number y); try (intros [= <-]; reflexivity).
  destruct (Qeq_bool _ _); [intros [= <-]; reflexivity | discriminate].
Qed.

(** C3.  The adaptive reward rule [_init_reward] returns the configured
    [REWARD_AMOUNT] when [ADAPTIVE_REWARD] is false; [AR_INIT_VALUE] when it
    is true and there is no record of a previous session; and otherwise the
    [reward_valve_time] of the record divided by its [reward_calibration].
    The record is what [_load_last_trial] returned: [None] when there is no
    data file of a previous session, else the last record of that file. *)
Theorem init_reward_rule
    (json_parse : string -> option value)
    (open_lines : string -> result (list string))
    (truediv : value -> value -> result value)
    (self : SessionParams.session_param_handler) :
  (forall x y e, truediv x y = Raise e -> is_IOError e = false) ->
  (truthy (SessionParams.ADAPTIVE_REWARD self) = false ->
   SessionParams._init_reward truediv self
   = Ok (SessionParams.REWARD_AMOUNT self)) /\
  (truthy (SessionParams.ADAPTIVE_REWARD self) = true ->
   SessionParams.LAST_TRIAL_DATA self = VNone ->
   SessionParams._init_reward truediv self
   = Ok (SessionParams.AR_INIT_VALUE self)) /\
  (truthy (SessionParams.ADAPTIVE_REWARD self) = true ->
   forall (d : gmap string value) (a b : value),
     SessionParams.LAST_TRIAL_DATA self = VDict d ->
     d !! "reward_valve_time" = Some a ->
     d !! "reward_calibration" = Some b ->
     SessionParams._init_reward truediv self = truediv a b) /\
  (SessionParams.PREVIOUS_DATA_FILE self = None ->
   SessionParams._load_last_trial json_parse open_lines self (-1) = Ok VNone) /\
  (forall (p : string) (last : value),
     SessionParams.PREVIOUS_DATA_FILE self = Some p ->
     SessionParams._load_last_trial json_parse open_lines self (-1) = Ok last ->
     exists lines records d,
       open_lines p = Ok lines /\
       SessionParams.read_trials json_parse lines [] = Ok (records ++ [VDict d]) /\
       last = VDict d /\ is_Some (d !! "trial_num")).
Proof.
  intros Hdiv. repeat split.
  - apply init_reward_not_adaptive.
  - apply init_reward_first_session.
  - intros Had d a b. now apply init_reward_from_record.
  - apply load_last_trial_no_file.
  - intros p last. apply load_last_trial_final.
Qed.

Lemma init_reward_rule_witness :
  SessionParams._init_reward SessionParams.exact_truediv
    (Sample.session false None VNone) = Ok (VInt 3) /\
  SessionParams._init_reward SessionParams.exact_truediv
    (Sample.session true None VNone) = Ok (VInt 2) /\
  SessionParams._init_reward SessionParams.exact_truediv
    (Sample.session true (Some "data.jsonable") (VDict Sample.long_record))
  = SessionParams.exact_truediv (VInt 150) (VInt 50) /\
  SessionParams._load_last_trial Sample.data_json Sample.data_files
    (Sample.session true None VNone) (-1) = Ok VNone /\
  exists lines records d,
    Sample.data_files "data.jsonable" = Ok lines /\
    SessionParams.read_trials Sample.data_json lines []
    = Ok (records ++ [VDict d]) /\
    VDict (Sample.full_record 250) = VDict d /\ is_Some (d !! "trial_num").
Proof.
  split; [|split; [|split; [|split]]].
  - destruct (init_reward_rule Sample.data_json Sample.data_files
                SessionParams.exact_truediv (Sample.session false None VNone)
                exact_truediv_not_IOError) as (Hoff & _).
    apply Hoff. reflexivity.
  - destruct (init_reward_rule Sample.data_json Sample.data_files
                SessionParams.exact_truediv (Sample.session true None VNone)
                exact_truediv_not_IOError) as (_ & Hfirst & _).
    apply Hfirst; reflexivity.
  - destruct (init_reward_rule Sample.data_json Sample.data_files
                SessionParams.exact_truediv
                (Sample.session true (Some "data.jsonable")
                   (VDict Sample.long_record))
                exact_truediv_not_IOError) as (_ & _ & Hrecord & _).
    apply (Hrecord eq_refl Sample.long_record); reflexivity.
  - destruct (init_reward_rule Sample.data_json Sample.data_files
                SessionParams.exact_truediv (Sample.session true None VNone)
                exact_truediv_not_IOError) as (_ & _ & _ & Hnone & _).
    apply Hnone. reflexivity.
  - destruct (init_reward_rule Sample.data_json Sample.data_files
                SessionParams.exact_truediv
                (Sample.session true (Some "data.jsonable") VNone)
                exact_truediv_not_IOError) as (_ & _ & _ & _ & Hlast).
    apply (Hlast "data.jsonable"); reflexivity.
Defined.

(** A run of the three steps of the constructor on the sample data: the
    record of trial 250 is loaded, the reward is 150/50 and the gain is
    the minimal one. *)
Example init_adaptive_sample :
  SessionParams.init_adaptive Sample.data_json Sample.data_files
    SessionParams.exact_truediv
    (Sample.session true (Some "data.jsonable") VNone)
  = Ok (VFloat 3, VInt 4).
Proof. reflexivity. Qed.

Lemma py_ge_true (n : value) (q : Q) (k : Z) :
  as_number n = Some q -> (inject_Z k <= q)%Q -> py_ge n k = Ok true.
Proof.
  unfold py_ge. intros -> H. f_equal. now apply Qle_bool_iff.
Qed.

Lemma py_ge_false (n : value) (q : Q) (k : Z) :
  as_number n = Some q -> (q < inject_Z k)%Q -> py_ge n k = Ok false.
Proof.
  unfold py_ge. intros -> H. f_equal.
  destruct (Qle_bool (inject_Z k) q) eqn:E; [|reflexivity].
  apply Qle_bool_iff in E. now apply Qlt_not_le in H.
Qed.

Lemma truthy_dict_with_key (d : gmap string value) (k : string) (x : value) :
  d !! k = Some x -> truthy (VDict d) = true.
Proof.
  intros H. simpl. rewrite bool_decide_false; [reflexivity|].
  intros ->. now rewrite lookup_empty in H.
Qed.

(** C4.  The adaptive gain rule [_init_stim_gain] returns the configured
    [STIM_GAIN] when [ADAPTIVE_GAIN] is false.  When it is true, it returns
    [AG_MIN_VALUE] if there is a record of the previous session whose
    [trial_num] is at least 200, and [AG_INIT_VALUE] when there is no record,
    when the record is empty, and when its [trial_num] is below 200. *)
Theorem init_stim_gain_rule (self : SessionParams.session_param_handler) :
  (truthy (SessionParams.ADAPTIVE_GAIN self) = false ->
   SessionParams._init_stim_gain self = Ok (SessionParams.STIM_GAIN self)) /\
  (truthy (SessionParams.ADAPTIVE_GAIN self) = true ->
   (forall (d : gmap string value) (n : value) (q : Q),
      SessionParams.LAST_TRIAL_DATA self = VDict d ->
      d !! "trial_num" = Some n -> as_number n = Some q -> (200 <= q)%Q ->
      SessionParams._init_stim_gain self
      = Ok (SessionParams.AG_MIN_VALUE self)) /\
   (SessionParams.LAST_TRIAL_DATA self = VNone ->
    SessionParams._init_stim_gain self
    = Ok (SessionParams.AG_INIT_VALUE self)) /\
   (SessionParams.LAST_TRIAL_DATA self = VDict ∅ ->
    SessionParams._init_stim_gain self
    = Ok (SessionParams.AG_INIT_VALUE self)) /\
   (forall (d : gmap string value) (n : value) (q : Q),
      SessionParams.LAST_TRIAL_DATA self = VDict d ->
      d !! "trial_num" = Some n -> as_number n = Some q -> (q < 200)%Q ->
      SessionParams._init_stim_gain self
      = Ok (SessionParams.AG_INIT_VALUE self))).
Proof.
  unfold SessionParams._init_stim_gain. split.
  - now intros ->.
  - intros ->. simpl negb. cbv iota. repeat split.
    + intros d n q -> Hn Hq Hle.
      rewrite (truthy_dict_with_key d _ _ Hn). simpl. rewrite Hn. simpl.
      now rewrite (py_ge_true n q 200 Hq Hle).
    + now intros ->.
    + now intros ->.
    + intros d n q -> Hn Hq Hlt.
      rewrite (truthy_dict_with_key d _ _ Hn). simpl. rewrite Hn. simpl.
      now rewrite (py_ge_false n q 200 Hq Hlt).
Qed.

Lemma init_stim_gain_rule_witness :
  SessionParams._init_stim_gain (Sample.session false None VNone)
  = Ok (VInt 4) /\
  SessionParams._init_stim_gain
    (Sample.session true (Some "data.jsonable") (VDict Sample.long_record))
  = Ok (VInt 4) /\
  SessionParams._init_stim_gain (Sample.session true None VNone)
  = Ok (VInt 8) /\
  SessionParams._init_stim_gain
    (Sample.session true (Some "data.jsonable") (VDict Sample.short_record))
  = Ok (VInt 8).
Proof.
  split; [|split; [|split]].
  - apply (init_stim_gain_rule (Sample.session false None VNone)).
    reflexivity.
  - destruct (init_stim_gain_rule
                (Sample.session true (Some "data.jsonable")
                   (VDict Sample.long_record))) as [_ Hon].
    destruct (Hon eq_refl) as (Hmin & _).
    apply (Hmin Sample.long_record (VInt 250) (inject_Z 250));
      try reflexivity.
    unfold Qle. simpl. lia.
  - destruct (init_stim_gain_rule (Sample.session true None VNone))
      as [_ Hon].
    destruct (Hon eq_refl) as (_ & Hnone & _).
    apply Hnone. reflexivity.
  - destruct (init_stim_gain_rule
                (Sample.session true (Some "data.jsonable")
                   (VDict Sample.short_record))) as [_ Hon].
    destruct (Hon eq_refl) as (_ & _ & _ & Hlow).
    apply (Hlow Sample.short_record (VInt 40) (inject_Z 40)); reflexivity.
Defined.

(** ** The session order *)

(** C9.  [load_session_order_idx] returns a freshly drawn session order
    paired with index 0 whenever the settings of the previous session are
    absent or empty, lack the key [SESSION_ORDER], or map it to [None]; in
    every other case it returns the previous [SESSION_ORDER] unchanged,
    paired with the previous [SESSION_IDX] plus 1, and draws nothing. *)
Theorem load_session_order_idx_rule (rng : Type)
    (draw_session_order : rng -> value * rng) (float_add : Q -> Q -> Q)
    (last_settings_data : option (gmap string value)) (g : rng) :
  (last_settings_data = None \/
   last_settings_data = Some ∅ \/
   (exists d, last_settings_data = Some d /\ d !! "SESSION_ORDER" = None) \/
   (exists d, last_settings_data = Some d /\
              d !! "SESSION_ORDER" = Some VNone) ->
   Iotasks.load_session_order_idx rng draw_session_order float_add
     last_settings_data g
   = (Ok ((draw_session_order g).1, VInt 0), (draw_session_order g).2)) /\
  (forall (d : gmap string value) (order : value) (i : Z),
     last_settings_data = Some d ->
     d !! "SESSION_ORDER" = Some order -> order <> VNone ->
     d !! "SESSION_IDX" = Some (VInt i) ->
     Iotasks.load_session_order_idx rng draw_session_order float_add
       last_settings_data g
     = (Ok (order, VInt (i + 1)), g)) /\
  (forall (d : gmap string value) (order idx : value),
     last_settings_data = Some d ->
     d !! "SESSION_ORDER" = Some order -> order <> VNone ->
     d !! "SESSION_IDX" = Some idx ->
     Iotasks.load_session_order_idx rng draw_session_order float_add
       last_settings_data g
     = (next ← py_succ float_add idx; Ok (order, next), g)).
Proof.
  assert (Hnext : forall (d : gmap string value) (order idx : value),
             last_settings_data = Some d ->
             d !! "SESSION_ORDER" = Some order -> order <> VNone ->
             d !! "SESSION_IDX" = Some idx ->
             Iotasks.load_session_order_idx rng draw_session_order float_add
               last_settings_data g
             = (next ← py_succ float_add idx; Ok (order, next), g)).
  { unfold Iotasks.load_session_order_idx, Iotasks.has_key.
    intros d order idx -> Hord Hnone Hidx. simpl default.
    rewrite (truthy_dict_with_key d _ _ Hord), Hord.
    rewrite (bool_decide_true (is_Some (Some order))) by eauto.
    replace (Iotasks.is_None order) with false by (now destruct order).
    simpl. now rewrite Hord, Hidx. }
  split.
  - unfold Iotasks.load_session_order_idx, Iotasks.has_key.
    intros [-> | [-> | [(d & -> & Hd) | (d & -> & Hd)]]]; simpl.
    + now destruct (draw_session_order g).
    + now destruct (draw_session_order g).
    + rewrite Hd. rewrite (bool_decide_false (is_Some None)) by (intros [? [=]]).
      rewrite orb_true_r. simpl. now destruct (draw_session_order g).
    + rewrite Hd. simpl. rewrite orb_true_r. now destruct (draw_session_order g).
  - split; [|exact Hnext].
    intros d order i Hlast Hord Hnone Hidx.
    now rewrite (Hnext d order (VInt i)).
Qed.

Lemma load_session_order_idx_rule_witness :
  Iotasks.load_session_order_idx Z (fun g => (VList [VInt g], g + 1)) Qplus
    None 7
  = (Ok (VList [VInt 7], VInt 0), 8) /\
  Iotasks.load_session_order_idx Z (fun g => (VList [VInt g], g + 1)) Qplus
    (Some (<["SESSION_ORDER" := VList [VInt 2; VInt 0; VInt 1]]>
             (<["SESSION_IDX" := VInt 1]> ∅))) 7
  = (Ok (VList [VInt 2; VInt 0; VInt 1], VInt 2), 7).
Proof.
  split.
  - apply (load_session_order_idx_rule Z (fun g => (VList [VInt g], g + 1))
             Qplus None 7).
    left. reflexivity.
  - destruct (load_session_order_idx_rule Z
                (fun g => (VList [VInt g], g + 1)) Qplus
                (Some (<["SESSION_ORDER" := VList [VInt 2; VInt 0; VInt 1]]>
                         (<["SESSION_IDX" := VInt 1]> ∅))) 7) as (_ & Hnext & _).
    apply (Hnext (<["SESSION_ORDER" := VList [VInt 2; VInt 0; VInt 1]]>
                    (<["SESSION_IDX" := VInt 1]> ∅))
                 (VList [VInt 2; VInt 0; VInt 1]) 1);
      [reflexivity | reflexivity | discriminate | reflexivity].
Defined.

(** ** Deserialization of the user settings *)

Lemma loads_Raise (json_parse : string -> option value) (s : string) (e : exn) :
  loads json_parse s = Raise e -> e = JSONDecodeError.
Proof. unfold loads. destruct (json_parse s); [discriminate | now intros [=]]. Qed.

Lemma loads_subjects_Raise (json_parse : string -> option value)
    (subjects : list string) (e : exn) :
  Iotasks.loads_subjects json_parse subjects = Raise e -> e = JSONDecodeError.
Proof.
  induction subjects as [|x rest IH]; simpl; [discriminate|].
  destruct (loads json_parse _) eqn:E; simpl.
  - destruct (Iotasks.loads_subjects json_parse rest); simpl;
      [discriminate | auto].
  - intros [= <-]. eapply loads_Raise, E.
Qed.

Lemma loads_subjects_length (json_parse : string -> option value)
    (subjects : list string) (l : list value) :
  Iotasks.loads_subjects json_parse subjects = Ok l ->
  length l = length subjects.
Proof.
  revert l. induction subjects as [|x rest IH]; simpl; intros l.
  - now intros [= <-].
  - destruct (loads json_parse _); simpl; [|discriminate].
    destruct (Iotasks.loads_subjects json_parse rest); simpl; [|discriminate].
    intros [= <-]. simpl. f_equal. now apply IH.
Qed.

Lemma loads_all_Raise (json_parse : string -> option value)
    (pieces : list string) (e : exn) :
  Iotasks.loads_all json_parse pieces = Raise e -> e = JSONDecodeError.
Proof.
  induction pieces as [|x rest IH]; simpl; [discriminate|].
  destruct (loads json_parse _) eqn:E; simpl.
  - destruct (Iotasks.loads_all json_parse rest); simpl; [discriminate | auto].
  - intros [= <-]. eapply loads_Raise, E.
Qed.

(** The method of the session object and the function of [iotasks.py] do
    the same. *)
Lemma deserialize_session_user_settings_eq
    (json_parse : string -> option value) (sph : user_settings) :
  SessionParams.deserialize_session_user_settings json_parse sph
  = Iotasks.deserialize_pybpod_user_settings json_parse sph.
Proof. reflexivity. Qed.

Lemma deserialize_IOError_iff (json_parse : string -> option value)
    (sph : user_settings) :
  Iotasks.deserialize_pybpod_user_settings json_parse sph = Raise IOError <->
  exists creator user_extra subjects,
    loads json_parse (PYBPOD_CREATOR sph) = Ok creator /\
    loads json_parse (PYBPOD_USER_EXTRA sph) = Ok user_extra /\
    Iotasks.loads_subjects json_parse (PYBPOD_SUBJECTS sph) = Ok subjects /\
    length subjects <> 1%nat.
Proof.
  unfold Iotasks.deserialize_pybpod_user_settings. split.
  - intros H.
    destruct (loads json_parse (PYBPOD_CREATOR sph)) as [c|e] eqn:Ec; simpl in H;
      [|injection H as ->; now apply loads_Raise in Ec].
    destruct (loads json_parse (PYBPOD_USER_EXTRA sph)) as [u|e] eqn:Eu;
      simpl in H; [|injection H as ->; now apply loads_Raise in Eu].
    destruct (Iotasks.loads_subjects json_parse (PYBPOD_SUBJECTS sph))
      as [l|e] eqn:El; simpl in H;
      [|injection H as ->; now apply loads_subjects_Raise in El].
    exists c, u, l. repeat split.
    intros Hlen. destruct l as [|v [|w l]]; try discriminate Hlen.
    simpl in H.
    destruct (Iotasks.loads_all json_parse _) as [x|e] eqn:Ex; simpl in H.
    + destruct (length x =? 1)%nat; [|discriminate].
      destruct (list_getitem x 0) eqn:Eg; simpl in H; [discriminate|].
      injection H as ->. now apply list_getitem_Raise in Eg.
    + injection H as ->. now apply loads_all_Raise in Ex.
  - intros (c & u & l & -> & -> & -> & Hlen). simpl.
    apply Nat.eqb_neq in Hlen. now rewrite Hlen.
Qed.

Lemma deserialize_Ok_subject (json_parse : string -> option value)
    (sph : user_settings) (out : parsed_settings) :
  Iotasks.deserialize_pybpod_user_settings json_parse sph = Ok out ->
  Iotasks.loads_subjects json_parse (PYBPOD_SUBJECTS sph) = Ok [SUBJECTS out].
Proof.
  unfold Iotasks.deserialize_pybpod_user_settings. intros H.
  apply bind_Ok in H as (c & _ & H).
  apply bind_Ok in H as (u & _ & H).
  apply bind_Ok in H as (l & -> & H).
  apply bind_Ok in H as (v & Hv & H).
  apply bind_Ok in H as (x & _ & H).
  apply bind_Ok in H as (y & _ & H).
  injection H as <-. simpl.
  destruct l as [|w [|w' l]]; try discriminate Hv.
  now injection Hv as ->.
Qed.

(** C8.  [deserialize_pybpod_user_settings] raises [IOError] if and only if
    the parsed [PYBPOD_SUBJECTS] list does not have exactly one element,
    which includes the list without subjects; on success [PYBPOD_SUBJECTS]
    is that single parsed subject.  The method
    [deserialize_session_user_settings] behaves in the same way. *)
Theorem deserialize_user_settings_subjects
    (json_parse : string -> option value) (sph : user_settings) :
  (Iotasks.deserialize_pybpod_user_settings json_parse sph = Raise IOError <->
   exists creator user_extra subjects,
     loads json_parse (PYBPOD_CREATOR sph) = Ok creator /\
     loads json_parse (PYBPOD_USER_EXTRA sph) = Ok user_extra /\
     Iotasks.loads_subjects json_parse (PYBPOD_SUBJECTS sph) = Ok subjects /\
     length subjects <> 1%nat) /\
  (forall creator user_extra,
     loads json_parse (PYBPOD_CREATOR sph) = Ok creator ->
     loads json_parse (PYBPOD_USER_EXTRA sph) = Ok user_extra ->
     PYBPOD_SUBJECTS sph = [] ->
     Iotasks.deserialize_pybpod_user_settings json_parse sph = Raise IOError) /\
  (forall out,
     Iotasks.deserialize_pybpod_user_settings json_parse sph = Ok out ->
     Iotasks.loads_subjects json_parse (PYBPOD_SUBJECTS sph)
     = Ok [SUBJECTS out]) /\
  SessionParams.deserialize_session_user_settings json_parse sph
  = Iotasks.deserialize_pybpod_user_settings json_parse sph.
Proof.
  split; [apply deserialize_IOError_iff|].
  split; [|split;
           [apply deserialize_Ok_subject
           |apply deserialize_session_user_settings_eq]].
  intros c u Hc Hu Hs. apply deserialize_IOError_iff.
  exists c, u, []. rewrite Hs. repeat split; auto.
Qed.

Lemma deserialize_user_settings_subjects_witness :
  Iotasks.deserialize_pybpod_user_settings Sample.small_json
    (Sample.settings_of ["{}"; "1"]) = Raise IOError /\
  Iotasks.deserialize_pybpod_user_settings Sample.small_json
    (Sample.settings_of []) = Raise IOError /\
  Iotasks.loads_subjects Sample.small_json ["1"] = Ok [VInt 1].
Proof.
  split; [|split].
  - destruct (deserialize_user_settings_subjects Sample.small_json
                (Sample.settings_of ["{}"; "1"])) as ([_ Hiff] & _).
    apply Hiff. exists (VList []), (VDict ∅), [VDict ∅; VInt 1].
    repeat split. discriminate.
  - destruct (deserialize_user_settings_subjects Sample.small_json
                (Sample.settings_of [])) as (_ & Hzero & _).
    apply (Hzero (VList []) (VDict ∅)); reflexivity.
  - destruct (deserialize_user_settings_subjects Sample.small_json
                (Sample.settings_of ["1"])) as (_ & _ & Hone & _).
    apply (Hone {| CREATOR := VList []; USER_EXTRA := VDict ∅;
                   SUBJECTS := VInt 1; SUBJECT_EXTRA := VDict ∅ |}).
    reflexivity.
Defined.

(** ** The state machines of the tasks *)

Lemma trial_sma_names (tph : Habituation.trial_params) :
  map state_name (Habituation.trial_sma tph)
  = ["trial_start"; "stim_on"; "stim_center"; "reward"; "iti"].
Proof. reflexivity. Qed.

Lemma trial_sma_chained (tph : Habituation.trial_params) :
  chained (Habituation.trial_sma tph).
Proof. simpl. repeat split. Qed.

Section HabituationLoop.

Import Habituation.

Variable handler : Type.
Variable next_trial : handler -> handler.
Variable trial_completed : handler -> handler.
Variable params : handler -> trial_params.
Variable RECORD_AMBIENT_SENSOR_DATA : bool.

Local Abbreviation sma_at :=
  (sma_at handler next_trial trial_completed params).
Local Abbreviation calls_at :=
  (calls_at handler next_trial trial_completed params
     RECORD_AMBIENT_SENSOR_DATA).

Lemma main_loop_passes (tph : handler) (n : nat) :
  foldl (trial handler next_trial trial_completed params
           RECORD_AMBIENT_SENSOR_DATA) (tph, []) (seq 0 n)
  = (handler_at handler next_trial trial_completed tph n,
     flat_map (calls_at tph) (seq 0 n)).
Proof.
  induction n as [|n IH].
  - reflexivity.
  - rewrite seq_S, foldl_app, IH. simpl.
    rewrite flat_map_app. simpl. rewrite app_nil_r.
    f_equal. unfold Habituation.calls_at, Habituation.sma_at, params_at.
    destruct RECORD_AMBIENT_SENSOR_DATA; now rewrite <- !app_assoc.
Qed.

Lemma state_machine_calls_of_passes (tph : handler) (l : list nat) :
  List.filter is_state_machine_call (flat_map (calls_at tph) l)
  = flat_map (fun i => [send_state_machine (sma_at tph i);
                        run_state_machine (sma_at tph i)]) l.
Proof.
  induction l as [|i l IH]; [reflexivity|].
  simpl. rewrite <- IH. unfold Habituation.calls_at.
  destruct RECORD_AMBIENT_SENSOR_DATA; reflexivity.
Qed.

Lemma pairs_lookup {A} (a b : nat -> A) (n k : nat) :
  (k < n)%nat ->
  flat_map (fun i => [a i; b i]) (seq 0 n) !! (2 * k)%nat = Some (a k) /\
  flat_map (fun i => [a i; b i]) (seq 0 n) !! (2 * k + 1)%nat = Some (b k).
Proof.
  intros Hk. induction n as [|n IH]; [lia|].
  assert (Hlen : forall m, length (flat_map (fun i => [a i; b i]) (seq 0 m))
                           = (2 * m)%nat).
  { intros m. induction m as [|m IHm]; [reflexivity|].
    rewrite seq_S, flat_map_app, length_app, IHm. simpl. lia. }
  rewrite seq_S, flat_map_app.
  change (flat_map (fun i => [a i; b i]) [(0 + n)%nat]) with [a n; b n].
  destruct (decide (k = n)) as [->|Hne].
  - rewrite !lookup_app_r by (rewrite Hlen; lia). rewrite Hlen.
    replace (2 * n - 2 * n)%nat with 0%nat by lia.
    replace (2 * n + 1 - 2 * n)%nat with 1%nat by lia.
    split; reflexivity.
  - rewrite !lookup_app_l by (rewrite Hlen; lia). apply IH. lia.
Qed.

End HabituationLoop.

(** C2.  For every trial index [i] from 1 to [NTRIALS], the main loop of the
    habituation task builds a new state machine whose states are added in
    the order [trial_start], [stim_on], [stim_center], [reward], [iti]; the
    only transition of each state leads to the next one and that of [iti] to
    [exit]; the machine is sent to the device and then run.  The calls that
    concern state machines are exactly these, trial after trial. *)
Theorem habituation_main_loop (handler : Type)
    (next_trial trial_completed : handler -> handler)
    (params : handler -> Habituation.trial_params)
    (RECORD_AMBIENT_SENSOR_DATA : bool) (NTRIALS : Z) (tph : handler) :
  List.filter is_state_machine_call
    (Habituation.main_loop handler next_trial trial_completed params
       RECORD_AMBIENT_SENSOR_DATA NTRIALS tph).2
  = flat_map
      (fun i =>
         [send_state_machine
            (Habituation.sma_at handler next_trial trial_completed params tph i);
          run_state_machine
            (Habituation.sma_at handler next_trial trial_completed params tph i)])
      (seq 0 (Z.to_nat NTRIALS)) /\
  forall i : Z, 1 <= i <= NTRIALS ->
    map state_name
      (Habituation.sma_at handler next_trial trial_completed params tph
         (Z.to_nat (i - 1)))
    = ["trial_start"; "stim_on"; "stim_center"; "reward"; "iti"] /\
    chained
      (Habituation.sma_at handler next_trial trial_completed params tph
         (Z.to_nat (i - 1))) /\
    List.filter is_state_machine_call
      (Habituation.main_loop handler next_trial trial_completed params
         RECORD_AMBIENT_SENSOR_DATA NTRIALS tph).2
      !! (2 * Z.to_nat (i - 1))%nat
    = Some (send_state_machine
              (Habituation.sma_at handler next_trial trial_completed params tph
                 (Z.to_nat (i - 1)))) /\
    List.filter is_state_machine_call
      (Habituation.main_loop handler next_trial trial_completed params
         RECORD_AMBIENT_SENSOR_DATA NTRIALS tph).2
      !! (2 * Z.to_nat (i - 1) + 1)%nat
    = Some (run_state_machine
              (Habituation.sma_at handler next_trial trial_completed params tph
                 (Z.to_nat (i - 1)))).
Proof.
  assert (Hcalls :
    List.filter is_state_machine_call
      (Habituation.main_loop handler next_trial trial_completed params
         RECORD_AMBIENT_SENSOR_DATA NTRIALS tph).2
    = flat_map
        (fun i =>
           [send_state_machine
              (Habituation.sma_at handler next_trial trial_completed params tph i);
            run_state_machine
              (Habituation.sma_at handler next_trial trial_completed params tph i)])
        (seq 0 (Z.to_nat NTRIALS))).
  { unfold Habituation.main_loop. rewrite main_loop_passes. simpl.
    apply state_machine_calls_of_passes. }
  split; [exact Hcalls|].
  intros i Hi. split; [apply trial_sma_names|].
  split; [apply trial_sma_chained|].
  rewrite Hcalls.
  apply (pairs_lookup
           (fun i => send_state_machine
                       (Habituation.sma_at handler next_trial trial_completed
                          params tph i))
           (fun i => run_state_machine
                       (Habituation.sma_at handler next_trial trial_completed
                          params tph i))).
  lia.
Qed.

Lemma habituation_main_loop_witness :
  List.filter is_state_machine_call
    (Habituation.main_loop nat S S Sample.params_of true 3 0%nat).2 !! 2%nat
  = Some (send_state_machine
            (Habituation.sma_at nat S S Sample.params_of 0%nat 1)) /\
  List.filter is_state_machine_call
    (Habituation.main_loop nat S S Sample.params_of true 3 0%nat).2 !! 3%nat
  = Some (run_state_machine
            (Habituation.sma_at nat S S Sample.params_of 0%nat 1)).
Proof.
  destruct (habituation_main_loop nat S S Sample.params_of true 3 0%nat)
    as [_ H].
  destruct (H 2 ltac:(lia)) as (_ & _ & Hsend & Hrun).
  split; [exact Hsend | exact Hrun].
Defined.




(** ** The rotary encoder *)

(** The loop appends [False] until there are 8 entries. *)
Lemma pad_to_8_replicate (l : list bool) :
  RotaryEncoder.pad_to_8 l = l ++ replicate (8 - length l) false.
Proof.
  funelim (RotaryEncoder.pad_to_8 l).
  - match goal with IH : RotaryEncoder.pad_to_8 _ = _ ++ _ |- _ => rewrite IH end.
    rewrite length_app. simpl length.
    replace (8 - length l)%nat with (S (8 - (length l + 1))) by lia.
    simpl. now rewrite <- app_assoc.
  - replace (8 - length l)%nat with 0%nat by lia. simpl.
    now rewrite app_nil_r.
Qed.

Lemma pad_to_8_length (l : list bool) :
  length (RotaryEncoder.pad_to_8 l) = Nat.max 8 (length l).
Proof.
  rewrite pad_to_8_replicate, length_app, length_replicate. lia.
Qed.

Lemma outcome_bind_Returns {A B} (f : A -> RotaryEncoder.outcome B)
    (m : RotaryEncoder.outcome A) (b : B) :
  m ≫= f = RotaryEncoder.Returns b ->
  exists a, m = RotaryEncoder.Returns a /\ f a = RotaryEncoder.Returns b.
Proof. destruct m as [a|r]; [eauto | discriminate]. Qed.

(** The constants of the wheel do not depend on the arguments: the steps
    before the gain is used always succeed. *)
Lemma rotary_encoder_init_eq (thresholds : list RotaryEncoder.number)
    (gain : RotaryEncoder.number) :
  RotaryEncoder.__init__ thresholds gain
  = (g ← RotaryEncoder.to_float gain;
     fac ← RotaryEncoder.truediv 1 (62 * RotaryEncoder.pi / 360 * g)%float;
     set_thresholds ← RotaryEncoder.scale fac thresholds;
     RotaryEncoder.Returns
       {| RotaryEncoder.all_thresholds := thresholds;
          RotaryEncoder.wheel_perim := (62 * RotaryEncoder.pi)%float;
          RotaryEncoder.deg_mm := (360 / (62 * RotaryEncoder.pi))%float;
          RotaryEncoder.mm_deg := (62 * RotaryEncoder.pi / 360)%float;
          RotaryEncoder.factor := fac;
          RotaryEncoder.SET_THRESHOLDS := set_thresholds;
          RotaryEncoder.ENABLE_THRESHOLDS :=
            RotaryEncoder.pad_to_8
              (map (fun x => if negb (x =? 0)%float then true else false)
                 set_thresholds) |}).
Proof. reflexivity. Qed.

Lemma to_float_Raises (x : RotaryEncoder.number) (r : RotaryEncoder.raised) :
  RotaryEncoder.to_float x = RotaryEncoder.Raises r ->
  r = RotaryEncoder.OverflowError /\
  exists n, x = RotaryEncoder.Int n /\
            is_infinity (RotaryEncoder.float_of_int n) = true.
Proof.
  destruct x as [n|f]; simpl; [|discriminate].
  destruct (is_infinity _) eqn:E; [|discriminate].
  intros [= <-]. eauto.
Qed.

Lemma scale_Returns (fac : float) (thresholds : list RotaryEncoder.number)
    (set_thresholds : list float) :
  RotaryEncoder.scale fac thresholds = RotaryEncoder.Returns set_thresholds ->
  length set_thresholds = length thresholds /\
  forall (i : nat) (x : RotaryEncoder.number),
    thresholds !! i = Some x ->
    exists xf, RotaryEncoder.to_float x = RotaryEncoder.Returns xf /\
               set_thresholds !! i = Some (xf * fac)%float.
Proof.
  revert set_thresholds.
  induction thresholds as [|y rest IH]; intros set_thresholds H; simpl in H.
  - injection H as <-. split; [reflexivity|]. intros i x Hx. discriminate.
  - apply outcome_bind_Returns in H as (yf & Hy & H).
    apply outcome_bind_Returns in H as (rest' & Hrest & H).
    injection H as <-. destruct (IH _ Hrest) as [Hlen Hall].
    split; [simpl; now rewrite Hlen|].
    intros [|i] x Hx; simpl in *.
    + injection Hx as <-. eauto.
    + now apply Hall.
Qed.

Lemma scale_total (fac : float) (thresholds : list RotaryEncoder.number) :
  (forall x, x ∈ thresholds ->
     exists xf, RotaryEncoder.to_float x = RotaryEncoder.Returns xf) ->
  exists set_thresholds,
    RotaryEncoder.scale fac thresholds = RotaryEncoder.Returns set_thresholds.
Proof.
  induction thresholds as [|y rest IH]; intros Hall; simpl.
  - eauto.
  - destruct (Hall y) as [yf ->]; [left|].
    destruct IH as [rest' ->]; [intros x Hx; apply Hall; now right|].
    simpl. eauto.
Qed.

Lemma scale_Raises (fac : float) (thresholds : list RotaryEncoder.number)
    (r : RotaryEncoder.raised) :
  RotaryEncoder.scale fac thresholds = RotaryEncoder.Raises r ->
  r = RotaryEncoder.OverflowError /\
  exists x, x ∈ thresholds /\
            RotaryEncoder.to_float x = RotaryEncoder.Raises RotaryEncoder.OverflowError.
Proof.
  induction thresholds as [|y rest IH]; simpl; [discriminate|].
  destruct (RotaryEncoder.to_float y) as [yf|r'] eqn:Ey; simpl.
  - destruct (RotaryEncoder.scale fac rest) as [rest'|r''] eqn:Er; simpl;
      [discriminate|].
    intros [= <-]. destruct (IH eq_refl) as (-> & x & Hx & Hr).
    split; [reflexivity|]. exists x. split; [now right | exact Hr].
  - intros [= <-]. destruct (to_float_Raises _ _ Ey) as [-> _].
    split; [reflexivity|]. exists y. split; [left | exact Ey].
Qed.

Lemma float_zero_mul (x f : float) :
  (x =? 0)%float = true -> is_finite f = true -> (x * f =? 0)%float = true.
Proof.
  unfold is_finite, is_nan, is_infinity.
  rewrite !FloatAxioms.eqb_spec, abs_spec, mul_spec.
  change (Prim2SF 0) with (S754_zero false).
  change (Prim2SF infinity) with (S754_infinity false).
  destruct (Prim2SF x) as [sx|sx| |sx mx ex], (Prim2SF f) as [sf|sf| |sf mf ef];
    intros Hx Hf.
  all: try (cbn in Hx; discriminate Hx).
  all: try reflexivity.
  all: try (destruct sx; cbn in Hx; discriminate Hx).
  all: try (destruct sf; cbn in Hf; discriminate Hf).
  all: try (cbn in Hf; discriminate Hf).
  all: destruct sx, sf; try reflexivity.
Qed.

Lemma float_mul_zero (f x : float) :
  is_finite f = true -> (x =? 0)%float = true -> (f * x =? 0)%float = true.
Proof.
  unfold is_finite, is_nan, is_infinity.
  rewrite !FloatAxioms.eqb_spec, abs_spec, mul_spec.
  change (Prim2SF 0) with (S754_zero false).
  change (Prim2SF infinity) with (S754_infinity false).
  destruct (Prim2SF x) as [sx|sx| |sx mx ex], (Prim2SF f) as [sf|sf| |sf mf ef];
    intros Hf Hx.
  all: try (cbn in Hx; discriminate Hx).
  all: try reflexivity.
  all: try (destruct sx; cbn in Hx; discriminate Hx).
  all: try (destruct sf; cbn in Hf; discriminate Hf).
  all: try (cbn in Hf; discriminate Hf).
  all: destruct sx, sf; try reflexivity.
Qed.

(** The claim C10 as it is written fails in double precision.  A nonzero
    gain does not ensure that the constructor returns: an [int] beyond the
    range of the doubles raises [OverflowError].  And the common factor is
    not 360/(62*pi*gain): for the gain 0.3 the code multiplies -35 by
    1/(62*pi/360*0.3) and gets -215.62927773740662, where the product with
    360/(62*pi*0.3) is -215.6292777374066. *)
Lemma rotary_encoder_common_factor_counterexample :
  ~ (forall (thresholds : list RotaryEncoder.number)
            (gain : RotaryEncoder.number) (g : float),
       RotaryEncoder.to_float gain = RotaryEncoder.Returns g ->
       (g =? 0)%float = false ->
       exists re,
         RotaryEncoder.__init__ thresholds gain = RotaryEncoder.Returns re) /\
  ~ (forall (thresholds : list float) (g : float) re,
       (g =? 0)%float = false ->
       RotaryEncoder.__init__ (map RotaryEncoder.Float thresholds)
         (RotaryEncoder.Float g)
       = RotaryEncoder.Returns re ->
       RotaryEncoder.SET_THRESHOLDS re
       = map (fun x => x * (360 / (62 * RotaryEncoder.pi * g)))%float
           thresholds).
Proof.
  split.
  - intros H.
    destruct (H [RotaryEncoder.Int (10 ^ 400)] (RotaryEncoder.Float 4) 4%float
                eq_refl eq_refl) as [re Hre].
    vm_compute in Hre. discriminate Hre.
  - intros H.
    assert (Hcode :
      match RotaryEncoder.__init__ (map RotaryEncoder.Float [(-35)%float])
              (RotaryEncoder.Float 0x1.3333333333333p-2) with
      | RotaryEncoder.Returns re =>
          match RotaryEncoder.SET_THRESHOLDS re with
          | [x] => (x =? -35 * (360 / (62 * RotaryEncoder.pi
                                       * 0x1.3333333333333p-2)))%float
          | _ => true
          end
      | RotaryEncoder.Raises _ => true
      end = false) by (vm_compute; reflexivity).
    destruct (RotaryEncoder.__init__ (map RotaryEncoder.Float [(-35)%float])
                (RotaryEncoder.Float 0x1.3333333333333p-2)) as [re|r] eqn:E;
      [|discriminate Hcode].
    rewrite (H [(-35)%float] 0x1.3333333333333p-2%float re eq_refl E) in Hcode.
    vm_compute in Hcode. discriminate Hcode.
Qed.

(** C10, amended.  Whenever the constructor of [MyRotaryEncoder] returns,
    [SET_THRESHOLDS] has the length of the input and holds each input entry,
    as a double, multiplied by the common factor; the factor is
    1/((62*pi/360)*gain), computed in double precision in this order.
    [ENABLE_THRESHOLDS] has length max(8, length of the input): entry [i] is
    [True] exactly when [SET_THRESHOLDS[i]] is not zero, and the entries
    beyond the input are [False].  The constructor returns whenever the
    gain and the thresholds are floats or fit into one and the product
    (62*pi/360)*gain is not zero. *)
Theorem rotary_encoder_thresholds (thresholds : list RotaryEncoder.number)
    (gain : RotaryEncoder.number) :
  (forall re,
     RotaryEncoder.__init__ thresholds gain = RotaryEncoder.Returns re ->
     (exists g,
        RotaryEncoder.to_float gain = RotaryEncoder.Returns g /\
        RotaryEncoder.factor re
        = (1 / (62 * RotaryEncoder.pi / 360 * g))%float) /\
     length (RotaryEncoder.SET_THRESHOLDS re) = length thresholds /\
     (forall (i : nat) (x : RotaryEncoder.number),
        thresholds !! i = Some x ->
        exists xf,
          RotaryEncoder.to_float x = RotaryEncoder.Returns xf /\
          RotaryEncoder.SET_THRESHOLDS re !! i
          = Some (xf * RotaryEncoder.factor re)%float) /\
     length (RotaryEncoder.ENABLE_THRESHOLDS re)
     = Nat.max 8 (length thresholds) /\
     (forall (i : nat) (y : float),
        RotaryEncoder.SET_THRESHOLDS re !! i = Some y ->
        RotaryEncoder.ENABLE_THRESHOLDS re !! i
        = Some (negb (y =? 0)%float)) /\
     (forall i : nat,
        (length thresholds <= i < Nat.max 8 (length thresholds))%nat ->
        RotaryEncoder.ENABLE_THRESHOLDS re !! i = Some false)) /\
  (forall g,
     RotaryEncoder.to_float gain = RotaryEncoder.Returns g ->
     (62 * RotaryEncoder.pi / 360 * g =? 0)%float = false ->
     (forall x, x ∈ thresholds ->
        exists xf, RotaryEncoder.to_float x = RotaryEncoder.Returns xf) ->
     exists re,
       RotaryEncoder.__init__ thresholds gain = RotaryEncoder.Returns re).
Proof.
  rewrite rotary_encoder_init_eq. split.
  - intros re H.
    apply outcome_bind_Returns in H as (g & Hg & H).
    apply outcome_bind_Returns in H as (fac & Hfac & H).
    apply outcome_bind_Returns in H as (set_thresholds & Hset & H).
    injection H as <-. simpl.
    unfold RotaryEncoder.truediv in Hfac.
    destruct (_ =? 0)%float; [discriminate|].
    assert (fac = (1 / (62 * RotaryEncoder.pi / 360 * g))%float) as Efac
      by (injection Hfac as <-; reflexivity).
    destruct (scale_Returns _ _ _ Hset) as [Hlen Hall].
    split; [eauto|]. split; [exact Hlen|]. split; [exact Hall|].
    rewrite pad_to_8_length, pad_to_8_replicate, !length_map, Hlen.
    split; [reflexivity|]. split.
    + intros i y Hy. apply lookup_app_l_Some.
      rewrite list_lookup_fmap, Hy. simpl. now destruct (y =? 0)%float.
    + intros i Hi. rewrite lookup_app_r by (rewrite length_map; lia).
      apply lookup_replicate_2. rewrite length_map. lia.
  - intros g Hg Hne Hall. rewrite Hg.
    change (RotaryEncoder.Returns g ≫= ?f) with (f g). cbv beta.
    unfold RotaryEncoder.truediv. rewrite Hne.
    change (RotaryEncoder.Returns ?a ≫= ?f) with (f a). cbv beta.
    destruct (scale_total (1 / (62 * RotaryEncoder.pi / 360 * g))%float
                thresholds Hall) as [set_thresholds ->].
    change (RotaryEncoder.Returns ?a ≫= ?f) with (f a). cbv beta. eauto.
Qed.

Lemma rotary_encoder_thresholds_witness :
  exists re,
    RotaryEncoder.__init__
      [RotaryEncoder.Int (-35); RotaryEncoder.Int 35; RotaryEncoder.Float 0]
      (RotaryEncoder.Float 4)
    = RotaryEncoder.Returns re /\
    length (RotaryEncoder.SET_THRESHOLDS re) = 3%nat /\
    length (RotaryEncoder.ENABLE_THRESHOLDS re) = 8%nat /\
    RotaryEncoder.ENABLE_THRESHOLDS re !! 5%nat = Some false.
Proof.
  destruct (rotary_encoder_thresholds
              [RotaryEncoder.Int (-35); RotaryEncoder.Int 35;
               RotaryEncoder.Float 0] (RotaryEncoder.Float 4))
    as [Hpost Htotal].
  destruct (Htotal 4%float eq_refl eq_refl) as [re Hre].
  { intros x Hx. repeat (apply elem_of_cons in Hx as [->|Hx]);
      [eexists; reflexivity..|]. now apply elem_of_nil in Hx. }
  destruct (Hpost re Hre) as (_ & Hlen & _ & Hen & _ & Hpad).
  exists re. split; [exact Hre|]. split; [exact Hlen|].
  split; [exact Hen|]. apply Hpad. simpl. lia.
Defined.

(** ** The file system *)

Lemma fs_lookup_app (p q : path) (n : node) :
  fs_lookup (p ++ q) n = fs_lookup p n ≫= fs_lookup q.
Proof.
  revert n. induction p as [|x p IH]; intros n; simpl.
  - reflexivity.
  - destruct n as [f|entries]; [reflexivity|].
    destruct (entries !! x) as [m|]; simpl; [apply IH | reflexivity].
Qed.

Lemma fs_lookup_entry (folder : path) (x : string) (fs : node)
    (entries : gmap string node) :
  fs_lookup folder fs = Some (Dir entries) ->
  fs_lookup (folder ++ [x]) fs = entries !! x.
Proof.
  intros H. rewrite fs_lookup_app, H. simpl.
  now destruct (entries !! x).
Qed.

(** A change at [folder ++ [x]] is the change of the entries of [folder],
    and raises what that change raises. *)
Lemma at_entry_in_folder (folder : path) (x : string)
    (change : string -> gmap string node -> result (gmap string node))
    (fs : node) (entries : gmap string node) :
  fs_lookup folder fs = Some (Dir entries) ->
  match change x entries with
  | Ok entries' =>
      exists fs', at_entry (folder ++ [x]) change fs = Ok fs' /\
                  fs_lookup folder fs' = Some (Dir entries')
  | Raise e => at_entry (folder ++ [x]) change fs = Raise e
  end.
Proof.
  revert fs. induction folder as [|y folder IH]; intros fs Hfs.
  - simpl in Hfs. injection Hfs as ->. simpl.
    destruct (change x entries) as [entries'|e]; simpl; eauto.
  - destruct fs as [f|top]; [discriminate|]. simpl in Hfs.
    destruct (top !! y) as [m|] eqn:Hy; [|discriminate]. simpl in Hfs.
    specialize (IH m Hfs).
    assert (Hstep : at_entry ((y :: folder) ++ [x]) change (Dir top)
                    = m' ← at_entry (folder ++ [x]) change m;
                      Ok (Dir (<[y := m']> top))).
    { simpl. destruct (folder ++ [x]) eqn:E.
      - destruct folder; discriminate.
      - now rewrite Hy. }
    rewrite Hstep.
    destruct (change x entries) as [entries'|e].
    + destruct IH as (m' & -> & Hm'). simpl.
      eexists. split; [reflexivity|]. simpl.
      now rewrite lookup_insert_eq.
    + now rewrite IH.
Qed.

Lemma write_file_in_folder (folder : path) (x : string) (f : file) (fs : node)
    (entries : gmap string node) :
  fs_lookup folder fs = Some (Dir entries) ->
  (forall d, entries !! x <> Some (Dir d)) ->
  exists fs', write_file (folder ++ [x]) f fs = Ok fs' /\
              fs_lookup folder fs' = Some (Dir (<[x := File f]> entries)).
Proof.
  intros Hfs Hx. unfold write_file.
  pose proof (at_entry_in_folder folder x
                (fun x entries =>
                   match entries !! x with
                   | Some (Dir _) => Raise IsADirectoryError
                   | _ => Ok (<[x := File f]> entries)
                   end) fs entries Hfs) as H.
  simpl in H. destruct (entries !! x) as [[g|d]|] eqn:E; try exact H.
  now destruct (Hx d).
Qed.

Lemma write_file_Ok_inv (folder : path) (x : string) (f : file) (fs fs' : node)
    (entries : gmap string node) :
  fs_lookup folder fs = Some (Dir entries) ->
  write_file (folder ++ [x]) f fs = Ok fs' ->
  forall d, entries !! x <> Some (Dir d).
Proof.
  intros Hfs Hw d Hd. unfold write_file in Hw.
  pose proof (at_entry_in_folder folder x
                (fun x entries =>
                   match entries !! x with
                   | Some (Dir _) => Raise IsADirectoryError
                   | _ => Ok (<[x := File f]> entries)
                   end) fs entries Hfs) as H.
  simpl in H. rewrite Hd in H. congruence.
Qed.

Lemma rmtree_in_folder (folder : path) (x : string) (fs : node)
    (entries d : gmap string node) :
  fs_lookup folder fs = Some (Dir entries) ->
  entries !! x = Some (Dir d) ->
  exists fs', rmtree (folder ++ [x]) fs = Ok fs' /\
              fs_lookup folder fs' = Some (Dir (delete x entries)).
Proof.
  intros Hfs Hx. unfold rmtree.
  pose proof (at_entry_in_folder folder x
                (fun x entries =>
                   match entries !! x with
                   | Some (Dir _) => Ok (delete x entries)
                   | Some (File _) => Raise NotADirectoryError
                   | None => Raise FileNotFoundError
                   end) fs entries Hfs) as H.
  simpl in H. now rewrite Hx in H.
Qed.

Lemma isdir_entry (folder : path) (x : string) (fs : node)
    (entries : gmap string node) :
  fs_lookup folder fs = Some (Dir entries) ->
  isdir (folder ++ [x]) fs = from_option is_dir false (entries !! x).
Proof.
  intros H. unfold isdir. rewrite (fs_lookup_entry _ _ _ _ H).
  now destruct (entries !! x) as [[f|d]|].
Qed.

Lemma filter_map_comm {A B} (f : B -> bool) (g : A -> B) (l : list A) :
  List.filter f (map g l) = map g (List.filter (fun a => f (g a)) l).
Proof.
  induction l as [|a l IH]; simpl; [reflexivity|].
  destruct (f (g a)); simpl; now rewrite IH.
Qed.

Lemma subfolders_in_folder (folder : path) (fs : node)
    (entries : gmap string node) :
  fs_lookup folder fs = Some (Dir entries) ->
  subfolders folder fs
  = Ok (map (fun x => folder ++ [x]) (subfolder_names entries)).
Proof.
  intros H. unfold subfolders, listdir. rewrite H. simpl. f_equal.
  rewrite filter_map_comm. f_equal. unfold subfolder_names.
  apply List.filter_ext. intros x. now apply isdir_entry.
Qed.

Lemma subfolders_Ok_inv (folder : path) (fs : node) (dirs : list path) :
  subfolders folder fs = Ok dirs ->
  exists entries, fs_lookup folder fs = Some (Dir entries).
Proof.
  unfold subfolders, listdir.
  destruct (fs_lookup folder fs) as [[f|entries]|]; try discriminate. eauto.
Qed.

Lemma elem_of_subfolder_names (entries : gmap string node) (x : string) :
  x ∈ subfolder_names entries <-> exists d, entries !! x = Some (Dir d).
Proof.
  unfold subfolder_names. rewrite list_elem_of_In, filter_In, <- list_elem_of_In.
  split.
  - intros [_ H]. destruct (entries !! x) as [[f|d]|]; try discriminate. eauto.
  - intros [d Hd]. split; [|now rewrite Hd].
    apply list_elem_of_fmap. exists (x, Dir d). split; [reflexivity|].
    now apply elem_of_map_to_list.
Qed.

Lemma NoDup_subfolder_names (entries : gmap string node) :
  NoDup (subfolder_names entries).
Proof.
  unfold subfolder_names. apply NoDup_ListNoDup, List.NoDup_filter.
  apply NoDup_ListNoDup, NoDup_fst_map_to_list.
Qed.

(** Removing distinct subdirectories of a folder one after the other
    succeeds and leaves the other entries. *)
Lemma rmtree_all_in_folder (folder : path) (names : list string) :
  NoDup names ->
  forall (fs : node) (entries : gmap string node),
    fs_lookup folder fs = Some (Dir entries) ->
    (forall x, x ∈ names -> exists d, entries !! x = Some (Dir d)) ->
    exists fs' entries',
      rmtree_all (map (fun x => folder ++ [x]) names) fs = Ok fs' /\
      fs_lookup folder fs' = Some (Dir entries') /\
      forall y, entries' !! y = if decide (y ∈ names) then None else entries !! y.
Proof.
  induction 1 as [|x names Hx Hnd IH]; intros fs entries Hfs Hdirs.
  - exists fs, entries. simpl. split; [reflexivity|]. split; [assumption|].
    intros y. destruct (decide (y ∈ [])) as [H|]; [|reflexivity].
    now apply elem_of_nil in H.
  - destruct (Hdirs x) as [d Hd]; [left|].
    destruct (rmtree_in_folder folder x fs entries d Hfs Hd) as (fs1 & Hrm & Hfs1).
    destruct (IH fs1 (delete x entries) Hfs1) as (fs' & entries' & Hall & Hfs' & Hlook).
    { intros y Hy. destruct (Hdirs y) as [dy Hdy]; [now right|].
      exists dy. rewrite lookup_delete_ne; [assumption|]. now intros ->. }
    exists fs', entries'. simpl. rewrite Hrm. simpl.
    split; [assumption|]. split; [assumption|].
    intros y. rewrite Hlook.
    destruct (decide (y = x)) as [->|Hne].
    + rewrite lookup_delete_eq.
      destruct (decide (x ∈ names)); destruct (decide (x ∈ x :: names)) as [|Hn];
        try reflexivity; destruct Hn; left.
    + rewrite lookup_delete_ne by congruence.
      destruct (decide (y ∈ names)) as [Hy|Hy];
        destruct (decide (y ∈ x :: names)) as [Hy'|Hy']; try reflexivity.
      * destruct Hy'. now right.
      * apply elem_of_cons in Hy' as [?|?]; [congruence | contradiction].
Qed.

Lemma zipdir_subfolder (folder : path) (x : string) (ziph : list (path * file))
    (fs : node) (entries : gmap string node) :
  fs_lookup folder fs = Some (Dir entries) ->
  zipdir (folder ++ [x]) ziph fs = ziph ++ members_of entries [x].
Proof.
  intros H. unfold zipdir, members_of.
  rewrite (fs_lookup_entry _ _ _ _ H). simpl. rewrite app_nil_r.
  destruct (entries !! x) as [[f|d]|]; try now rewrite app_nil_r.
  rewrite last_snoc. reflexivity.
Qed.

Lemma zip_subfolders (folder : path) (fs : node) (entries : gmap string node)
    (names : list string) (ziph : list (path * file)) :
  fs_lookup folder fs = Some (Dir entries) ->
  foldl (fun ziph dir => zipdir dir ziph fs) ziph
        (map (fun x => folder ++ [x]) names)
  = ziph ++ members_of entries names.
Proof.
  intros H. revert ziph. induction names as [|x names IH]; intros ziph; simpl.
  - now rewrite app_nil_r.
  - rewrite IH, (zipdir_subfolder _ _ _ _ _ H). unfold members_of. simpl.
    now rewrite app_nil_r, <- app_assoc.
Qed.

Lemma members_of_insert_file (entries : gmap string node) (z : string) (f : file)
    (names : list string) :
  (forall x, x ∈ names -> exists d, entries !! x = Some (Dir d)) ->
  (forall d, entries !! z <> Some (Dir d)) ->
  members_of (<[z := File f]> entries) names = members_of entries names.
Proof.
  intros Hdirs Hz. unfold members_of.
  induction names as [|x names IH]; [reflexivity|]. simpl.
  rewrite IH by (intros y Hy; apply Hdirs; now right). f_equal.
  destruct (Hdirs x) as [d Hd]; [left|].
  rewrite lookup_insert_ne; [reflexivity|].
  intros ->. now apply (Hz d).
Qed.

(** Zipping subdirectories of a folder into a file of the folder. *)
Lemma zipit_in_folder (folder : path) (z : string) (fs : node)
    (entries : gmap string node) (names : list string) :
  fs_lookup folder fs = Some (Dir entries) ->
  (forall d, entries !! z <> Some (Dir d)) ->
  (forall x, x ∈ names -> exists d, entries !! x = Some (Dir d)) ->
  exists fs',
    zipit (map (fun x => folder ++ [x]) names) (folder ++ [z]) fs = Ok fs' /\
    fs_lookup folder fs'
    = Some (Dir (<[z := File (ZipFile (members_of entries names))]> entries)).
Proof.
  intros Hfs Hz Hdirs. unfold zipit.
  destruct (write_file_in_folder folder z (ZipFile []) fs entries Hfs Hz)
    as (fs1 & -> & Hfs1). simpl.
  rewrite (zip_subfolders _ _ _ _ _ Hfs1). simpl.
  rewrite (members_of_insert_file _ _ _ _ Hdirs Hz).
  destruct (write_file_in_folder folder z (ZipFile (members_of entries names))
              fs1 _ Hfs1) as (fs2 & -> & Hfs2).
  { intros d. rewrite lookup_insert_eq. discriminate. }
  exists fs2. split; [reflexivity|]. now rewrite insert_insert_eq in Hfs2.
Qed.

Lemma foldr_collect {A B} (F : A -> list B -> list B) (g : A -> list B)
    (l : list A) :
  (forall a acc, F a acc = g a ++ acc) -> foldr F [] l = flat_map g l.
Proof.
  intros H. induction l as [|a l IH]; simpl; [reflexivity|].
  now rewrite H, IH.
Qed.

(** The walk of a directory in terms of its listing. *)
Lemma walk_Dir (entries : gmap string node) :
  walk (Dir entries)
  = flat_map (fun kv => match kv.2 with
                        | File f => [([kv.1], f)]
                        | Dir _ => []
                        end) (map_to_list entries)
    ++ flat_map (fun kv => match kv.2 with
                           | File _ => []
                           | Dir _ => map (fun '(q, f) => (kv.1 :: q, f))
                                          (walk kv.2)
                           end) (map_to_list entries).
Proof.
  unfold walk at 1. fold walk. rewrite !map_fold_foldr. f_equal.
  - apply foldr_collect. intros [x [f|d]] acc; reflexivity.
  - apply foldr_collect. intros [x [f|d]] acc; simpl; [reflexivity|].
    reflexivity.
Qed.

(** The walk finds every file below a directory. *)
Lemma walk_complete (q : path) (f : file) (entries : gmap string node) :
  fs_lookup q (Dir entries) = Some (File f) -> (q, f) ∈ walk (Dir entries).
Proof.
  revert entries. induction q as [|x q IH]; intros entries H.
  - discriminate.
  - simpl in H. destruct (entries !! x) as [m|] eqn:Hx; [|discriminate].
    simpl in H. rewrite walk_Dir. apply elem_of_app.
    apply elem_of_map_to_list in Hx.
    destruct q as [|y q'].
    + simpl in H. injection H as ->. left.
      apply list_elem_of_In, in_flat_map. exists (x, File f).
      split; [now apply list_elem_of_In | now left].
    + destruct m as [g|d]; [discriminate|]. right.
      apply list_elem_of_In, in_flat_map. exists (x, Dir d).
      split; [now apply list_elem_of_In|]. simpl.
      apply list_elem_of_In, list_elem_of_fmap. exists (y :: q', f).
      split; [reflexivity|]. now apply IH.
Qed.

Lemma members_of_complete (entries d : gmap string node) (names : list string)
    (x : string) (q : path) (f : file) :
  x ∈ names -> entries !! x = Some (Dir d) ->
  fs_lookup q (Dir d) = Some (File f) ->
  (x :: q, f) ∈ members_of entries names.
Proof.
  intros Hx Hd Hq. unfold members_of.
  apply list_elem_of_In, in_flat_map. exists x.
  split; [now apply list_elem_of_In|]. rewrite Hd.
  apply list_elem_of_In, list_elem_of_fmap. exists (q, f).
  split; [reflexivity|]. now apply walk_complete.
Qed.

(** The walk finds nothing but the files below a directory. *)
Lemma walk_sound (q : path) (f : file) (n : node) :
  (q, f) ∈ walk n -> fs_lookup q n = Some (File f).
Proof.
  revert n. induction q as [|x q IH]; intros [g|entries] H.
  - now apply elem_of_nil in H.
  - rewrite walk_Dir in H. apply elem_of_app in H as [H|H];
      apply list_elem_of_In, in_flat_map in H as ([y [g|d]] & _ & H);
      simpl in H; try (now destruct H).
    apply list_elem_of_In, list_elem_of_fmap in H as ([q' f'] & [=] & _).
  - now apply elem_of_nil in H.
  - rewrite walk_Dir in H. apply elem_of_app in H as [H|H];
      apply list_elem_of_In, in_flat_map in H as ([y [g|d]] & Hy & H);
      apply list_elem_of_In, elem_of_map_to_list in Hy;
      simpl in H; try (now destruct H).
    + destruct H as [H|[]]. inversion H; subst. simpl. now rewrite Hy.
    + apply list_elem_of_In, list_elem_of_fmap in H as ([q' f'] & H' & H).
      inversion H'; subst. simpl. rewrite Hy. simpl. now apply IH.
Qed.

Lemma members_of_sound (entries : gmap string node) (names : list string)
    (p : path) (f : file) :
  (p, f) ∈ members_of entries names ->
  exists x q d, p = x :: q /\ x ∈ names /\ entries !! x = Some (Dir d) /\
                fs_lookup q (Dir d) = Some (File f).
Proof.
  unfold members_of. intros H.
  apply list_elem_of_In, in_flat_map in H as (x & Hx & H).
  destruct (entries !! x) as [[g|d]|] eqn:E; try now destruct H.
  apply list_elem_of_In, list_elem_of_fmap in H as ([q f'] & H' & H).
  inversion H'; subst. exists x, q, d.
  split; [reflexivity|]. split; [now apply list_elem_of_In|].
  split; [exact E | now apply walk_sound].
Qed.

Lemma plain_files_lookup (entries : gmap string node) (x : string) :
  plain_files entries !! x
  = match entries !! x with
    | Some (File f) => Some (File f)
    | _ => None
    end.
Proof.
  unfold plain_files. destruct (entries !! x) as [[f|d]|] eqn:E.
  - now apply map_lookup_filter_Some.
  - apply map_lookup_filter_None. right. intros n Hn. simpl.
    rewrite E in Hn. now injection Hn as <-.
  - apply map_lookup_filter_None. now left.
Qed.

(** Zip and delete: in a folder whose archive name is not taken by a
    directory, the three steps succeed; they leave the plain files of the
    folder and the archive of its subdirectories. *)
Lemma archive_in_folder (folder : path) (z : string) (fs : node)
    (entries : gmap string node) :
  fs_lookup folder fs = Some (Dir entries) ->
  (forall d, entries !! z <> Some (Dir d)) ->
  exists fs',
    (dirs ← subfolders folder fs;
     fs ← zipit dirs (folder ++ [z]) fs;
     rmtree_all dirs fs) = Ok fs' /\
    fs_lookup folder fs'
    = Some (Dir (<[z := File (ZipFile (members_of entries
                                         (subfolder_names entries)))]>
                   (plain_files entries))).
Proof.
  intros Hfs Hz.
  rewrite (subfolders_in_folder _ _ _ Hfs). simpl.
  destruct (zipit_in_folder folder z fs entries (subfolder_names entries)
              Hfs Hz) as (fs1 & -> & Hfs1).
  { intros x. apply elem_of_subfolder_names. }
  simpl.
  destruct (rmtree_all_in_folder folder (subfolder_names entries)
              (NoDup_subfolder_names entries) fs1 _ Hfs1)
    as (fs2 & entries2 & -> & Hfs2 & Hlook).
  { intros x Hx. apply elem_of_subfolder_names in Hx as [d Hd].
    exists d. rewrite lookup_insert_ne; [assumption|].
    intros <-. now apply (Hz d). }
  exists fs2. split; [reflexivity|]. rewrite Hfs2. do 2 f_equal.
  apply map_eq. intros y. rewrite Hlook.
  destruct (decide (y = z)) as [->|Hne].
  - rewrite !lookup_insert_eq.
    destruct (decide (z ∈ subfolder_names entries)) as [Hin|]; [|reflexivity].
    apply elem_of_subfolder_names in Hin as [d Hd]. now destruct (Hz d).
  - rewrite !lookup_insert_ne by congruence. rewrite plain_files_lookup.
    destruct (decide (y ∈ subfolder_names entries)) as [Hin|Hout].
    + apply elem_of_subfolder_names in Hin as [d ->]. reflexivity.
    + destruct (entries !! y) as [[f|d]|] eqn:E; try reflexivity.
      destruct Hout. apply elem_of_subfolder_names. eauto.
Qed.

(** When the three steps succeed, the folder was a directory whose archive
    name was not taken by a directory. *)
Lemma archive_Ok_inv (folder : path) (z : string) (fs fs' : node) :
  (dirs ← subfolders folder fs;
   fs ← zipit dirs (folder ++ [z]) fs;
   rmtree_all dirs fs) = Ok fs' ->
  exists entries,
    fs_lookup folder fs = Some (Dir entries) /\
    forall d, entries !! z <> Some (Dir d).
Proof.
  intros H. apply bind_Ok in H as (dirs & Hdirs & H).
  destruct (subfolders_Ok_inv _ _ _ Hdirs) as [entries Hfs].
  exists entries. split; [assumption|].
  apply bind_Ok in H as (fs1 & Hzip & _).
  unfold zipit in Hzip. apply bind_Ok in Hzip as (fs0 & Hw & _).
  eapply write_file_Ok_inv; eassumption.
Qed.

(** What holds in the folder after zip and delete. *)
Lemma archive_post (folder : path) (z : string) (fs fs' : node) :
  (dirs ← subfolders folder fs;
   fs ← zipit dirs (folder ++ [z]) fs;
   rmtree_all dirs fs) = Ok fs' ->
  exists entries members,
    fs_lookup folder fs = Some (Dir entries) /\
    fs_lookup (folder ++ [z]) fs' = Some (File (ZipFile members)) /\
    (forall p f,
       (p, f) ∈ members <->
       exists x q d, p = x :: q /\ entries !! x = Some (Dir d) /\
                     fs_lookup q (Dir d) = Some (File f)) /\
    (forall x d, entries !! x = Some (Dir d) ->
                 fs_lookup (folder ++ [x]) fs' = None) /\
    (forall x f, x <> z -> entries !! x = Some (File f) ->
                 fs_lookup (folder ++ [x]) fs' = Some (File f)) /\
    (forall x n, x <> z -> fs_lookup (folder ++ [x]) fs' = Some n ->
                 entries !! x = Some n /\ is_dir n = false).
Proof.
  intros H. destruct (archive_Ok_inv _ _ _ _ H) as (entries & Hfs & Hz).
  destruct (archive_in_folder folder z fs entries Hfs Hz) as (fs2 & H2 & Hfs2).
  rewrite H in H2. injection H2 as <-.
  exists entries, (members_of entries (subfolder_names entries)).
  split; [assumption|].
  split; [rewrite (fs_lookup_entry _ _ _ _ Hfs2); apply lookup_insert_eq|].
  split; [|split; [|split]].
  - intros p f. split.
    + intros Hin. apply members_of_sound in Hin as (x & q & d & -> & _ & Hd & Hq).
      eauto 6.
    + intros (x & q & d & -> & Hd & Hq).
      apply (members_of_complete entries d); [|assumption..].
      apply elem_of_subfolder_names. eauto.
  - intros x d Hd. rewrite (fs_lookup_entry _ _ _ _ Hfs2).
    rewrite lookup_insert_ne by (intros <-; now apply (Hz d)).
    now rewrite plain_files_lookup, Hd.
  - intros x f Hne Hf. rewrite (fs_lookup_entry _ _ _ _ Hfs2).
    rewrite lookup_insert_ne by congruence.
    now rewrite plain_files_lookup, Hf.
  - intros x n Hne Hn. rewrite (fs_lookup_entry _ _ _ _ Hfs2) in Hn.
    rewrite lookup_insert_ne in Hn by congruence.
    rewrite plain_files_lookup in Hn.
    destruct (entries !! x) as [[f|d]|]; try discriminate.
    injection Hn as <-. auto.
Qed.

(** [os.makedirs] creates what is missing on the way to the new directory
    and keeps what the parent holds. *)
Lemma makedirs_with_Ok_inv (folder : path) (x : string)
    (tree : gmap string node) (fs fs' : node) :
  makedirs_with (folder ++ [x]) tree fs = Ok fs' ->
  exists entries,
    fs_lookup folder fs' = Some (Dir (<[x := Dir tree]> entries)) /\
    entries !! x = None /\
    (fs_lookup folder fs = Some (Dir entries) \/
     fs_lookup folder fs = None /\ entries = ∅).
Proof.
  revert fs fs'. induction folder as [|y folder IH]; intros fs fs' H.
  - destruct fs as [f|top]; [discriminate|]. simpl in H.
    destruct (top !! x) eqn:Hx; [discriminate|]. injection H as <-.
    exists top. simpl. auto.
  - destruct fs as [f|top]; [discriminate|].
    assert (Hstep : makedirs_with ((y :: folder) ++ [x]) tree (Dir top)
                    = m' ← makedirs_with (folder ++ [x]) tree
                           (default (Dir ∅) (top !! y));
                      Ok (Dir (<[y := m']> top))).
    { simpl. destruct (folder ++ [x]) eqn:E; [|reflexivity].
      destruct folder; discriminate. }
    rewrite Hstep in H. apply bind_Ok in H as (m' & Hm' & H).
    injection H as <-.
    destruct (IH _ _ Hm') as (entries & Hlook & Hx & Hbefore).
    simpl. rewrite lookup_insert_eq. simpl.
    destruct (top !! y) as [m|] eqn:Hy; simpl in *.
    + exists entries. auto.
    + exists entries. split; [assumption|]. split; [assumption|]. right.
      split; [reflexivity|].
      destruct Hbefore as [Hb|[_ Hb]]; [|assumption].
      destruct folder as [|w folder]; simpl in Hb.
      * now injection Hb as <-.
      * rewrite lookup_empty in Hb. discriminate.
Qed.

(** ** The code archival *)

(** The claim C5 as it is written fails for [save_task_code]: it does not
    copy.  The task code is installed, the call completes, and the archive
    does not hold the file [task.py] of the task. *)
Lemma save_task_code_copies_counterexample :
  ~ (forall (sph : session_folders) (fs fs' : node),
       Iotasks.save_task_code sph fs = Ok fs' ->
       forall tree q f,
         fs_lookup (IBLRIG_PARAMS_FOLDER sph
                    ++ ["IBL"; "tasks"; PYBPOD_PROTOCOL sph]) fs
         = Some (Dir tree) ->
         fs_lookup q (Dir tree) = Some (File f) ->
         exists members,
           fs_lookup (SESSION_RAW_DATA_FOLDER sph
                      ++ ["_iblrig_taskCodeFiles.raw.zip"]) fs'
           = Some (File (ZipFile members)) /\
           (PYBPOD_PROTOCOL sph :: q, f) ∈ members).
Proof.
  intros H.
  destruct (Iotasks.save_task_code Sample.folders Sample.disk) as [fs'|e] eqn:E;
    [|vm_compute in E; discriminate].
  destruct (H Sample.folders Sample.disk fs' E Sample.task_code ["task.py"]
              (Bytes "sma.add_state") eq_refl eq_refl) as (members & Hm & Hin).
  vm_compute in E. injection E as <-.
  vm_compute in Hm. injection Hm as <-.
  apply list_elem_of_singleton in Hin. discriminate Hin.
Qed.

(** C5, amended.  [_save_task_code] copies the task code into the session
    raw data folder, zips and deletes, in that order; [save_task_code] zips
    and deletes only, the copy being the separate function
    [copy_task_code].  After either completes, the archive
    ([_iblrig_codeFiles.raw.zip], resp. [_iblrig_taskCodeFiles.raw.zip])
    exists in the session raw data folder, its members are the files of the
    subdirectories that the folder had when the zip began (for
    [_save_task_code] the copied task code is one of them), and every one
    of those subdirectories has been removed.  [save_task_code] completes
    whenever the folder is a directory in which no directory has the name
    of the archive. *)
Theorem code_archival (sph : session_folders) (fs : node) :
  (forall fs', Iotasks.save_task_code sph fs = Ok fs' ->
     exists entries members,
       fs_lookup (SESSION_RAW_DATA_FOLDER sph) fs = Some (Dir entries) /\
       fs_lookup (SESSION_RAW_DATA_FOLDER sph
                  ++ ["_iblrig_taskCodeFiles.raw.zip"]) fs'
       = Some (File (ZipFile members)) /\
       (forall p f,
          (p, f) ∈ members <->
          exists x q d, p = x :: q /\ entries !! x = Some (Dir d) /\
                        fs_lookup q (Dir d) = Some (File f)) /\
       (forall x d, entries !! x = Some (Dir d) ->
          fs_lookup (SESSION_RAW_DATA_FOLDER sph ++ [x]) fs' = None)) /\
  (forall entries,
     fs_lookup (SESSION_RAW_DATA_FOLDER sph) fs = Some (Dir entries) ->
     (forall d, entries !! "_iblrig_taskCodeFiles.raw.zip" <> Some (Dir d)) ->
     exists fs', Iotasks.save_task_code sph fs = Ok fs') /\
  (forall fs', SessionParams._save_task_code sph fs = Ok fs' ->
     exists tree before members,
       fs_lookup (IBLRIG_PARAMS_FOLDER sph
                  ++ ["IBL"; "tasks"; PYBPOD_PROTOCOL sph]) fs
       = Some (Dir tree) /\
       (fs_lookup (SESSION_RAW_DATA_FOLDER sph) fs = Some (Dir before) \/
        fs_lookup (SESSION_RAW_DATA_FOLDER sph) fs = None /\ before = ∅) /\
       before !! PYBPOD_PROTOCOL sph = None /\
       fs_lookup (SESSION_RAW_DATA_FOLDER sph ++ ["_iblrig_codeFiles.raw.zip"]) fs'
       = Some (File (ZipFile members)) /\
       (forall p f,
          (p, f) ∈ members <->
          exists x q d,
            p = x :: q /\
            <[PYBPOD_PROTOCOL sph := Dir tree]> before !! x = Some (Dir d) /\
            fs_lookup q (Dir d) = Some (File f)) /\
       (forall x d,
          <[PYBPOD_PROTOCOL sph := Dir tree]> before !! x = Some (Dir d) ->
          fs_lookup (SESSION_RAW_DATA_FOLDER sph ++ [x]) fs' = None)).
Proof.
  split; [|split].
  - intros fs' H. unfold Iotasks.save_task_code in H.
    destruct (archive_post _ _ _ _ H)
      as (entries & members & Hfs & Hzip & Hmem & Hrm & _).
    exists entries, members. auto.
  - intros entries Hfs Hz. unfold Iotasks.save_task_code.
    destruct (archive_in_folder _ _ _ _ Hfs Hz) as (fs' & H & _). eauto.
  - intros fs' H. unfold SessionParams._save_task_code in H.
    apply bind_Ok in H as (fs1 & Hcopy & H).
    unfold copytree in Hcopy.
    destruct (fs_lookup (IBLRIG_PARAMS_FOLDER sph ++ _) fs)
      as [[f|tree]|] eqn:Hsrc; try discriminate.
    destruct (makedirs_with_Ok_inv _ _ _ _ _ Hcopy)
      as (before & Hfs1 & Hnew & Hbefore).
    destruct (archive_post _ _ _ _ H)
      as (entries & members & Hfs & Hzip & Hmem & Hrm & _).
    rewrite Hfs1 in Hfs. injection Hfs as <-.
    exists tree, before, members. auto 10.
Qed.

Lemma code_archival_witness :
  (exists fs', Iotasks.save_task_code Sample.folders Sample.disk = Ok fs') /\
  (exists fs' members,
     SessionParams._save_task_code Sample.folders Sample.disk = Ok fs' /\
     fs_lookup ["data"; "raw_behavior_data"; "_iblrig_codeFiles.raw.zip"] fs'
     = Some (File (ZipFile members)) /\
     (["habituation"; "task.py"], Bytes "sma.add_state") ∈ members /\
     fs_lookup ["data"; "raw_behavior_data"; "habituation"] fs' = None).
Proof.
  split.
  - destruct (code_archival Sample.folders Sample.disk) as (_ & Htotal & _).
    apply (Htotal Sample.raw_folder); [reflexivity|].
    intros d. vm_compute. discriminate.
  - destruct (SessionParams._save_task_code Sample.folders Sample.disk)
      as [fs'|e] eqn:E; [|vm_compute in E; discriminate].
    destruct (code_archival Sample.folders Sample.disk) as (_ & _ & Hpost).
    destruct (Hpost fs' E)
      as (tree & before & members & Hsrc & Hbefore & Hnew & Hzip & Hmem & Hrm).
    vm_compute in Hsrc. injection Hsrc as <-.
    destruct Hbefore as [Hb|[Hb _]]; [|vm_compute in Hb; discriminate].
    vm_compute in Hb. injection Hb as <-.
    exists fs', members. split; [reflexivity|]. split; [exact Hzip|]. split.
    + apply Hmem. exists "habituation", ["task.py"], Sample.task_code.
      split; [reflexivity|]. split; reflexivity.
    + apply (Hrm "habituation" Sample.task_code). reflexivity.
Defined.

(** The claim C6 as it is written fails for a plain file that already has
    the name of the archive: opening the archive for writing replaces it. *)
Lemma save_task_code_keeps_files_counterexample :
  ~ (forall (sph : session_folders) (fs fs' : node),
       Iotasks.save_task_code sph fs = Ok fs' ->
       forall x f,
         fs_lookup (SESSION_RAW_DATA_FOLDER sph ++ [x]) fs = Some (File f) ->
         fs_lookup (SESSION_RAW_DATA_FOLDER sph ++ [x]) fs' = Some (File f)).
Proof.
  intros H.
  destruct (Iotasks.save_task_code Sample.folders Sample.disk) as [fs'|e] eqn:E;
    [|vm_compute in E; discriminate].
  pose proof (H Sample.folders Sample.disk fs' E
                "_iblrig_taskCodeFiles.raw.zip" (Bytes "earlier run") eq_refl)
    as Hkept.
  vm_compute in E. injection E as <-.
  vm_compute in Hkept. discriminate Hkept.
Qed.

(** C6, amended.  [save_task_code] removes only the source trees: every
    plain file of the session raw data folder whose name is not that of the
    archive is unchanged, and every entry of the folder after the call,
    other than the archive, is a plain file that was there before.  A plain
    file that has the name of the archive is replaced by the new archive. *)
Theorem save_task_code_frame (sph : session_folders) (fs fs' : node) :
  Iotasks.save_task_code sph fs = Ok fs' ->
  (forall x f,
     x <> "_iblrig_taskCodeFiles.raw.zip" ->
     fs_lookup (SESSION_RAW_DATA_FOLDER sph ++ [x]) fs = Some (File f) ->
     fs_lookup (SESSION_RAW_DATA_FOLDER sph ++ [x]) fs' = Some (File f)) /\
  (forall x n,
     x <> "_iblrig_taskCodeFiles.raw.zip" ->
     fs_lookup (SESSION_RAW_DATA_FOLDER sph ++ [x]) fs' = Some n ->
     fs_lookup (SESSION_RAW_DATA_FOLDER sph ++ [x]) fs = Some n /\
     is_dir n = false) /\
  (exists members,
     fs_lookup (SESSION_RAW_DATA_FOLDER sph
                ++ ["_iblrig_taskCodeFiles.raw.zip"]) fs'
     = Some (File (ZipFile members))).
Proof.
  intros H. unfold Iotasks.save_task_code in H.
  destruct (archive_post _ _ _ _ H)
    as (entries & members & Hfs & Hzip & _ & _ & Hkeep & Hnew).
  split; [|split].
  - intros x f Hne Hf. rewrite (fs_lookup_entry _ _ _ _ Hfs) in Hf. auto.
  - intros x n Hne Hn. rewrite (fs_lookup_entry _ _ _ _ Hfs). auto.
  - eauto.
Qed.

Lemma save_task_code_frame_witness :
  exists fs',
    Iotasks.save_task_code Sample.folders Sample.disk = Ok fs' /\
    fs_lookup ["data"; "raw_behavior_data"; "_iblrig_taskData.raw.jsonable"] fs'
    = Some (File (Bytes "trial 1")).
Proof.
  destruct (Iotasks.save_task_code Sample.folders Sample.disk) as [fs'|e] eqn:E;
    [|vm_compute in E; discriminate].
  exists fs'. split; [reflexivity|].
  destruct (save_task_code_frame Sample.folders Sample.disk fs' E) as (Hkeep & _).
  apply (Hkeep "_iblrig_taskData.raw.jsonable" (Bytes "trial 1"));
    [discriminate | reflexivity].
Defined.

(** The pipeline of [iotasks.py]: when [copy_task_code] has run before
    [save_task_code], the archive holds the task code. *)
Lemma copy_then_save_task_code (sph : session_folders) (fs fs1 fs' : node)
    (tree : gmap string node) (q : path) (f : file) :
  Iotasks.copy_task_code sph fs = Ok fs1 ->
  Iotasks.save_task_code sph fs1 = Ok fs' ->
  fs_lookup (IBLRIG_PARAMS_FOLDER sph ++ ["IBL"; "tasks"; PYBPOD_PROTOCOL sph]) fs
  = Some (Dir tree) ->
  fs_lookup q (Dir tree) = Some (File f) ->
  exists members,
    fs_lookup (SESSION_RAW_DATA_FOLDER sph ++ ["_iblrig_taskCodeFiles.raw.zip"]) fs'
    = Some (File (ZipFile members)) /\
    (PYBPOD_PROTOCOL sph :: q, f) ∈ members /\
    fs_lookup (SESSION_RAW_DATA_FOLDER sph ++ [PYBPOD_PROTOCOL sph]) fs' = None.
Proof.
  intros Hcopy Hsave Hsrc Hq. unfold Iotasks.copy_task_code in Hcopy.
  apply bind_Ok in Hcopy as (fs0 & Hc1 & Hc2).
  unfold copytree in Hc1, Hc2. rewrite Hsrc in Hc1.
  destruct (fs_lookup (VISUAL_STIM_FOLDER sph ++ _) fs0)
    as [[g|stim]|]; try discriminate.
  destruct (makedirs_with_Ok_inv _ _ _ _ _ Hc1) as (before & Hfs0 & _ & _).
  destruct (makedirs_with_Ok_inv _ _ _ _ _ Hc2)
    as (entries & Hfs1 & Hnew & Hbefore).
  rewrite Hfs0 in Hbefore.
  destruct Hbefore as [[= <-]|[[=] _]].
  unfold Iotasks.save_task_code in Hsave.
  destruct (archive_post _ _ _ _ Hsave)
    as (now_ & members & Hnow & Hzip & Hmem & Hrm & _).
  rewrite Hfs1 in Hnow. injection Hnow as <-.
  assert (Hproto : <[VISUAL_STIMULUS_TYPE sph := Dir stim]>
                     (<[PYBPOD_PROTOCOL sph := Dir tree]> before)
                   !! PYBPOD_PROTOCOL sph = Some (Dir tree)).
  { rewrite lookup_insert_ne; [apply lookup_insert_eq|].
    intros E. rewrite E, lookup_insert_eq in Hnew. discriminate. }
  exists members. split; [assumption|]. split.
  - apply Hmem. eauto 6.
  - now apply (Hrm _ tree).
Qed.

(** ** The settings file *)

Lemma string_app_assoc (a b c : string) : (a +:+ b) +:+ c = a +:+ (b +:+ c).
Proof.
  induction a as [|x a IH]; [reflexivity|].
  change (String x ((a +:+ b) +:+ c) = String x (a +:+ (b +:+ c))).
  now f_equal.
Qed.

(** The settings file is written in append mode: after the call it holds
    what it held, the serialized object and a line end, whether the call
    returns or raises. *)
Lemma save_session_settings_appends (json_parse : string -> option value)
    (session : Type) (dumps : session -> result string)
    (load_settings : option string -> result value)
    (py_eq : value -> value -> bool) (sph : session) (file : option string)
    (save_this : string) :
  dumps sph = Ok save_this ->
  (Iotasks.save_session_settings json_parse session dumps load_settings py_eq
     sph file).2
  = Some (default EmptyString file +:+ save_this +:+ newline).
Proof.
  intros H. unfold Iotasks.save_session_settings. rewrite H. simpl.
  unfold Iotasks.append_text. simpl. f_equal.
  now rewrite string_app_assoc.
Qed.

(** The outcome of the call is the outcome of loading the text that the
    file holds afterwards and of comparing it with the object. *)
Lemma save_session_settings_outcome (json_parse : string -> option value)
    (session : Type) (dumps : session -> result string)
    (load_settings : option string -> result value)
    (py_eq : value -> value -> bool) (sph : session) (file : option string)
    (save_this : string) (parsed : value) :
  dumps sph = Ok save_this ->
  json_parse save_this = Some parsed ->
  (Iotasks.save_session_settings json_parse session dumps load_settings py_eq
     sph file).1
  = match load_settings
            (Some (default EmptyString file +:+ save_this +:+ newline)) with
    | Ok settings =>
        if py_eq parsed settings then Ok tt else Raise AssertionError
    | Raise e => Raise e
    end.
Proof.
  intros Hd Hp. unfold Iotasks.save_session_settings, loads.
  rewrite Hd, Hp. simpl. unfold Iotasks.append_text. simpl.
  now rewrite string_app_assoc.
Qed.

(** C7, at the failing input.  The first call for a session writes the
    settings file and its assertion holds; a second call for the same
    session adds a second document to the file, the settings can no longer
    be loaded, and the call raises instead of returning. *)
Theorem save_session_settings_twice :
  Iotasks.save_session_settings Sample.braces_json unit Sample.dumps_braces
    Sample.load_settings Sample.eq_dict tt None
  = (Ok tt, Some ("{}" +:+ newline)) /\
  Iotasks.save_session_settings Sample.braces_json unit Sample.dumps_braces
    Sample.load_settings Sample.eq_dict tt (Some ("{}" +:+ newline))
  = (Raise JSONDecodeError, Some ("{}" +:+ newline +:+ "{}" +:+ newline)).
Proof. split; reflexivity. Qed.

(** * Further properties *)

(** ** Loading the record of the previous session *)

Lemma read_trials_bad_line (json_parse : string -> option value)
    (lines : list string) (line : string) (trial_data : list value) :
  line ∈ lines -> json_parse line = None ->
  SessionParams.read_trials json_parse lines trial_data = Raise JSONDecodeError.
Proof.
  intros Hin Hbad. revert trial_data.
  induction lines as [|l lines IH]; intros trial_data.
  - now apply elem_of_nil in Hin.
  - simpl. unfold loads at 1.
    destruct (json_parse l) as [v|] eqn:E; simpl; [|reflexivity].
    apply IH. apply elem_of_cons in Hin as [->|Hin]; [congruence | assumption].
Qed.

(** X1.  When there is a data file of a previous session, [_load_last_trial]
    never returns [None]: on an empty file it raises [IndexError] (the
    [print] reads record [i] before the test for an empty list), and a
    record that it returns is a dictionary with the keys that the [print]
    reads. *)
Theorem load_last_trial_with_file
    (json_parse : string -> option value)
    (open_lines : string -> result (list string))
    (self : SessionParams.session_param_handler) (p : string) (i : Z) :
  SessionParams.PREVIOUS_DATA_FILE self = Some p ->
  (open_lines p = Ok [] ->
   SessionParams._load_last_trial json_parse open_lines self i
   = Raise IndexError) /\
  (forall v,
     SessionParams._load_last_trial json_parse open_lines self i = Ok v ->
     exists d ac,
       v = VDict d /\
       is_Some (d !! "trial_num") /\ is_Some (d !! "non_rc_ntrials") /\
       is_Some (d !! "reward_amount") /\ is_Some (d !! "stim_gain") /\
       d !! "ac" = Some (VDict ac) /\
       is_Some (ac !! "contrast_set") /\ is_Some (ac !! "buffer")).
Proof.
  intros Hfile. unfold SessionParams._load_last_trial. rewrite Hfile. split.
  - intros ->. simpl. unfold SessionParams.print_previous_session.
    now rewrite list_getitem_nil.
  - intros v H.
    apply bind_Ok in H as (lines & _ & H).
    apply bind_Ok in H as (trial_data & _ & H).
    apply bind_Ok in H as ([] & Hprint & H).
    unfold SessionParams.print_previous_session in Hprint.
    apply bind_Ok in Hprint as (t & Ht & Hprint). rewrite !Ht in Hprint.
    simpl in Hprint.
    apply bind_Ok in Hprint as (x1 & H1 & Hprint).
    apply bind_Ok in Hprint as (x2 & H2 & Hprint).
    apply bind_Ok in Hprint as (x3 & H3 & Hprint).
    apply bind_Ok in Hprint as (x4 & H4 & Hprint).
    apply bind_Ok in Hprint as (a1 & H5 & Hprint).
    apply bind_Ok in Hprint as (x5 & H6 & Hprint).
    rewrite H5 in Hprint. simpl in Hprint.
    apply bind_Ok in Hprint as (x6 & H7 & _).
    destruct trial_data as [|r rest].
    { rewrite list_getitem_nil in Ht. discriminate. }
    rewrite Ht in H. injection H as <-.
    apply getitem_Ok in H1 as (d & -> & Hd1).
    apply getitem_Ok in H2 as (d2 & [= <-] & Hd2).
    apply getitem_Ok in H3 as (d3 & [= <-] & Hd3).
    apply getitem_Ok in H4 as (d4 & [= <-] & Hd4).
    apply getitem_Ok in H5 as (d5 & [= <-] & Hd5).
    apply getitem_Ok in H6 as (ac & -> & Ha1).
    apply getitem_Ok in H7 as (ac' & [= <-] & Ha2).
    exists d, ac. rewrite Hd1, Hd2, Hd3, Hd4, Ha1, Ha2. eauto 10.
Qed.

Lemma load_last_trial_with_file_witness :
  SessionParams._load_last_trial Sample.data_json Cases.data_files
    (Sample.session false (Some "empty.jsonable") VNone) (-1)
  = Raise IndexError /\
  exists d ac,
    VDict (Sample.full_record 250) = VDict d /\
    is_Some (d !! "trial_num") /\ is_Some (d !! "non_rc_ntrials") /\
    is_Some (d !! "reward_amount") /\ is_Some (d !! "stim_gain") /\
    d !! "ac" = Some (VDict ac) /\
    is_Some (ac !! "contrast_set") /\ is_Some (ac !! "buffer").
Proof.
  split.
  - destruct (load_last_trial_with_file Sample.data_json Cases.data_files
                (Sample.session false (Some "empty.jsonable") VNone)
                "empty.jsonable" (-1) eq_refl) as [Hempty _].
    apply Hempty. reflexivity.
  - destruct (load_last_trial_with_file Sample.data_json Cases.data_files
                (Sample.session false (Some "data.jsonable") VNone)
                "data.jsonable" (-1) eq_refl) as [_ Hrecord].
    apply Hrecord. reflexivity.
Defined.

(** ** The adaptive rules outside the cases of the design *)

Lemma getitem_Raise (v : value) (k : string) (e : exn) :
  getitem v k = Raise e -> e = KeyError \/ e = TypeError.
Proof.
  destruct v; simpl; try (intros [= <-]; auto).
  destruct (d !! k); [discriminate | intros [= <-]; auto].
Qed.

Lemma py_ge_Raise (v : value) (n : Z) (e : exn) :
  py_ge v n = Raise e -> e = TypeError.
Proof.
  unfold py_ge. destruct (as_number v); [discriminate | now intros [= <-]].
Qed.

(** X2.  [_init_reward] never uses [CALIBRATION_VALUE]: the operations in
    its [try] block raise [KeyError], [TypeError] or [ZeroDivisionError],
    none of which [except IOError] catches, so the result is the same for
    every calibration value of the session. *)
Theorem init_reward_ignores_calibration
    (truediv : value -> value -> result value)
    (self : SessionParams.session_param_handler) (calibration : value) :
  (forall x y e, truediv x y = Raise e -> is_IOError e = false) ->
  SessionParams._init_reward truediv
    (SessionParams.set_CALIBRATION_VALUE calibration self)
  = SessionParams._init_reward truediv self.
Proof.
  intros Hdiv. unfold SessionParams._init_reward. simpl.
  destruct (negb _); [reflexivity|].
  destruct (SessionParams.LAST_TRIAL_DATA self) as [| | | | | |d] eqn:E;
    try reflexivity.
  simpl. destruct (d !! "reward_valve_time") as [a|]; [|reflexivity].
  simpl. destruct (d !! "reward_calibration") as [b|]; [|reflexivity].
  simpl. unfold try_except_IOError.
  destruct (truediv a b) as [q|e] eqn:Ediv; [reflexivity|].
  now rewrite (Hdiv _ _ _ Ediv).
Qed.

Lemma init_reward_ignores_calibration_witness :
  SessionParams._init_reward SessionParams.exact_truediv
    (SessionParams.set_CALIBRATION_VALUE (VInt 0)
       (Sample.session true (Some "data.jsonable")
          (VDict Sample.long_record)))
  = SessionParams._init_reward SessionParams.exact_truediv
      (Sample.session true (Some "data.jsonable") (VDict Sample.long_record)).
Proof.
  apply (init_reward_ignores_calibration SessionParams.exact_truediv
           (Sample.session true (Some "data.jsonable")
              (VDict Sample.long_record))
           (VInt 0) exact_truediv_not_IOError).
Defined.

(** X3.  [_init_stim_gain] returns one of the three configured gains and
    nothing else.  It raises only when the gain is adaptive and the record
    is not empty: [KeyError] for a dictionary without [trial_num], and
    [TypeError] for a [trial_num] that is not a number or a record that is
    not a dictionary. *)
Theorem init_stim_gain_outcomes (self : SessionParams.session_param_handler) :
  (forall v, SessionParams._init_stim_gain self = Ok v ->
     v = SessionParams.STIM_GAIN self \/
     v = SessionParams.AG_MIN_VALUE self \/
     v = SessionParams.AG_INIT_VALUE self) /\
  (forall e, SessionParams._init_stim_gain self = Raise e ->
     truthy (SessionParams.ADAPTIVE_GAIN self) = true /\
     truthy (SessionParams.LAST_TRIAL_DATA self) = true /\
     (e = KeyError /\
      (exists d, SessionParams.LAST_TRIAL_DATA self = VDict d /\
                 d !! "trial_num" = None) \/
      e = TypeError /\
      ((exists d n, SessionParams.LAST_TRIAL_DATA self = VDict d /\
                    d !! "trial_num" = Some n /\ as_number n = None) \/
       forall d, SessionParams.LAST_TRIAL_DATA self <> VDict d))).
Proof.
  unfold SessionParams._init_stim_gain.
  destruct (truthy (SessionParams.ADAPTIVE_GAIN self)); simpl;
    [|split; [intros v [= <-]; auto | discriminate]].
  destruct (truthy (SessionParams.LAST_TRIAL_DATA self)) eqn:Hlast; simpl;
    [|split; [intros v [= <-]; auto | discriminate]].
  destruct (SessionParams.LAST_TRIAL_DATA self) as [| | | | | |d] eqn:E; simpl;
    try (split; [discriminate|]; intros e [= <-]; repeat split;
         right; split; [reflexivity|]; right; discriminate).
  destruct (d !! "trial_num") as [n|] eqn:En; simpl.
  - unfold py_ge. destruct (as_number n) as [q|] eqn:Eq; simpl.
    + destruct (Qle_bool _ _); (split; [intros v [= <-]; auto | discriminate]).
    + split; [discriminate|]. intros e [= <-]. repeat split.
      right. split; [reflexivity|]. left. eauto.
  - split; [discriminate|]. intros e [= <-]. repeat split.
    left. split; [reflexivity|]. eauto.
Qed.

Lemma init_stim_gain_outcomes_witness :
  (VInt 4 = VInt 4 \/ VInt 4 = VInt 4 \/ VInt 4 = VInt 8) /\
  truthy (VBool true) = true /\
  truthy (VDict {["reward_amount" := VInt 3]}) = true.
Proof.
  split.
  - destruct (init_stim_gain_outcomes
                (Sample.session true (Some "data.jsonable")
                   (VDict Sample.long_record))) as [Hok _].
    exact (Hok (VInt 4) eq_refl).
  - destruct (init_stim_gain_outcomes
                (Sample.session true None
                   (VDict {["reward_amount" := VInt 3]}))) as [_ Herr].
    destruct (Herr KeyError eq_refl) as (Hgain & Hlast & _).
    split; [exact Hgain | exact Hlast].
Defined.

(** X4.  The constructor loads the record of the previous session before it
    looks at the adaptive flags: when the data file cannot be opened, holds
    a line that is not JSON, or is empty, the three steps raise, whatever
    [ADAPTIVE_REWARD] and [ADAPTIVE_GAIN] are. *)
Theorem init_adaptive_needs_data_file
    (json_parse : string -> option value)
    (open_lines : string -> result (list string))
    (truediv : value -> value -> result value)
    (self : SessionParams.session_param_handler) (p : string) :
  SessionParams.PREVIOUS_DATA_FILE self = Some p ->
  (forall e, open_lines p = Raise e ->
     SessionParams.init_adaptive json_parse open_lines truediv self
     = Raise e) /\
  (forall lines line,
     open_lines p = Ok lines -> line ∈ lines -> json_parse line = None ->
     SessionParams.init_adaptive json_parse open_lines truediv self
     = Raise JSONDecodeError) /\
  (open_lines p = Ok [] ->
   SessionParams.init_adaptive json_parse open_lines truediv self
   = Raise IndexError).
Proof.
  intros Hfile.
  unfold SessionParams.init_adaptive, SessionParams._load_last_trial.
  rewrite Hfile. repeat split.
  - now intros e ->.
  - intros lines line -> Hin Hbad. simpl.
    now rewrite (read_trials_bad_line _ _ _ _ Hin Hbad).
  - intros ->. reflexivity.
Qed.

Lemma init_adaptive_needs_data_file_witness :
  SessionParams.init_adaptive Sample.data_json Cases.data_files
    SessionParams.exact_truediv
    (Sample.session false (Some "missing.jsonable") VNone)
  = Raise FileNotFoundError /\
  SessionParams.init_adaptive Sample.data_json Cases.data_files
    SessionParams.exact_truediv
    (Sample.session false (Some "broken.jsonable") VNone)
  = Raise JSONDecodeError /\
  SessionParams.init_adaptive Sample.data_json Cases.data_files
    SessionParams.exact_truediv
    (Sample.session false (Some "empty.jsonable") VNone)
  = Raise IndexError.
Proof.
  split; [|split].
  - destruct (init_adaptive_needs_data_file Sample.data_json Cases.data_files
                SessionParams.exact_truediv
                (Sample.session false (Some "missing.jsonable") VNone)
                "missing.jsonable" eq_refl) as (Hopen & _).
    apply Hopen. reflexivity.
  - destruct (init_adaptive_needs_data_file Sample.data_json Cases.data_files
                SessionParams.exact_truediv
                (Sample.session false (Some "broken.jsonable") VNone)
                "broken.jsonable" eq_refl) as (_ & Hline & _).
    apply (Hline ["trial 249"; "tri"] "tri"); [reflexivity | | reflexivity].
    apply elem_of_cons. right. apply elem_of_cons. now left.
  - destruct (init_adaptive_needs_data_file Sample.data_json Cases.data_files
                SessionParams.exact_truediv
                (Sample.session false (Some "empty.jsonable") VNone)
                "empty.jsonable" eq_refl) as (_ & _ & Hempty).
    apply Hempty. reflexivity.
Defined.

(** ** The rotary encoder at its edges *)

(** X5.  The constructor of [MyRotaryEncoder] raises [ZeroDivisionError]
    for a gain that is zero, whatever the thresholds are.  It raises nothing
    but [ZeroDivisionError], when the product (62*pi/360)*gain is zero, and
    [OverflowError], when the gain or a threshold is an [int] too large for
    a float; a gain that is too large raises before the thresholds are
    looked at. *)
Theorem rotary_encoder_errors (thresholds : list RotaryEncoder.number)
    (gain : RotaryEncoder.number) :
  (forall g,
     RotaryEncoder.to_float gain = RotaryEncoder.Returns g ->
     (g =? 0)%float = true ->
     RotaryEncoder.__init__ thresholds gain
     = RotaryEncoder.Raises (RotaryEncoder.Exn ZeroDivisionError)) /\
  (RotaryEncoder.to_float gain
   = RotaryEncoder.Raises RotaryEncoder.OverflowError ->
   RotaryEncoder.__init__ thresholds gain
   = RotaryEncoder.Raises RotaryEncoder.OverflowError) /\
  (forall r,
     RotaryEncoder.__init__ thresholds gain = RotaryEncoder.Raises r ->
     r = RotaryEncoder.Exn ZeroDivisionError /\
     (exists g,
        RotaryEncoder.to_float gain = RotaryEncoder.Returns g /\
        (62 * RotaryEncoder.pi / 360 * g =? 0)%float = true) \/
     r = RotaryEncoder.OverflowError /\
     (RotaryEncoder.to_float gain
      = RotaryEncoder.Raises RotaryEncoder.OverflowError \/
      exists x, x ∈ thresholds /\
                RotaryEncoder.to_float x
                = RotaryEncoder.Raises RotaryEncoder.OverflowError)).
Proof.
  rewrite rotary_encoder_init_eq. split; [|split].
  - intros g -> Hzero.
    change (RotaryEncoder.Returns g ≫= ?f) with (f g). cbv beta.
    unfold RotaryEncoder.truediv.
    rewrite (float_mul_zero (62 * RotaryEncoder.pi / 360) g eq_refl Hzero).
    reflexivity.
  - now intros ->.
  - intros r H.
    destruct (RotaryEncoder.to_float gain) as [g|r'] eqn:Hg; simpl in H.
    + unfold RotaryEncoder.truediv in H.
      destruct (_ =? 0)%float eqn:Hz; simpl in H.
      * injection H as <-. left. eauto.
      * destruct (RotaryEncoder.scale _ thresholds) as [set|r''] eqn:Hs;
          simpl in H; [discriminate|].
        injection H as <-. destruct (scale_Raises _ _ _ Hs) as [-> Hx].
        right. auto.
    + injection H as <-. destruct (to_float_Raises _ _ Hg) as [-> _].
      right. auto.
Qed.

Lemma rotary_encoder_errors_witness :
  RotaryEncoder.__init__ [RotaryEncoder.Int (-35); RotaryEncoder.Int 35]
    (RotaryEncoder.Int 0)
  = RotaryEncoder.Raises (RotaryEncoder.Exn ZeroDivisionError) /\
  RotaryEncoder.__init__ [RotaryEncoder.Int (-35); RotaryEncoder.Int 35]
    (RotaryEncoder.Int (10 ^ 400))
  = RotaryEncoder.Raises RotaryEncoder.OverflowError.
Proof.
  split.
  - destruct (rotary_encoder_errors
                [RotaryEncoder.Int (-35); RotaryEncoder.Int 35]
                (RotaryEncoder.Int 0)) as (H & _).
    apply (H 0%float); reflexivity.
  - destruct (rotary_encoder_errors
                [RotaryEncoder.Int (-35); RotaryEncoder.Int 35]
                (RotaryEncoder.Int (10 ^ 400))) as (_ & H & _).
    apply H. reflexivity.
Defined.

(** X6.  A threshold that is zero is disabled whenever the factor is finite:
    its entry of [ENABLE_THRESHOLDS] is [False], and so are the entries that
    pad the list to 8.  The flags follow the scaled thresholds, not the
    input: [all_thresholds] keeps the input as it was given. *)
Theorem rotary_encoder_disables_zero_thresholds
    (thresholds : list RotaryEncoder.number) (gain : RotaryEncoder.number)
    (re : RotaryEncoder.MyRotaryEncoder) :
  RotaryEncoder.__init__ thresholds gain = RotaryEncoder.Returns re ->
  RotaryEncoder.all_thresholds re = thresholds /\
  (is_finite (RotaryEncoder.factor re) = true ->
   forall (i : nat) (x : RotaryEncoder.number) (xf : float),
     thresholds !! i = Some x ->
     RotaryEncoder.to_float x = RotaryEncoder.Returns xf ->
     (xf =? 0)%float = true ->
     RotaryEncoder.ENABLE_THRESHOLDS re !! i = Some false) /\
  RotaryEncoder.ENABLE_THRESHOLDS re
  = map (fun y => negb (y =? 0)%float) (RotaryEncoder.SET_THRESHOLDS re)
    ++ replicate (8 - length thresholds) false.
Proof.
  rewrite rotary_encoder_init_eq. intros H.
  apply outcome_bind_Returns in H as (g & Hg & H).
  apply outcome_bind_Returns in H as (fac & Hfac & H).
  apply outcome_bind_Returns in H as (set_thresholds & Hset & H).
  injection H as <-. simpl.
  destruct (scale_Returns _ _ _ Hset) as [Hlen Hall].
  assert (Hflags :
    RotaryEncoder.pad_to_8
      (map (fun x => if negb (x =? 0)%float then true else false) set_thresholds)
    = map (fun y => negb (y =? 0)%float) set_thresholds
      ++ replicate (8 - length thresholds) false).
  { rewrite pad_to_8_replicate, length_map, Hlen. f_equal.
    apply map_ext. intros y. now destruct (y =? 0)%float. }
  split; [reflexivity|]. split; [|exact Hflags].
  intros Hfin i x xf Hx Hxf Hzero. rewrite Hflags.
  destruct (Hall i x Hx) as (xf' & Hxf' & Hy).
  rewrite Hxf in Hxf'. injection Hxf' as <-.
  apply lookup_app_l_Some. rewrite list_lookup_fmap, Hy. simpl.
  now rewrite (float_zero_mul _ _ Hzero Hfin).
Qed.

Lemma rotary_encoder_disables_zero_thresholds_witness :
  exists re,
    RotaryEncoder.__init__
      [RotaryEncoder.Int (-35); RotaryEncoder.Int 0; RotaryEncoder.Float 2]
      (RotaryEncoder.Float 4)
    = RotaryEncoder.Returns re /\
    RotaryEncoder.ENABLE_THRESHOLDS re !! 1%nat = Some false.
Proof.
  assert (Hfin :
    match RotaryEncoder.__init__
            [RotaryEncoder.Int (-35); RotaryEncoder.Int 0;
             RotaryEncoder.Float 2] (RotaryEncoder.Float 4) with
    | RotaryEncoder.Returns re => is_finite (RotaryEncoder.factor re)
    | RotaryEncoder.Raises _ => false
    end = true) by (vm_compute; reflexivity).
  destruct (RotaryEncoder.__init__
              [RotaryEncoder.Int (-35); RotaryEncoder.Int 0;
               RotaryEncoder.Float 2] (RotaryEncoder.Float 4))
    as [re|r] eqn:E; [|discriminate Hfin].
  exists re. split; [reflexivity|].
  destruct (rotary_encoder_disables_zero_thresholds _ _ _ E) as (_ & H & _).
  apply (H Hfin 1%nat (RotaryEncoder.Int 0) 0%float); reflexivity.
Defined.

(** ** What the file operations leave alone *)

Lemma part_ways_app_l (p q r : path) :
  part_ways p q = true -> part_ways (p ++ r) q = true.
Proof.
  revert q. induction p as [|a p IH]; intros [|b q]; simpl; try discriminate.
  destruct (String.eqb a b); [apply IH | reflexivity].
Qed.

(** A change of one entry, made at a path, is not seen at a path that
    parts ways with it. *)
Lemma at_entry_frame (p q : path)
    (change : string -> gmap string node -> result (gmap string node))
    (fs fs' : node) :
  (forall x entries entries' y,
     change x entries = Ok entries' -> y <> x -> entries' !! y = entries !! y) ->
  at_entry p change fs = Ok fs' ->
  part_ways p q = true ->
  fs_lookup q fs' = fs_lookup q fs.
Proof.
  intros Hchange. revert q fs fs'.
  induction p as [|a p IH]; intros [|b q] fs fs' H Hpart; try discriminate.
  destruct fs as [f|entries]; [discriminate|].
  simpl in Hpart. destruct (String.eqb_spec a b) as [<-|Hne].
  - destruct p as [|x p]; [discriminate|].
    simpl in H. destruct (entries !! a) as [m|] eqn:Ha; [|discriminate].
    apply bind_Ok in H as (m' & Hm' & H). injection H as <-.
    simpl. rewrite lookup_insert_eq, Ha. simpl.
    now apply (IH q m m').
  - destruct p as [|x p].
    + simpl in H. apply bind_Ok in H as (entries' & Hc & H). injection H as <-.
      simpl. now rewrite (Hchange _ _ _ b Hc) by congruence.
    + simpl in H. destruct (entries !! a) as [m|] eqn:Ha; [|discriminate].
      apply bind_Ok in H as (m' & Hm' & H). injection H as <-.
      simpl. now rewrite lookup_insert_ne.
Qed.

Lemma write_file_frame (p q : path) (f : file) (fs fs' : node) :
  write_file p f fs = Ok fs' -> part_ways p q = true ->
  fs_lookup q fs' = fs_lookup q fs.
Proof.
  apply at_entry_frame. intros x entries entries' y H Hy.
  destruct (entries !! x) as [[g|d]|]; try discriminate;
    injection H as <-; now rewrite lookup_insert_ne.
Qed.

Lemma rmtree_frame (p q : path) (fs fs' : node) :
  rmtree p fs = Ok fs' -> part_ways p q = true ->
  fs_lookup q fs' = fs_lookup q fs.
Proof.
  apply at_entry_frame. intros x entries entries' y H Hy.
  destruct (entries !! x) as [[g|d]|]; try discriminate.
  injection H as <-. now rewrite lookup_delete_ne.
Qed.

Lemma makedirs_with_frame (p q : path) (tree : gmap string node)
    (fs fs' : node) :
  makedirs_with p tree fs = Ok fs' -> part_ways p q = true ->
  fs_lookup q fs' = fs_lookup q fs.
Proof.
  revert q fs fs'.
  induction p as [|a p IH]; intros [|b q] fs fs' H Hpart; try discriminate.
  destruct fs as [f|entries]; [discriminate|].
  simpl in Hpart. destruct (String.eqb_spec a b) as [<-|Hne].
  - destruct p as [|x p]; [discriminate|].
    change (makedirs_with (a :: x :: p) tree (Dir entries))
      with (m' ← makedirs_with (x :: p) tree (default (Dir ∅) (entries !! a));
            Ok (Dir (<[a := m']> entries))) in H.
    apply bind_Ok in H as (m' & Hm' & H). injection H as <-.
    simpl. rewrite lookup_insert_eq. simpl.
    rewrite (IH q _ m' Hm' Hpart).
    destruct (entries !! a) as [m|]; [reflexivity|]. simpl.
    destruct q as [|c q]; [discriminate|]. simpl. now rewrite lookup_empty.
  - destruct p as [|x p].
    + simpl in H. destruct (entries !! a); [discriminate|]. injection H as <-.
      simpl. now rewrite lookup_insert_ne.
    + change (makedirs_with (a :: x :: p) tree (Dir entries))
        with (m' ← makedirs_with (x :: p) tree (default (Dir ∅) (entries !! a));
              Ok (Dir (<[a := m']> entries))) in H.
      apply bind_Ok in H as (m' & Hm' & H). injection H as <-.
      simpl. now rewrite lookup_insert_ne.
Qed.

Lemma copytree_frame (src dst q : path) (fs fs' : node) :
  copytree src dst fs = Ok fs' -> part_ways dst q = true ->
  fs_lookup q fs' = fs_lookup q fs.
Proof.
  unfold copytree. destruct (fs_lookup src fs) as [[f|tree]|]; try discriminate.
  apply makedirs_with_frame.
Qed.

Lemma zipit_frame (folder : path) (z : string) (dirs : list path) (q : path)
    (fs fs' : node) :
  zipit dirs (folder ++ [z]) fs = Ok fs' -> part_ways folder q = true ->
  fs_lookup q fs' = fs_lookup q fs.
Proof.
  unfold zipit. intros H Hpart.
  apply bind_Ok in H as (fs1 & H1 & H2).
  rewrite (write_file_frame _ q _ _ _ H2) by now apply part_ways_app_l.
  apply (write_file_frame _ q _ _ _ H1). now apply part_ways_app_l.
Qed.

Lemma rmtree_all_frame (folder : path) (names : list string) (q : path)
    (fs fs' : node) :
  rmtree_all (map (fun x => folder ++ [x]) names) fs = Ok fs' ->
  part_ways folder q = true ->
  fs_lookup q fs' = fs_lookup q fs.
Proof.
  intros H Hpart. revert fs H.
  induction names as [|x names IH]; intros fs H; simpl in H.
  - now injection H as <-.
  - apply bind_Ok in H as (fs1 & H1 & H2).
    rewrite (IH _ H2). apply (rmtree_frame _ q _ _ H1).
    now apply part_ways_app_l.
Qed.

Lemma archive_frame (folder : path) (z : string) (q : path) (fs fs' : node) :
  (dirs ← subfolders folder fs;
   fs ← zipit dirs (folder ++ [z]) fs;
   rmtree_all dirs fs) = Ok fs' ->
  part_ways folder q = true ->
  fs_lookup q fs' = fs_lookup q fs.
Proof.
  intros H Hpart.
  destruct (archive_Ok_inv _ _ _ _ H) as (entries & Hfs & _).
  rewrite (subfolders_in_folder _ _ _ Hfs) in H. simpl in H.
  apply bind_Ok in H as (fs1 & Hzip & Hrm).
  rewrite (rmtree_all_frame _ _ q _ _ Hrm Hpart).
  apply (zipit_frame _ _ _ q _ _ Hzip Hpart).
Qed.

(** X7.  The code archival changes nothing outside the session raw data
    folder: a path that parts ways with the folder leads to the same file or
    directory, or to nothing, before and after [save_task_code], and before
    and after [_save_task_code]. *)
Theorem code_archival_outside_folder (sph : session_folders) (fs fs' : node)
    (q : path) :
  part_ways (SESSION_RAW_DATA_FOLDER sph) q = true ->
  (Iotasks.save_task_code sph fs = Ok fs' ->
   fs_lookup q fs' = fs_lookup q fs) /\
  (SessionParams._save_task_code sph fs = Ok fs' ->
   fs_lookup q fs' = fs_lookup q fs).
Proof.
  intros Hpart. split.
  - intros H. now apply (archive_frame _ _ q _ _ H).
  - unfold SessionParams._save_task_code. intros H.
    apply bind_Ok in H as (fs1 & Hcopy & H).
    rewrite (archive_frame _ _ q _ _ H Hpart).
    apply (copytree_frame _ _ q _ _ Hcopy). now apply part_ways_app_l.
Qed.

Lemma code_archival_outside_folder_witness :
  exists fs',
    Iotasks.save_task_code Sample.folders Sample.disk = Ok fs' /\
    fs_lookup ["iblrig_params"; "IBL"; "tasks"; "habituation"; "task.py"] fs'
    = Some (File (Bytes "sma.add_state")).
Proof.
  destruct (Iotasks.save_task_code Sample.folders Sample.disk) as [fs'|e] eqn:E;
    [|vm_compute in E; discriminate].
  exists fs'. split; [reflexivity|].
  destruct (code_archival_outside_folder Sample.folders Sample.disk fs'
              ["iblrig_params"; "IBL"; "tasks"; "habituation"; "task.py"]
              eq_refl) as [Hsave _].
  rewrite (Hsave E). reflexivity.
Defined.

Lemma write_file_on_directory (folder : path) (x : string) (f : file)
    (fs : node) (entries d : gmap string node) :
  fs_lookup folder fs = Some (Dir entries) ->
  entries !! x = Some (Dir d) ->
  write_file (folder ++ [x]) f fs = Raise IsADirectoryError.
Proof.
  intros Hfs Hx. unfold write_file.
  pose proof (at_entry_in_folder folder x
                (fun x entries =>
                   match entries !! x with
                   | Some (Dir _) => Raise IsADirectoryError
                   | _ => Ok (<[x := File f]> entries)
                   end) fs entries Hfs) as H.
  simpl in H. now rewrite Hx in H.
Qed.

(** A path leads to nothing for one of two reasons, which exclude each
    other. *)
Lemma lookup_error_missing (q : path) (x : string) (rest : path) (fs : node)
    (entries : gmap string node) :
  fs_lookup q fs = Some (Dir entries) -> entries !! x = None ->
  fs_lookup (q ++ x :: rest) fs = None /\
  lookup_error (q ++ x :: rest) fs = FileNotFoundError.
Proof.
  revert fs. induction q as [|y q IH]; intros fs Hq Hx.
  - simpl in Hq. injection Hq as ->. simpl. now rewrite Hx.
  - destruct fs as [f|top]; [discriminate|]. simpl in *.
    destruct (top !! y) as [m|]; [|discriminate]. simpl in *. now apply IH.
Qed.

Lemma lookup_error_file (q : path) (x : string) (rest : path) (fs : node)
    (f : file) :
  fs_lookup q fs = Some (File f) ->
  fs_lookup (q ++ x :: rest) fs = None /\
  lookup_error (q ++ x :: rest) fs = NotADirectoryError.
Proof.
  revert fs. induction q as [|y q IH]; intros fs Hq.
  - simpl in Hq. injection Hq as ->. auto.
  - destruct fs as [g|top]; [discriminate|]. simpl in *.
    destruct (top !! y) as [m|]; [|discriminate]. simpl in *. now apply IH.
Qed.

Lemma lookup_None_cases (p : path) (fs : node) :
  fs_lookup p fs = None ->
  (lookup_error p fs = FileNotFoundError /\
   exists q x rest entries,
     p = q ++ x :: rest /\ fs_lookup q fs = Some (Dir entries) /\
     entries !! x = None) \/
  (lookup_error p fs = NotADirectoryError /\
   exists q x rest f,
     p = q ++ x :: rest /\ fs_lookup q fs = Some (File f)).
Proof.
  revert fs. induction p as [|y p IH]; intros fs H; [discriminate|].
  destruct fs as [f|top].
  - right. split; [reflexivity|]. exists [], y, p, f. auto.
  - simpl in *. destruct (top !! y) as [m|] eqn:Hy; simpl in H.
    + destruct (IH m H) as [(He & q & x & rest & es & -> & Hq & Hx)
                           |(He & q & x & rest & f & -> & Hq)].
      * left. split; [exact He|]. exists (y :: q), x, rest, es.
        split; [reflexivity|]. simpl. rewrite Hy. auto.
      * right. split; [exact He|]. exists (y :: q), x, rest, f.
        split; [reflexivity|]. simpl. now rewrite Hy.
    + left. split; [reflexivity|]. exists [], y, p, top. auto.
Qed.

(** X8.  [save_task_code] raises in three cases and in no other:
    [FileNotFoundError] exactly when a directory on the way to the session
    raw data folder lacks the next name of the path, [NotADirectoryError]
    exactly when the folder or something on the way to it is a plain file,
    and [IsADirectoryError] exactly when the folder is a directory that
    holds a directory with the name of the archive. *)
Theorem save_task_code_errors (sph : session_folders) (fs : node) :
  (Iotasks.save_task_code sph fs = Raise FileNotFoundError <->
   exists q x rest entries,
     SESSION_RAW_DATA_FOLDER sph = q ++ x :: rest /\
     fs_lookup q fs = Some (Dir entries) /\ entries !! x = None) /\
  (Iotasks.save_task_code sph fs = Raise NotADirectoryError <->
   exists q rest f,
     SESSION_RAW_DATA_FOLDER sph = q ++ rest /\
     fs_lookup q fs = Some (File f)) /\
  (Iotasks.save_task_code sph fs = Raise IsADirectoryError <->
   exists entries d,
     fs_lookup (SESSION_RAW_DATA_FOLDER sph) fs = Some (Dir entries) /\
     entries !! "_iblrig_taskCodeFiles.raw.zip" = Some (Dir d)) /\
  (forall e, Iotasks.save_task_code sph fs = Raise e ->
     e = FileNotFoundError \/ e = NotADirectoryError \/ e = IsADirectoryError).
Proof.
  assert (Hnone : fs_lookup (SESSION_RAW_DATA_FOLDER sph) fs = None ->
                  Iotasks.save_task_code sph fs
                  = Raise (lookup_error (SESSION_RAW_DATA_FOLDER sph) fs)).
  { intros H. unfold Iotasks.save_task_code, subfolders, listdir.
    now rewrite H. }
  assert (Hfile : forall f,
             fs_lookup (SESSION_RAW_DATA_FOLDER sph) fs = Some (File f) ->
             Iotasks.save_task_code sph fs = Raise NotADirectoryError).
  { intros f H. unfold Iotasks.save_task_code, subfolders, listdir.
    now rewrite H. }
  assert (Hdir : forall entries d,
             fs_lookup (SESSION_RAW_DATA_FOLDER sph) fs = Some (Dir entries) ->
             entries !! "_iblrig_taskCodeFiles.raw.zip" = Some (Dir d) ->
             Iotasks.save_task_code sph fs = Raise IsADirectoryError).
  { intros entries d Hfs Hz. unfold Iotasks.save_task_code.
    rewrite (subfolders_in_folder _ _ _ Hfs). simpl. unfold zipit.
    now rewrite (write_file_on_directory _ _ _ _ _ _ Hfs Hz). }
  assert (Hok : forall entries,
             fs_lookup (SESSION_RAW_DATA_FOLDER sph) fs = Some (Dir entries) ->
             (forall d, entries !! "_iblrig_taskCodeFiles.raw.zip"
                        <> Some (Dir d)) ->
             exists fs', Iotasks.save_task_code sph fs = Ok fs').
  { intros entries Hfs Hz.
    destruct (archive_in_folder _ "_iblrig_taskCodeFiles.raw.zip" _ _ Hfs Hz)
      as (fs' & H & _).
    exists fs'. exact H. }
  (* the outcome in each of the four situations of the folder *)
  assert (Hcases :
    (exists fs', Iotasks.save_task_code sph fs = Ok fs') \/
    (Iotasks.save_task_code sph fs = Raise FileNotFoundError /\
     exists q x rest entries,
       SESSION_RAW_DATA_FOLDER sph = q ++ x :: rest /\
       fs_lookup q fs = Some (Dir entries) /\ entries !! x = None) \/
    (Iotasks.save_task_code sph fs = Raise NotADirectoryError /\
     exists q rest f,
       SESSION_RAW_DATA_FOLDER sph = q ++ rest /\
       fs_lookup q fs = Some (File f)) \/
    (Iotasks.save_task_code sph fs = Raise IsADirectoryError /\
     exists entries d,
       fs_lookup (SESSION_RAW_DATA_FOLDER sph) fs = Some (Dir entries) /\
       entries !! "_iblrig_taskCodeFiles.raw.zip" = Some (Dir d))).
  { destruct (fs_lookup (SESSION_RAW_DATA_FOLDER sph) fs)
      as [[f|entries]|] eqn:Hfs.
    - right. right. left. split; [now apply (Hfile f)|].
      exists (SESSION_RAW_DATA_FOLDER sph), [], f.
      rewrite app_nil_r. auto.
    - destruct (entries !! "_iblrig_taskCodeFiles.raw.zip") as [[g|d]|] eqn:Hz.
      + left. apply (Hok entries eq_refl). intros d. congruence.
      + right. right. right. split; [now apply (Hdir entries d)|]. eauto.
      + left. apply (Hok entries eq_refl). intros d. congruence.
    - rewrite (Hnone eq_refl).
      destruct (lookup_None_cases _ _ Hfs)
        as [(-> & q & x & rest & es & Hp & Hq & Hx)
           |(-> & q & x & rest & f & Hp & Hq)].
      + right. left. split; [reflexivity|]. eauto 8.
      + right. right. left. split; [reflexivity|].
        exists q, (x :: rest), f. auto. }
  split; [|split; [|split]].
  - split.
    + intros H. rewrite H in Hcases.
      destruct Hcases as [[fs' [=]]|[[_ Hc]|[[[=] _]|[[=] _]]]]. exact Hc.
    + intros (q & x & rest & es & Hp & Hq & Hx).
      destruct (lookup_error_missing q x rest fs es Hq Hx) as [Hl He].
      rewrite <- Hp in Hl, He. rewrite (Hnone Hl). now rewrite He.
  - split.
    + intros H. rewrite H in Hcases.
      destruct Hcases as [[fs' [=]]|[[[=] _]|[[_ Hc]|[[=] _]]]]. exact Hc.
    + intros (q & rest & f & Hp & Hq). destruct rest as [|x rest].
      * rewrite app_nil_r in Hp. subst q. now apply (Hfile f).
      * destruct (lookup_error_file q x rest fs f Hq) as [Hl He].
        rewrite <- Hp in Hl, He. rewrite (Hnone Hl). now rewrite He.
  - split.
    + intros H. rewrite H in Hcases.
      destruct Hcases as [[fs' [=]]|[[[=] _]|[[[=] _]|[_ Hc]]]]. exact Hc.
    + intros (entries & d & Hfs & Hz). now apply (Hdir entries d).
  - intros e H. rewrite H in Hcases.
    destruct Hcases as [[fs' [=]]|[[[= ->] _]|[[[= ->] _]|[[= ->] _]]]]; auto.
Qed.

Lemma save_task_code_errors_witness :
  Iotasks.save_task_code Sample.folders (Dir ∅) = Raise FileNotFoundError /\
  Iotasks.save_task_code Sample.folders (Dir {["data" := File (Bytes "")]})
  = Raise NotADirectoryError /\
  Iotasks.save_task_code Sample.folders
    (Dir {["data" :=
             Dir {["raw_behavior_data" :=
                     Dir {["_iblrig_taskCodeFiles.raw.zip" := Dir ∅]}]}]})
  = Raise IsADirectoryError.
Proof.
  split; [|split].
  - destruct (save_task_code_errors Sample.folders (Dir ∅)) as ([_ H] & _).
    apply H. exists [], "data", ["raw_behavior_data"], ∅.
    split; [reflexivity|]. split; reflexivity.
  - destruct (save_task_code_errors Sample.folders
                (Dir {["data" := File (Bytes "")]})) as (_ & [_ H] & _).
    apply H. exists ["data"], ["raw_behavior_data"], (Bytes "").
    split; reflexivity.
  - destruct (save_task_code_errors Sample.folders
                (Dir {["data" :=
                         Dir {["raw_behavior_data" :=
                                 Dir {["_iblrig_taskCodeFiles.raw.zip" := Dir ∅]}]}]}))
      as (_ & _ & [_ H] & _).
    apply H. exists {["_iblrig_taskCodeFiles.raw.zip" := Dir ∅]}, ∅.
    split; reflexivity.
Defined.

(** ** Archiving twice *)

(** A directory that holds plain files only has no subdirectory to archive
    and nothing to remove. *)
Lemma no_subfolders (entries : gmap string node) :
  (forall x d, entries !! x <> Some (Dir d)) ->
  subfolder_names entries = [] /\ plain_files entries = entries.
Proof.
  intros Hfiles. split.
  - apply elem_of_nil_inv. intros x Hx.
    apply elem_of_subfolder_names in Hx as [d Hd]. now apply (Hfiles x d).
  - apply map_eq. intros x. rewrite plain_files_lookup.
    destruct (entries !! x) as [[f|d]|] eqn:E; try reflexivity.
    now destruct (Hfiles x d).
Qed.

(** X9.  A second call of [save_task_code] for the same session completes
    and replaces the archive of the first call by an archive without
    members: after the first call the folder has no subdirectory left, and
    [ZipFile(zip_name, 'w')] truncates.  The other entries of the folder
    stay as the first call left them. *)
Theorem save_task_code_twice (sph : session_folders) (fs fs1 : node) :
  Iotasks.save_task_code sph fs = Ok fs1 ->
  exists fs2 entries1,
    Iotasks.save_task_code sph fs1 = Ok fs2 /\
    fs_lookup (SESSION_RAW_DATA_FOLDER sph) fs1 = Some (Dir entries1) /\
    fs_lookup (SESSION_RAW_DATA_FOLDER sph) fs2
    = Some (Dir (<["_iblrig_taskCodeFiles.raw.zip" := File (ZipFile [])]>
                   entries1)) /\
    fs_lookup (SESSION_RAW_DATA_FOLDER sph ++ ["_iblrig_taskCodeFiles.raw.zip"])
      fs2
    = Some (File (ZipFile [])).
Proof.
  intros H. unfold Iotasks.save_task_code in *.
  destruct (archive_Ok_inv _ _ _ _ H) as (entries & Hfs & Hz).
  destruct (archive_in_folder _ "_iblrig_taskCodeFiles.raw.zip" _ _ Hfs Hz)
    as (fs1' & H1 & Hfs1).
  rewrite H in H1. injection H1 as <-.
  set (entries1 := <["_iblrig_taskCodeFiles.raw.zip" :=
                       File (ZipFile (members_of entries
                                        (subfolder_names entries)))]>
                     (plain_files entries)) in *.
  assert (Hfiles : forall x d, entries1 !! x <> Some (Dir d)).
  { intros x d. unfold entries1.
    destruct (decide (x = "_iblrig_taskCodeFiles.raw.zip")) as [->|Hne].
    - rewrite lookup_insert_eq. discriminate.
    - rewrite lookup_insert_ne by congruence. rewrite plain_files_lookup.
      destruct (entries !! x) as [[f|d']|]; discriminate. }
  destruct (archive_in_folder _ "_iblrig_taskCodeFiles.raw.zip" _ _ Hfs1
              (Hfiles _)) as (fs2 & H2 & Hfs2).
  destruct (no_subfolders entries1 Hfiles) as [Hnames Hplain].
  rewrite Hnames, Hplain in Hfs2. simpl in Hfs2.
  exists fs2, entries1. split; [exact H2|]. split; [exact Hfs1|].
  split; [exact Hfs2|].
  rewrite (fs_lookup_entry _ _ _ _ Hfs2). apply lookup_insert_eq.
Qed.

Lemma save_task_code_twice_witness :
  exists fs1 fs2,
    Iotasks.save_task_code Sample.folders Sample.disk = Ok fs1 /\
    Iotasks.save_task_code Sample.folders fs1 = Ok fs2 /\
    fs_lookup ["data"; "raw_behavior_data"; "_iblrig_taskCodeFiles.raw.zip"] fs2
    = Some (File (ZipFile [])).
Proof.
  destruct (Iotasks.save_task_code Sample.folders Sample.disk) as [fs1|e] eqn:E;
    [|vm_compute in E; discriminate].
  destruct (save_task_code_twice Sample.folders Sample.disk fs1 E)
    as (fs2 & entries1 & H2 & _ & _ & Hzip).
  exists fs1, fs2. split; [reflexivity|]. split; [exact H2 | exact Hzip].
Defined.

(** ** The session order when the settings are incomplete *)

Lemma py_succ_Raise (float_add : Q -> Q -> Q) (v : value) (e : exn) :
  py_succ float_add v = Raise e -> e = TypeError.
Proof. destruct v; simpl; try discriminate; now intros [= <-]. Qed.

(** X10.  Settings of a previous session that hold a [SESSION_ORDER] but no
    [SESSION_IDX] make [load_session_order_idx] raise [KeyError].  The call
    raises nothing but [KeyError], for this reason, and [TypeError], for a
    [SESSION_IDX] to which 1 cannot be added; in particular the two branches
    cover every input, so that [session_order] is never unbound.  A call
    that raises has drawn no session order. *)
Theorem load_session_order_idx_errors (rng : Type)
    (draw_session_order : rng -> value * rng) (float_add : Q -> Q -> Q)
    (last_settings_data : option (gmap string value)) (g : rng) :
  (forall d order,
     last_settings_data = Some d ->
     d !! "SESSION_ORDER" = Some order -> order <> VNone ->
     d !! "SESSION_IDX" = None ->
     Iotasks.load_session_order_idx rng draw_session_order float_add
       last_settings_data g
     = (Raise KeyError, g)) /\
  (forall e g',
     Iotasks.load_session_order_idx rng draw_session_order float_add
       last_settings_data g
     = (Raise e, g') ->
     g' = g /\
     exists d order,
       last_settings_data = Some d /\
       d !! "SESSION_ORDER" = Some order /\ order <> VNone /\
       (e = KeyError /\ d !! "SESSION_IDX" = None \/
        e = TypeError /\
        exists idx, d !! "SESSION_IDX" = Some idx /\
                    py_succ float_add idx = Raise TypeError)).
Proof.
  unfold Iotasks.load_session_order_idx, Iotasks.has_key. split.
  - intros d order -> Hord Hnone Hidx. simpl default.
    rewrite (truthy_dict_with_key d _ _ Hord), Hord.
    rewrite (bool_decide_true (is_Some (Some order))) by eauto.
    replace (Iotasks.is_None order) with false by (now destruct order).
    simpl. now rewrite Hord, Hidx.
  - intros e g'.
    destruct (negb _ || negb _ || _) eqn:Hdraw.
    { destruct (draw_session_order g). discriminate. }
    apply orb_false_iff in Hdraw as [Hdraw Hnone].
    apply orb_false_iff in Hdraw as [Hlast Hkey].
    apply negb_false_iff in Hlast, Hkey. rewrite Hkey.
    destruct last_settings_data as [d|]; [|discriminate]. simpl in *.
    destruct (d !! "SESSION_ORDER") as [order|] eqn:Hord;
      [|apply bool_decide_eq_true in Hkey as [? [=]]].
    simpl. intros H. injection H as H <-. split; [reflexivity|].
    exists d, order. split; [reflexivity|]. split; [exact Hord|].
    split; [intros ->; discriminate|].
    destruct (d !! "SESSION_IDX") as [idx|] eqn:Hidx; simpl in H.
    + right. destruct (py_succ float_add idx) as [n|e'] eqn:Hsucc; simpl in H;
        [discriminate|].
      injection H as ->. pose proof (py_succ_Raise _ _ _ Hsucc) as ->. eauto.
    + left. injection H as <-. auto.
Qed.

Lemma load_session_order_idx_errors_witness :
  Iotasks.load_session_order_idx Z (fun g => (VList [VInt g], g + 1)) Qplus
    (Some {["SESSION_ORDER" := VList [VInt 2; VInt 0; VInt 1]]}) 7
  = (Raise KeyError, 7).
Proof.
  destruct (load_session_order_idx_errors Z
              (fun g => (VList [VInt g], g + 1)) Qplus
              (Some {["SESSION_ORDER" := VList [VInt 2; VInt 0; VInt 1]]}) 7)
    as [Hkey _].
  apply (Hkey {["SESSION_ORDER" := VList [VInt 2; VInt 0; VInt 1]]}
              (VList [VInt 2; VInt 0; VInt 1]));
    [reflexivity | reflexivity | discriminate | reflexivity].
Defined.

(** ** The extra settings of the subject *)

Lemma split_from_not_nil (sep : string) (skip : nat) (s cur : string) :
  split_from sep skip s cur <> [].
Proof.
  revert skip cur. induction s as [|c rest IH]; intros skip cur.
  - discriminate.
  - destruct skip as [|k]; cbn [split_from]; [|apply IH].
    destruct (String.prefix sep (String c rest)); [discriminate | apply IH].
Qed.

Lemma loads_all_length (json_parse : string -> option value)
    (pieces : list string) (l : list value) :
  Iotasks.loads_all json_parse pieces = Ok l -> length l = length pieces.
Proof.
  revert l. induction pieces as [|x rest IH]; simpl; intros l.
  - now intros [= <-].
  - destruct (loads json_parse x); simpl; [|discriminate].
    destruct (Iotasks.loads_all json_parse rest); simpl; [|discriminate].
    intros [= <-]. simpl. f_equal. now apply IH.
Qed.

Lemma strip_ends_short (s : string) :
  (String.length s <= 2)%nat -> strip_ends s = "".
Proof.
  unfold strip_ends.
  destruct s as [|a [|b [|c s]]]; simpl; try reflexivity. lia.
Qed.

(** X11.  [deserialize_pybpod_user_settings] raises nothing but [IOError]
    and [JSONDecodeError].  When it returns, [PYBPOD_SUBJECT_EXTRA] is the
    one parsed piece of the text between the first and the last character,
    or the list of the parsed pieces if there are two or more.  A text of at
    most two characters, such as a pair of brackets, leaves the empty string
    as its only piece, which is not JSON: the call cannot return then. *)
Theorem deserialize_user_settings_subject_extra
    (json_parse : string -> option value) (sph : user_settings) :
  (forall e, Iotasks.deserialize_pybpod_user_settings json_parse sph = Raise e ->
             e = IOError \/ e = JSONDecodeError) /\
  (forall out,
     Iotasks.deserialize_pybpod_user_settings json_parse sph = Ok out ->
     exists l,
       Iotasks.loads_all json_parse
         (split extra_sep (strip_ends (PYBPOD_SUBJECT_EXTRA sph))) = Ok l /\
       (l = [SUBJECT_EXTRA out] \/
        (2 <= length l)%nat /\ SUBJECT_EXTRA out = VList l)) /\
  (json_parse "" = None ->
   (String.length (PYBPOD_SUBJECT_EXTRA sph) <= 2)%nat ->
   forall out,
     Iotasks.deserialize_pybpod_user_settings json_parse sph <> Ok out).
Proof.
  assert (Hout : forall out,
    Iotasks.deserialize_pybpod_user_settings json_parse sph = Ok out ->
    exists l,
      Iotasks.loads_all json_parse
        (split extra_sep (strip_ends (PYBPOD_SUBJECT_EXTRA sph))) = Ok l /\
      (l = [SUBJECT_EXTRA out] \/
       (2 <= length l)%nat /\ SUBJECT_EXTRA out = VList l)).
  { intros out H. unfold Iotasks.deserialize_pybpod_user_settings in H.
    apply bind_Ok in H as (c & _ & H).
    apply bind_Ok in H as (u & _ & H).
    apply bind_Ok in H as (subjects & _ & H).
    apply bind_Ok in H as (subject & _ & H).
    apply bind_Ok in H as (l & Hl & H).
    apply bind_Ok in H as (extra & Hextra & H).
    injection H as <-. simpl. exists l. split; [exact Hl|].
    pose proof (loads_all_length _ _ _ Hl) as Hlen.
    destruct l as [|v [|w l]].
    - destruct (split extra_sep _) eqn:E; [|discriminate].
      now apply split_from_not_nil in E.
    - left. simpl in Hextra. now injection Hextra as <-.
    - right. simpl in Hextra. injection Hextra as <-.
      split; [simpl; lia | reflexivity]. }
  split; [|split; [exact Hout|]].
  - intros e H. unfold Iotasks.deserialize_pybpod_user_settings in H.
    destruct (loads json_parse (PYBPOD_CREATOR sph)) as [c|e1] eqn:Ec;
      simpl in H; [|injection H as <-; right; now apply loads_Raise in Ec].
    destruct (loads json_parse (PYBPOD_USER_EXTRA sph)) as [u|e1] eqn:Eu;
      simpl in H; [|injection H as <-; right; now apply loads_Raise in Eu].
    destruct (Iotasks.loads_subjects json_parse (PYBPOD_SUBJECTS sph))
      as [subjects|e1] eqn:Es; simpl in H;
      [|injection H as <-; right; now apply loads_subjects_Raise in Es].
    destruct subjects as [|v [|w subjects]]; simpl in H;
      try (injection H as <-; now left).
    destruct (Iotasks.loads_all json_parse _) as [l|e1] eqn:El; simpl in H;
      [|injection H as <-; right; now apply loads_all_Raise in El].
    destruct l as [|x [|y l]]; simpl in H; discriminate.
  - intros Hempty Hshort out H.
    destruct (Hout out H) as (l & Hl & _).
    rewrite (strip_ends_short _ Hshort) in Hl.
    change (split extra_sep "") with [""] in Hl. simpl in Hl.
    unfold loads in Hl. rewrite Hempty in Hl. discriminate.
Qed.

Lemma deserialize_user_settings_subject_extra_witness :
  exists e,
    Iotasks.deserialize_pybpod_user_settings Sample.small_json
      {| PYBPOD_CREATOR := "[]";
         PYBPOD_USER_EXTRA := "{}";
         PYBPOD_SUBJECTS := ["{}"];
         PYBPOD_SUBJECT_EXTRA := "[]" |}
    = Raise e /\
    (e = IOError \/ e = JSONDecodeError).
Proof.
  destruct (deserialize_user_settings_subject_extra Sample.small_json
              {| PYBPOD_CREATOR := "[]";
                 PYBPOD_USER_EXTRA := "{}";
                 PYBPOD_SUBJECTS := ["{}"];
                 PYBPOD_SUBJECT_EXTRA := "[]" |}) as (Hraise & _ & Hshort).
  destruct (Iotasks.deserialize_pybpod_user_settings Sample.small_json _)
    as [out|e] eqn:E.
  - destruct (Hshort eq_refl ltac:(simpl; lia) out). reflexivity.
  - exists e. split; [reflexivity|]. now apply Hraise.
Defined.

(** ** The whole run of the habituation task *)

(** X12.  The main loop of the habituation task calls [next_trial] and
    [trial_completed] in turn, once per trial, so that it ends with the
    handler of [NTRIALS] completed trials.  It reads the ambient sensor once
    per trial when [RECORD_AMBIENT_SENSOR_DATA] is set and never otherwise:
    the device gets 3 or 2 calls per trial.  For [NTRIALS] of 0 or less the
    loop does nothing. *)
Theorem habituation_main_loop_run (handler : Type)
    (next_trial trial_completed : handler -> handler)
    (params : handler -> Habituation.trial_params)
    (RECORD_AMBIENT_SENSOR_DATA : bool) (NTRIALS : Z) (tph : handler) :
  (Habituation.main_loop handler next_trial trial_completed params
     RECORD_AMBIENT_SENSOR_DATA NTRIALS tph).1
  = Nat.iter (Z.to_nat NTRIALS) (fun t => trial_completed (next_trial t)) tph /\
  length (Habituation.main_loop handler next_trial trial_completed params
            RECORD_AMBIENT_SENSOR_DATA NTRIALS tph).2
  = ((if RECORD_AMBIENT_SENSOR_DATA then 3 else 2) * Z.to_nat NTRIALS)%nat /\
  length (List.filter (fun c => negb (is_state_machine_call c))
            (Habituation.main_loop handler next_trial trial_completed params
               RECORD_AMBIENT_SENSOR_DATA NTRIALS tph).2)
  = (if RECORD_AMBIENT_SENSOR_DATA then Z.to_nat NTRIALS else 0%nat) /\
  (NTRIALS <= 0 ->
   Habituation.main_loop handler next_trial trial_completed params
     RECORD_AMBIENT_SENSOR_DATA NTRIALS tph
   = (tph, [])).
Proof.
  unfold Habituation.main_loop. rewrite main_loop_passes. simpl.
  split; [reflexivity|].
  assert (Hlen : forall l : list nat,
            length (flat_map
                      (Habituation.calls_at handler next_trial trial_completed
                         params RECORD_AMBIENT_SENSOR_DATA tph) l)
            = ((if RECORD_AMBIENT_SENSOR_DATA then 3 else 2) * length l)%nat).
  { induction l as [|i l IH]; simpl; [lia|].
    rewrite length_app, IH. unfold Habituation.calls_at.
    destruct RECORD_AMBIENT_SENSOR_DATA; simpl; lia. }
  assert (Hread : forall l : list nat,
            length (List.filter (fun c => negb (is_state_machine_call c))
                      (flat_map
                         (Habituation.calls_at handler next_trial
                            trial_completed params RECORD_AMBIENT_SENSOR_DATA
                            tph) l))
            = if RECORD_AMBIENT_SENSOR_DATA then length l else 0%nat).
  { induction l as [|i l IH]; simpl; [now destruct RECORD_AMBIENT_SENSOR_DATA|].
    rewrite List.filter_app, length_app, IH. unfold Habituation.calls_at.
    destruct RECORD_AMBIENT_SENSOR_DATA; reflexivity. }
  rewrite Hlen, Hread, length_seq.
  split; [reflexivity|]. split; [reflexivity|].
  intros Hn. replace (Z.to_nat NTRIALS) with 0%nat by lia. reflexivity.
Qed.

Lemma habituation_main_loop_run_witness :
  Habituation.main_loop nat S S Sample.params_of true (-2) 5%nat = (5%nat, []).
Proof.
  destruct (habituation_main_loop_run nat S S Sample.params_of true (-2) 5%nat)
    as (_ & _ & _ & H).
  apply H. lia.
Defined.

(** ** The archival of the video code *)

Lemma makedirs_with_exists (folder : path) (x : string)
    (tree : gmap string node) (fs n : node) :
  fs_lookup (folder ++ [x]) fs = Some n ->
  makedirs_with (folder ++ [x]) tree fs = Raise FileExistsError.
Proof.
  revert fs. induction folder as [|y folder IH]; intros fs Hn.
  - destruct fs as [f|top]; [discriminate|]. simpl in *.
    destruct (top !! x); [reflexivity | discriminate].
  - destruct fs as [f|top]; [discriminate|].
    assert (Hstep : makedirs_with ((y :: folder) ++ [x]) tree (Dir top)
                    = m' ← makedirs_with (folder ++ [x]) tree
                           (default (Dir ∅) (top !! y));
                      Ok (Dir (<[y := m']> top))).
    { simpl. destruct (folder ++ [x]) eqn:E; [|reflexivity].
      destruct folder; discriminate. }
    rewrite Hstep. simpl in Hn.
    destruct (top !! y) as [m|]; [|discriminate]. simpl in *.
    now rewrite (IH m Hn).
Qed.

(** X13.  The pipeline for the video code: [copy_video_code] raises
    [FileExistsError] when the session already has [camera_recordings];
    when it has run, [save_video_code] leaves an archive that holds every
    file of the recording folder under [camera_recordings], and removes the
    copy.  If the session folder had no subdirectory before the copy, the
    archive holds nothing else. *)
Theorem video_code_archival (sph : video_folders) (fs : node)
    (tree : gmap string node) :
  fs_lookup (VIDEO_RECORDING_FOLDER sph) fs = Some (Dir tree) ->
  (forall n,
     fs_lookup (SESSION_RAW_VIDEO_DATA_FOLDER sph ++ ["camera_recordings"]) fs
     = Some n ->
     Video.copy_video_code sph fs = Raise FileExistsError) /\
  (forall fs1 fs',
     Video.copy_video_code sph fs = Ok fs1 ->
     Video.save_video_code sph fs1 = Ok fs' ->
     exists members,
       fs_lookup (SESSION_RAW_VIDEO_DATA_FOLDER sph
                  ++ ["_iblrig_videoCodeFiles.raw.zip"]) fs'
       = Some (File (ZipFile members)) /\
       (forall q f, fs_lookup q (Dir tree) = Some (File f) ->
                    ("camera_recordings" :: q, f) ∈ members) /\
       fs_lookup (SESSION_RAW_VIDEO_DATA_FOLDER sph ++ ["camera_recordings"]) fs'
       = None /\
       ((forall x d,
           fs_lookup (SESSION_RAW_VIDEO_DATA_FOLDER sph ++ [x]) fs
           <> Some (Dir d)) ->
        forall p f, (p, f) ∈ members ->
          exists q, p = "camera_recordings" :: q /\
                    fs_lookup q (Dir tree) = Some (File f))).
Proof.
  intros Hsrc. unfold Video.copy_video_code, copytree. rewrite Hsrc. split.
  - intros n Hn. now apply (makedirs_with_exists _ _ _ _ n).
  - intros fs1 fs' Hcopy Hsave.
    destruct (makedirs_with_Ok_inv _ _ _ _ _ Hcopy)
      as (before & Hfs1 & Hnew & Hbefore).
    unfold Video.save_video_code in Hsave.
    destruct (archive_post _ _ _ _ Hsave)
      as (now_ & members & Hnow & Hzip & Hmem & Hrm & _).
    rewrite Hfs1 in Hnow. injection Hnow as <-.
    exists members. split; [exact Hzip|]. split; [|split].
    + intros q f Hq. apply Hmem. exists "camera_recordings", q, tree.
      split; [reflexivity|]. split; [apply lookup_insert_eq | exact Hq].
    + apply (Hrm _ tree). apply lookup_insert_eq.
    + intros Hnone p f Hp.
      apply Hmem in Hp as (x & q & d & -> & Hx & Hq).
      destruct (decide (x = "camera_recordings")) as [->|Hne].
      * rewrite lookup_insert_eq in Hx. injection Hx as <-. eauto.
      * rewrite lookup_insert_ne in Hx by congruence.
        destruct Hbefore as [Hb|[_ ->]]; [|now rewrite lookup_empty in Hx].
        destruct (Hnone x d). now rewrite (fs_lookup_entry _ _ _ _ Hb).
Qed.

Lemma video_code_archival_witness :
  exists fs1 fs' members,
    Video.copy_video_code
      {| VIDEO_RECORDING_FOLDER := ["iblrig_params"; "IBL"; "tasks"; "habituation"];
         SESSION_RAW_VIDEO_DATA_FOLDER := ["data"; "raw_video_data"] |}
      Sample.disk = Ok fs1 /\
    Video.save_video_code
      {| VIDEO_RECORDING_FOLDER := ["iblrig_params"; "IBL"; "tasks"; "habituation"];
         SESSION_RAW_VIDEO_DATA_FOLDER := ["data"; "raw_video_data"] |}
      fs1 = Ok fs' /\
    fs_lookup ["data"; "raw_video_data"; "_iblrig_videoCodeFiles.raw.zip"] fs'
    = Some (File (ZipFile members)) /\
    (["camera_recordings"; "lib"; "settings.py"], Bytes "NTRIALS") ∈ members.
Proof.
  set (sph := {| VIDEO_RECORDING_FOLDER :=
                   ["iblrig_params"; "IBL"; "tasks"; "habituation"];
                 SESSION_RAW_VIDEO_DATA_FOLDER := ["data"; "raw_video_data"] |}).
  destruct (Video.copy_video_code sph Sample.disk) as [fs1|e] eqn:E1;
    [|vm_compute in E1; discriminate].
  destruct (Video.save_video_code sph fs1) as [fs'|e] eqn:E2;
    [|vm_compute in E1; injection E1 as <-; vm_compute in E2; discriminate].
  destruct (video_code_archival sph Sample.disk Sample.task_code eq_refl)
    as [_ H].
  destruct (H fs1 fs' E1 E2) as (members & Hzip & Hmem & _).
  exists fs1, fs', members. split; [reflexivity|]. split; [exact E2|].
  split; [exact Hzip|]. apply (Hmem ["lib"; "settings.py"]). reflexivity.
Defined.

Lemma part_ways_sym (p q : path) : part_ways p q = part_ways q p.
Proof.
  revert q. induction p as [|a p IH]; intros [|b q]; simpl; try reflexivity.
  rewrite (String.eqb_sym a b). destruct (String.eqb b a); [apply IH | reflexivity].
Qed.

(** X14.  The archival of the task code and that of the video code do not
    interfere when their folders part ways: if [save_task_code] and then
    [save_video_code] complete, so do the two in the other order, and both
    orders leave the same content in the two folders and at every path that
    parts ways with both, where nothing has changed. *)
Theorem task_and_video_archival_commute (sph : session_folders)
    (v : video_folders) (fs fs1 fs2 : node) :
  part_ways (SESSION_RAW_DATA_FOLDER sph) (SESSION_RAW_VIDEO_DATA_FOLDER v)
  = true ->
  Iotasks.save_task_code sph fs = Ok fs1 ->
  Video.save_video_code v fs1 = Ok fs2 ->
  exists fs1' fs2',
    Video.save_video_code v fs = Ok fs1' /\
    Iotasks.save_task_code sph fs1' = Ok fs2' /\
    fs_lookup (SESSION_RAW_DATA_FOLDER sph) fs2'
    = fs_lookup (SESSION_RAW_DATA_FOLDER sph) fs2 /\
    fs_lookup (SESSION_RAW_VIDEO_DATA_FOLDER v) fs2'
    = fs_lookup (SESSION_RAW_VIDEO_DATA_FOLDER v) fs2 /\
    forall q,
      part_ways (SESSION_RAW_DATA_FOLDER sph) q = true ->
      part_ways (SESSION_RAW_VIDEO_DATA_FOLDER v) q = true ->
      fs_lookup q fs2' = fs_lookup q fs /\ fs_lookup q fs2 = fs_lookup q fs.
Proof.
  intros Hpart Htask Hvideo.
  assert (Hpart' : part_ways (SESSION_RAW_VIDEO_DATA_FOLDER v)
                     (SESSION_RAW_DATA_FOLDER sph) = true)
    by now rewrite part_ways_sym.
  unfold Iotasks.save_task_code, Video.save_video_code in *.
  destruct (archive_Ok_inv _ _ _ _ Htask) as (et & Het & Hzt).
  destruct (archive_Ok_inv _ _ _ _ Hvideo) as (ev & Hev1 & Hzv).
  pose proof (archive_frame _ _ _ _ _ Htask Hpart) as Hv01.
  rewrite Hev1 in Hv01. symmetry in Hv01.
  destruct (archive_in_folder _ "_iblrig_taskCodeFiles.raw.zip" _ _ Het Hzt)
    as (fs1_ & Htask_ & Ht1).
  rewrite Htask in Htask_. injection Htask_ as <-.
  destruct (archive_in_folder _ "_iblrig_videoCodeFiles.raw.zip" _ _ Hev1 Hzv)
    as (fs2_ & Hvideo_ & Hv2).
  rewrite Hvideo in Hvideo_. injection Hvideo_ as <-.
  destruct (archive_in_folder _ "_iblrig_videoCodeFiles.raw.zip" _ _ Hv01 Hzv)
    as (fs1' & Hvideo' & Hv1').
  pose proof (archive_frame _ _ _ _ _ Hvideo' Hpart') as Ht01'.
  rewrite Het in Ht01'.
  destruct (archive_in_folder _ "_iblrig_taskCodeFiles.raw.zip" _ _ Ht01' Hzt)
    as (fs2' & Htask' & Ht2').
  exists fs1', fs2'. split; [exact Hvideo'|]. split; [exact Htask'|].
  split; [|split].
  - rewrite Ht2'. rewrite (archive_frame _ _ _ _ _ Hvideo Hpart'). now rewrite Ht1.
  - rewrite Hv2. rewrite (archive_frame _ _ _ _ _ Htask' Hpart). now rewrite Hv1'.
  - intros q Hq Hq'. split.
    + rewrite (archive_frame _ _ _ _ _ Htask' Hq).
      apply (archive_frame _ _ _ _ _ Hvideo' Hq').
    + rewrite (archive_frame _ _ _ _ _ Hvideo Hq').
      apply (archive_frame _ _ _ _ _ Htask Hq).
Qed.

Lemma task_and_video_archival_commute_witness :
  exists fs1' fs2',
    Video.save_video_code
      {| VIDEO_RECORDING_FOLDER := ["video"];
         SESSION_RAW_VIDEO_DATA_FOLDER := ["iblrig_params"; "IBL"; "tasks"] |}
      Sample.disk = Ok fs1' /\
    Iotasks.save_task_code Sample.folders fs1' = Ok fs2' /\
    fs_lookup ["data"; "raw_behavior_data"; "Gabor2D"] fs2' = None /\
    fs_lookup ["iblrig_params"; "IBL"; "tasks"; "habituation"] fs2' = None.
Proof.
  set (v := {| VIDEO_RECORDING_FOLDER := ["video"];
               SESSION_RAW_VIDEO_DATA_FOLDER :=
                 ["iblrig_params"; "IBL"; "tasks"] |}).
  destruct (Iotasks.save_task_code Sample.folders Sample.disk) as [fs1|e] eqn:E1;
    [|vm_compute in E1; discriminate].
  destruct (Video.save_video_code v fs1) as [fs2|e] eqn:E2;
    [|vm_compute in E1; injection E1 as <-; vm_compute in E2; discriminate].
  destruct (task_and_video_archival_commute Sample.folders v Sample.disk fs1 fs2
              eq_refl E1 E2)
    as (fs1' & fs2' & Hv & Ht & Hraw & Hvid & _).
  exists fs1', fs2'. split; [exact Hv|]. split; [exact Ht|].
  vm_compute in E1. injection E1 as <-. vm_compute in E2. injection E2 as <-.
  split.
  - change ["data"; "raw_behavior_data"; "Gabor2D"]
      with (SESSION_RAW_DATA_FOLDER Sample.folders ++ ["Gabor2D"]).
    rewrite fs_lookup_app, Hraw. vm_compute. reflexivity.
  - change ["iblrig_params"; "IBL"; "tasks"; "habituation"]
      with (SESSION_RAW_VIDEO_DATA_FOLDER v ++ ["habituation"]).
    rewrite fs_lookup_app, Hvid. vm_compute. reflexivity.
Defined.

(** ** The last record of the trial data *)

Lemma list_getitem_out_of_range {A} (l : list A) (i : Z) (e : exn) :
  list_getitem l i = Raise e ->
  ~ (- Z.of_nat (length l) <= i < Z.of_nat (length l)).
Proof.
  unfold list_getitem. intros H Hi.
  destruct (Z.ltb_spec i 0) as [Hneg|Hpos].
  - destruct (Z.ltb_spec (i + Z.of_nat (length l)) 0); [lia|].
    destruct (Z.leb_spec (Z.of_nat (length l)) (i + Z.of_nat (length l)));
      [lia|].
    simpl in H.
    destruct (lookup_lt_is_Some_2 l (Z.to_nat (i + Z.of_nat (length l))))
      as [x Hx]; [lia|].
    rewrite Hx in H. discriminate.
  - destruct (Z.ltb_spec i 0); [lia|].
    destruct (Z.leb_spec (Z.of_nat (length l)) i); [lia|].
    simpl in H.
    destruct (lookup_lt_is_Some_2 l (Z.to_nat i)) as [x Hx]; [lia|].
    rewrite Hx in H. discriminate.
Qed.

(** X15.  [load_data] returns [None] when ibllib finds no data or an empty
    list of trials, for every index, and the last record for the default
    index -1 otherwise: unlike [_load_last_trial] it tests for an empty list
    before it reads the record.  With the index -1 it raises only what the
    loader of ibllib raises; with another index it raises [IndexError]
    exactly for an index outside a list that is not empty. *)
Theorem load_data_edges (raw_load_data : result (option (list value))) (i : Z) :
  (raw_load_data = Ok None \/ raw_load_data = Ok (Some []) ->
   Data.load_data raw_load_data i = Ok VNone) /\
  (forall l x, raw_load_data = Ok (Some (l ++ [x])) ->
     Data.load_data raw_load_data (-1) = Ok x) /\
  (forall e, Data.load_data raw_load_data (-1) = Raise e ->
     raw_load_data = Raise e) /\
  (forall e, Data.load_data raw_load_data i = Raise e ->
     raw_load_data = Raise e \/
     e = IndexError /\
     exists l, raw_load_data = Ok (Some l) /\ l <> [] /\
               ~ (- Z.of_nat (length l) <= i < Z.of_nat (length l))).
Proof.
  unfold Data.load_data. split; [|split; [|split]].
  - intros [-> | ->]; reflexivity.
  - intros l x ->. simpl. rewrite list_getitem_last.
    destruct l; reflexivity.
  - intros e H. destruct raw_load_data as [[l|]|e']; simpl in H;
      [| discriminate | now injection H as ->].
    destruct l as [|y l' _] using rev_ind; [discriminate|].
    rewrite list_getitem_last in H. destruct (l' ++ [y]); discriminate.
  - intros e H. destruct raw_load_data as [[l|]|e']; simpl in H;
      [| discriminate | left; now injection H as ->].
    right. destruct l as [|y l']; [discriminate|].
    pose proof (list_getitem_Raise _ _ _ H) as ->.
    split; [reflexivity|]. exists (y :: l'). split; [reflexivity|].
    split; [discriminate|]. now apply (list_getitem_out_of_range _ _ _ H).
Qed.

Lemma load_data_edges_witness :
  Data.load_data (Ok (Some [])) 0 = Ok VNone /\
  Data.load_data (Ok (Some ([VInt 1; VInt 2] ++ [VInt 3]))) (-1) = Ok (VInt 3).
Proof.
  split.
  - destruct (load_data_edges (Ok (Some [])) 0) as (H & _).
    apply H. now right.
  - destruct (load_data_edges (Ok (Some ([VInt 1; VInt 2] ++ [VInt 3]))) 0)
      as (_ & H & _).
    apply (H [VInt 1; VInt 2] (VInt 3)). reflexivity.
Defined.

(** ** The events of the thresholds *)

Lemma event_name_inj (x y : nat) :
  Events.event_name x = Events.event_name y -> x = y.
Proof.
  unfold Events.event_name. intros H.
  apply (inj (String.app "RotaryEncoder1_")) in H.
  now apply (inj pretty) in H.
Qed.

Section ThresholdEvents.

Context {K : Type} `{Countable K}.

(** One more threshold at the end gets the next event and replaces what the
    dictionary had for that threshold. *)
Lemma THRESHOLD_EVENTS_snoc (all_thresholds : list K) (t : K) :
  Events.THRESHOLD_EVENTS (all_thresholds ++ [t])
  = <[t := Events.event_name (length all_thresholds + 1)]>
      (Events.THRESHOLD_EVENTS all_thresholds).
Proof.
  unfold Events.THRESHOLD_EVENTS, Events.dict_zip, Events.ENCODER_EVENTS.
  rewrite length_app. simpl length. rewrite seq_app, map_app. simpl.
  rewrite zip_with_app by (now rewrite length_map, length_seq).
  rewrite foldl_app. simpl. do 2 f_equal. lia.
Qed.

Lemma THRESHOLD_EVENTS_None (all_thresholds : list K) (t : K) :
  Events.THRESHOLD_EVENTS all_thresholds !! t = None <-> t ∉ all_thresholds.
Proof.
  induction all_thresholds as [|u l IH] using rev_ind.
  - split; [intros _; apply not_elem_of_nil | reflexivity].
  - rewrite THRESHOLD_EVENTS_snoc, not_elem_of_app, not_elem_of_cons.
    destruct (decide (t = u)) as [->|Hne].
    + rewrite lookup_insert_eq. split; [discriminate | intros (_ & Hu & _)].
      now destruct Hu.
    + rewrite lookup_insert_ne by congruence. rewrite IH.
      split; [intros Hl; repeat split; [assumption.. | apply not_elem_of_nil]
             | now intros [Hl _]].
Qed.

(** What the dictionary holds for a threshold is the event of its last
    position. *)
Lemma THRESHOLD_EVENTS_Some (all_thresholds : list K) (t : K) (e : string) :
  Events.THRESHOLD_EVENTS all_thresholds !! t = Some e <->
  exists i, all_thresholds !! i = Some t /\
            (forall j, (i < j)%nat -> all_thresholds !! j <> Some t) /\
            e = Events.event_name (i + 1).
Proof.
  revert e. induction all_thresholds as [|u l IH] using rev_ind; intros e.
  - split; [discriminate | intros (i & Hi & _); discriminate].
  - rewrite THRESHOLD_EVENTS_snoc.
    destruct (decide (t = u)) as [->|Hne].
    + rewrite lookup_insert_eq. split.
      * intros [= <-]. exists (length l). split; [|split; [|reflexivity]].
        -- rewrite lookup_app_r by lia. now rewrite Nat.sub_diag.
        -- intros j Hj Hlook. apply lookup_lt_Some in Hlook.
           rewrite length_app in Hlook. simpl in Hlook. lia.
      * intros (i & Hi & Hlast & ->). do 2 f_equal.
        destruct (decide (i = length l)) as [->|Hi']; [reflexivity|].
        pose proof (lookup_lt_Some _ _ _ Hi) as Hlt.
        rewrite length_app in Hlt. simpl in Hlt.
        destruct (Hlast (length l)); [lia|].
        rewrite lookup_app_r by lia. now rewrite Nat.sub_diag.
    + rewrite lookup_insert_ne by congruence. rewrite IH. split.
      * intros (i & Hi & Hlast & ->). exists i.
        split; [now rewrite lookup_app_l by (now apply lookup_lt_Some in Hi)|].
        split; [|reflexivity]. intros j Hj Hlook.
        apply lookup_app_Some in Hlook as [Hlook|[_ Hlook]].
        -- now apply (Hlast j).
        -- apply list_lookup_singleton_Some in Hlook as [_ ->]. now destruct Hne.
      * intros (i & Hi & Hlast & ->).
        apply lookup_app_Some in Hi as [Hi|[_ Hi]].
        -- exists i. split; [exact Hi|]. split; [|reflexivity].
           intros j Hj Hlook. apply (Hlast j Hj).
           now rewrite lookup_app_l by (now apply lookup_lt_Some in Hlook).
        -- apply list_lookup_singleton_Some in Hi as [_ ->]. now destruct Hne.
Qed.

End ThresholdEvents.

(** X16.  [THRESHOLD_EVENTS] has exactly the thresholds as keys and maps a
    threshold to the event [RotaryEncoder1_n] of its last position [n]
    (counted from 1) in [ALL_THRESHOLDS]; different thresholds have
    different events.  When a threshold occurs twice, the event of the
    earlier position belongs to no threshold. *)
Theorem threshold_events_last_position {K : Type} `{Countable K}
    (all_thresholds : list K) :
  (forall t, Events.THRESHOLD_EVENTS all_thresholds !! t = None
             <-> t ∉ all_thresholds) /\
  (forall i t,
     all_thresholds !! i = Some t ->
     (forall j, (i < j)%nat -> all_thresholds !! j <> Some t) ->
     Events.THRESHOLD_EVENTS all_thresholds !! t
     = Some (Events.event_name (i + 1))) /\
  (forall t u e,
     Events.THRESHOLD_EVENTS all_thresholds !! t = Some e ->
     Events.THRESHOLD_EVENTS all_thresholds !! u = Some e ->
     t = u) /\
  (forall i j t,
     (i < j)%nat ->
     all_thresholds !! i = Some t -> all_thresholds !! j = Some t ->
     forall u, Events.THRESHOLD_EVENTS all_thresholds !! u
               <> Some (Events.event_name (i + 1))).
Proof.
  split; [apply THRESHOLD_EVENTS_None|]. split; [|split].
  - intros i t Hi Hlast. apply THRESHOLD_EVENTS_Some. eauto.
  - intros t u e Ht Hu.
    apply THRESHOLD_EVENTS_Some in Ht as (i & Hi & _ & ->).
    apply THRESHOLD_EVENTS_Some in Hu as (j & Hj & _ & Heq).
    apply event_name_inj in Heq. assert (i = j) as -> by lia. congruence.
  - intros i j t Hij Hi Hj u Hu.
    apply THRESHOLD_EVENTS_Some in Hu as (k & Hk & Hlast & Heq).
    apply event_name_inj in Heq. assert (k = i) as -> by lia.
    apply (Hlast j Hij). congruence.
Qed.

Lemma threshold_events_last_position_witness :
  Events.THRESHOLD_EVENTS (Events.ALL_THRESHOLDS [-35; 35] [-2; 2]) !! 35
  = Some "RotaryEncoder1_2" /\
  forall u, Events.THRESHOLD_EVENTS (Events.ALL_THRESHOLDS [-35; 35] [35; 2]) !! u
            <> Some "RotaryEncoder1_2".
Proof.
  split.
  - destruct (threshold_events_last_position
                (Events.ALL_THRESHOLDS [-35; 35] [-2; 2])) as (_ & H & _).
    apply (H 1%nat 35); [reflexivity|].
    intros [|[|[|[|j]]]] Hj; try lia; discriminate.
  - destruct (threshold_events_last_position
                (Events.ALL_THRESHOLDS [-35; 35] [35; 2])) as (_ & _ & _ & H).
    apply (H 1%nat 2%nat 35); [lia | reflexivity | reflexivity].
Defined.

(** ** The replay of the passive task *)

Lemma list_getitem_nat {A} (l : list A) (k : nat) :
  list_getitem l (Z.of_nat k)
  = match l !! k with
    | Some x => Ok x
    | None => Raise IndexError
    end.
Proof.
  unfold list_getitem.
  destruct (Z.ltb_spec (Z.of_nat k) 0) as [Hneg|_]; [lia|].
  destruct (Z.ltb_spec (Z.of_nat k) 0) as [Hneg|_]; [lia|]. simpl.
  rewrite Nat2Z.id.
  destruct (Z.leb_spec (Z.of_nat (length l)) (Z.of_nat k)) as [Hout|Hin].
  - rewrite lookup_ge_None_2 by lia. reflexivity.
  - reflexivity.
Qed.

Section PassiveReplay.

Import PassiveLoop.

Variable sph : passive_params.
Variable sc_play_tone : Z.
Variable sc_play_noise : Z.

Local Abbreviation stimulus := (stimulus sph sc_play_tone sc_play_noise).
Local Abbreviation replay := (replay sph sc_play_tone sc_play_noise).
Local Abbreviation bpod_calls_for :=
  (bpod_calls_for sph sc_play_tone sc_play_noise).

(** What the script sleeps for one stimulus. *)
Local Abbreviation sleeps_for :=
  (fun s : Q * string => s.1 :: if String.eqb s.2 "G" then [3 # 10] else []).

(** A stimulus other than a Gabor patch: the Bpod gets its calls, the
    counter of the patches stays. *)
Lemma stimulus_not_gabor (sdel : Q) (sid : string) (w : world) :
  Qle_bool 0 sdel = true ->
  String.eqb sid "G" = false ->
  exists w1,
    stimulus sdel sid w = (None, w1) /\
    bpod w1 = bpod w ++ bpod_calls_for sid /\
    osc w1 = osc w /\ slept w1 = slept w ++ [sdel] /\
    pcs_idx w1 = pcs_idx w /\ scount w1 = scount w.
Proof.
  intros Hd HG. unfold PassiveLoop.stimulus, PassiveLoop.bpod_calls_for.
  rewrite Hd, HG. simpl negb. cbv iota.
  destruct (String.eqb sid "V"); [|destruct (String.eqb sid "T");
                                    [|destruct (String.eqb sid "N")]];
    eexists; (split; [reflexivity|]); simpl;
    unfold Passive.do_valve_click, Passive.do_bpod_sound; simpl;
    rewrite <- ?app_assoc, ?app_nil_r; auto.
Qed.

(** A Gabor patch for which the session has parameters. *)
Lemma stimulus_gabor (sdel : Q) (w : world) :
  Qle_bool 0 sdel = true ->
  (pcs_idx w < patches sph)%nat ->
  exists w1,
    stimulus sdel "G" w = (None, w1) /\
    bpod w1 = bpod w /\
    osc w1 = osc w ++ gabor_messages sph (pcs_idx w) /\
    slept w1 = slept w ++ [sdel; 3 # 10] /\
    pcs_idx w1 = S (pcs_idx w) /\ scount w1 = scount w.
Proof.
  unfold patches. intros Hd Hk.
  destruct (lookup_lt_is_Some_2 (POSITIONS sph) (pcs_idx w)) as [pos Hpos];
    [lia|].
  destruct (lookup_lt_is_Some_2 (CONTRASTS sph) (pcs_idx w)) as [cont Hcont];
    [lia|].
  destruct (lookup_lt_is_Some_2 (STIM_PHASE sph) (pcs_idx w)) as [ph Hph];
    [lia|].
  unfold PassiveLoop.stimulus. rewrite Hd. simpl.
  rewrite !list_getitem_nat, Hpos, Hcont, Hph. simpl.
  eexists. split; [reflexivity|]. simpl.
  unfold gabor_messages. rewrite Hpos, Hcont, Hph. simpl.
  rewrite <- !app_assoc. simpl. repeat split; try reflexivity. lia.
Qed.

(** A Gabor patch beyond the parameters of the session. *)
Lemma stimulus_gabor_missing (sdel : Q) (w : world) :
  Qle_bool 0 sdel = true ->
  (patches sph <= pcs_idx w)%nat ->
  stimulus sdel "G" w = (Some (Exn IndexError), sleep sdel w).
Proof.
  unfold patches. intros Hd Hk. unfold PassiveLoop.stimulus. rewrite Hd. simpl.
  rewrite !list_getitem_nat.
  destruct (POSITIONS sph !! pcs_idx w) as [pos|] eqn:Hpos; [|reflexivity].
  destruct (CONTRASTS sph !! pcs_idx w) as [cont|] eqn:Hcont; [|reflexivity].
  destruct (STIM_PHASE sph !! pcs_idx w) as [ph|] eqn:Hph; [|reflexivity].
  apply lookup_lt_Some in Hpos, Hcont, Hph. lia.
Qed.

Lemma stimuli_with_cons (sid : string) (s : Q * string)
    (stims : list (Q * string)) :
  length (stimuli_with sid (s :: stims))
  = ((if String.eqb s.2 sid then 1 else 0) + length (stimuli_with sid stims))%nat.
Proof. unfold stimuli_with. simpl. now destruct (String.eqb s.2 sid). Qed.

(** The loop from any pass on, when the patches suffice. *)
Lemma replay_completes (stims : list (Q * string)) (w : world) :
  delays_ok stims ->
  (pcs_idx w + length (stimuli_with "G" stims) <= patches sph)%nat ->
  exists w',
    replay stims w = (None, w') /\
    bpod w' = bpod w ++ flat_map (fun s => bpod_calls_for s.2) stims /\
    osc w'
    = osc w ++ flat_map (gabor_messages sph)
                 (seq (pcs_idx w) (length (stimuli_with "G" stims))) /\
    slept w' = slept w ++ flat_map sleeps_for stims /\
    pcs_idx w' = (pcs_idx w + length (stimuli_with "G" stims))%nat /\
    scount w' = (scount w + length stims)%nat.
Proof.
  intros Hd. revert w.
  induction Hd as [|[sdel sid] stims Hs Hd IH]; intros w Hk.
  - exists w. simpl. rewrite !app_nil_r, Nat.add_0_r. auto 10.
  - rewrite stimuli_with_cons in *. simpl fst in *. simpl snd in *.
    cbn [PassiveLoop.replay].
    destruct (String.eqb_spec sid "G") as [->|HG].
    + destruct (stimulus_gabor sdel w Hs)
        as (w1 & -> & Hb & Ho & Hs1 & Hp & Hc); [lia|].
      destruct (IH {| bpod := bpod w1; osc := osc w1; slept := slept w1;
                      pcs_idx := pcs_idx w1; scount := scount w1 + 1 |})
        as (w' & Hrun & Hb' & Ho' & Hs' & Hp' & Hc'); [simpl; lia|].
      simpl in *. exists w'. split; [exact Hrun|].
      rewrite Hb', Ho', Hs', Hp', Hc', Hb, Ho, Hs1, Hp, Hc.
      rewrite <- !app_assoc. simpl. repeat split; try reflexivity; lia.
    + apply String.eqb_neq in HG.
      destruct (stimulus_not_gabor sdel sid w Hs HG)
        as (w1 & -> & Hb & Ho & Hs1 & Hp & Hc).
      destruct (IH {| bpod := bpod w1; osc := osc w1; slept := slept w1;
                      pcs_idx := pcs_idx w1; scount := scount w1 + 1 |})
        as (w' & Hrun & Hb' & Ho' & Hs' & Hp' & Hc'); [simpl; lia|].
      simpl in *. rewrite HG. exists w'. split; [exact Hrun|].
      rewrite Hb', Ho', Hs', Hp', Hc', Hb, Ho, Hs1, Hp, Hc.
      rewrite <- !app_assoc. simpl. repeat split; try reflexivity; lia.
Qed.

(** The loop from any pass on, when the patches run out. *)
Lemma replay_raises (stims : list (Q * string)) (w : world) :
  delays_ok stims ->
  (pcs_idx w <= patches sph)%nat ->
  (patches sph < pcs_idx w + length (stimuli_with "G" stims))%nat ->
  exists w',
    replay stims w = (Some (Exn IndexError), w') /\
    osc w'
    = osc w ++ flat_map (gabor_messages sph)
                 (seq (pcs_idx w) (patches sph - pcs_idx w)) /\
    pcs_idx w' = patches sph.
Proof.
  intros Hd. revert w.
  induction Hd as [|[sdel sid] stims Hs Hd IH]; intros w Hle Hk.
  - simpl in Hk. lia.
  - rewrite stimuli_with_cons in Hk. simpl fst in *. simpl snd in *.
    cbn [PassiveLoop.replay].
    destruct (String.eqb_spec sid "G") as [->|HG].
    + destruct (decide (pcs_idx w < patches sph)%nat) as [Hlt|Hge].
      * destruct (stimulus_gabor sdel w Hs Hlt)
          as (w1 & -> & Hb & Ho & Hs1 & Hp & Hc).
        destruct (IH {| bpod := bpod w1; osc := osc w1; slept := slept w1;
                        pcs_idx := pcs_idx w1; scount := scount w1 + 1 |})
          as (w' & Hrun & Ho' & Hp'); [simpl; lia | simpl in *; lia|].
        simpl in *. exists w'. split; [exact Hrun|]. split; [|exact Hp'].
        rewrite Ho', Ho, Hp, <- app_assoc. f_equal.
        replace (patches sph - pcs_idx w)%nat
          with (S (patches sph - S (pcs_idx w))) by lia.
        reflexivity.
      * rewrite (stimulus_gabor_missing _ _ Hs) by lia.
        exists (sleep sdel w). split; [reflexivity|]. simpl.
        replace (patches sph - pcs_idx w)%nat with 0%nat by lia.
        simpl. rewrite app_nil_r. split; [reflexivity | lia].
    + apply String.eqb_neq in HG.
      destruct (stimulus_not_gabor sdel sid w Hs HG)
        as (w1 & -> & Hb & Ho & Hs1 & Hp & Hc).
      destruct (IH {| bpod := bpod w1; osc := osc w1; slept := slept w1;
                      pcs_idx := pcs_idx w1; scount := scount w1 + 1 |})
        as (w' & Hrun & Ho' & Hp'); [simpl; lia | simpl in *; lia|].
      simpl in *. exists w'. split; [exact Hrun|]. split; [|exact Hp'].
      now rewrite Ho', Ho, Hp.
Qed.

(** What one pass raises. *)
Lemma stimulus_raised (sdel : Q) (sid : string) (w w' : world) (r : raised) :
  stimulus sdel sid w = (Some r, w') ->
  r = Exn IndexError \/ r = ValueError /\ Qle_bool 0 sdel = false /\ w' = w.
Proof.
  unfold PassiveLoop.stimulus.
  destruct (Qle_bool 0 sdel); simpl negb; cbv iota.
  - destruct (String.eqb sid "V"); [discriminate|].
    destruct (String.eqb sid "T"); [discriminate|].
    destruct (String.eqb sid "N"); [discriminate|].
    destruct (String.eqb sid "G"); [|discriminate].
    destruct (_ ≫= _) as [[[pos cont] ph]|e] eqn:E; [discriminate|].
    intros [= <- _]. left. f_equal.
    destruct (list_getitem (POSITIONS sph) _) eqn:E1; simpl in E;
      [|injection E as <-; now apply list_getitem_Raise in E1].
    destruct (list_getitem (CONTRASTS sph) _) eqn:E2; simpl in E;
      [|injection E as <-; now apply list_getitem_Raise in E2].
    destruct (list_getitem (STIM_PHASE sph) _) eqn:E3; simpl in E;
      [discriminate|injection E as <-; now apply list_getitem_Raise in E3].
  - intros [= <- <-]. auto.
Qed.

(** A negative delay ends the loop in its pass, before anything is done for
    the stimulus. *)
Lemma replay_negative_delay (before after : list (Q * string))
    (sdel : Q) (sid : string) (w : world) :
  delays_ok before ->
  (pcs_idx w + length (stimuli_with "G" before) <= patches sph)%nat ->
  Qle_bool 0 sdel = false ->
  exists w',
    replay (before ++ (sdel, sid) :: after) w = (Some ValueError, w') /\
    bpod w' = bpod w ++ flat_map (fun s => bpod_calls_for s.2) before /\
    osc w'
    = osc w ++ flat_map (gabor_messages sph)
                 (seq (pcs_idx w) (length (stimuli_with "G" before))) /\
    slept w' = slept w ++ flat_map sleeps_for before /\
    scount w' = (scount w + length before)%nat.
Proof.
  intros Hd. revert w.
  induction Hd as [|[d i] stims Hs Hd IH]; intros w Hk Hneg.
  - exists w. simpl. unfold PassiveLoop.stimulus. rewrite Hneg. simpl.
    rewrite !app_nil_r, Nat.add_0_r. auto 10.
  - rewrite stimuli_with_cons in *. simpl fst in *. simpl snd in *.
    rewrite <- app_comm_cons. cbn [PassiveLoop.replay].
    destruct (String.eqb_spec i "G") as [->|HG].
    + destruct (stimulus_gabor d w Hs)
        as (w1 & -> & Hb & Ho & Hs1 & Hp & Hc); [lia|].
      destruct (IH {| bpod := bpod w1; osc := osc w1; slept := slept w1;
                      pcs_idx := pcs_idx w1; scount := scount w1 + 1 |})
        as (w' & Hrun & Hb' & Ho' & Hs' & Hc'); [simpl; lia | exact Hneg|].
      simpl in *. exists w'. split; [exact Hrun|].
      rewrite Hb', Ho', Hs', Hc', Hb, Ho, Hs1, Hp, Hc.
      rewrite <- !app_assoc. simpl. repeat split; try reflexivity; lia.
    + apply String.eqb_neq in HG.
      destruct (stimulus_not_gabor d i w Hs HG)
        as (w1 & -> & Hb & Ho & Hs1 & Hp & Hc).
      destruct (IH {| bpod := bpod w1; osc := osc w1; slept := slept w1;
                      pcs_idx := pcs_idx w1; scount := scount w1 + 1 |})
        as (w' & Hrun & Hb' & Ho' & Hs' & Hc'); [simpl; lia | exact Hneg|].
      simpl in *. rewrite HG. exists w'. split; [exact Hrun|].
      rewrite Hb', Ho', Hs', Hc', Hb, Ho, Hs1, Hp, Hc.
      rewrite <- !app_assoc. simpl. repeat split; try reflexivity; lia.
Qed.

End PassiveReplay.



(** X18.  The loop of the passive task raises nothing but [IndexError] and
    the [ValueError] of [time.sleep], the latter only for a negative delay.
    When no delay is negative it raises exactly when the stimuli hold more
    Gabor patches than the session has positions, contrasts and phases;
    this happens in the pass of the first patch without parameters: Bonsai
    has got the messages of every patch that has parameters, and none
    after. *)
Theorem passive_replay_raises (sph : PassiveLoop.passive_params)
    (sc_play_tone sc_play_noise : Z) (w : PassiveLoop.world) :
  (forall r w',
     PassiveLoop.main_loop sph sc_play_tone sc_play_noise w = (Some r, w') ->
     r = PassiveLoop.Exn IndexError \/
     r = PassiveLoop.ValueError /\
     ~ PassiveLoop.delays_ok
         (zip (PassiveLoop.STIM_DELAYS sph) (PassiveLoop.STIM_IDS sph))) /\
  (PassiveLoop.delays_ok
     (zip (PassiveLoop.STIM_DELAYS sph) (PassiveLoop.STIM_IDS sph)) ->
   ((exists r w',
       PassiveLoop.main_loop sph sc_play_tone sc_play_noise w = (Some r, w'))
    <-> (PassiveLoop.patches sph
         < length (PassiveLoop.stimuli_with "G"
                     (zip (PassiveLoop.STIM_DELAYS sph)
                          (PassiveLoop.STIM_IDS sph))))%nat) /\
   forall r w',
     PassiveLoop.main_loop sph sc_play_tone sc_play_noise w = (Some r, w') ->
     r = PassiveLoop.Exn IndexError /\
     PassiveLoop.pcs_idx w' = PassiveLoop.patches sph /\
     PassiveLoop.osc w'
     = PassiveLoop.osc w
       ++ flat_map (PassiveLoop.gabor_messages sph)
            (seq 0 (PassiveLoop.patches sph))).
Proof.
  set (stims := zip (PassiveLoop.STIM_DELAYS sph) (PassiveLoop.STIM_IDS sph)).
  set (w0 := {| PassiveLoop.bpod := PassiveLoop.bpod w;
                PassiveLoop.osc := PassiveLoop.osc w;
                PassiveLoop.slept := PassiveLoop.slept w;
                PassiveLoop.pcs_idx := 0;
                PassiveLoop.scount := 1 |}).
  split.
  - unfold PassiveLoop.main_loop. fold stims w0. generalize w0.
    induction stims as [|[sdel sid] rest IH]; intros w1 r w' H;
      [discriminate|].
    cbn [PassiveLoop.replay] in H.
    destruct (PassiveLoop.stimulus sph sc_play_tone sc_play_noise sdel sid w1)
      as [[r1|] w2] eqn:E.
    + injection H as <- <-.
      apply stimulus_raised in E as [->|(-> & Hneg & _)]; [now left|].
      right. split; [reflexivity|]. intros Hd.
      apply Forall_cons in Hd as [Hd _]. simpl in Hd. congruence.
    + destruct (IH _ _ _ H) as [->|[-> Hnot]]; [now left|].
      right. split; [reflexivity|]. intros Hd.
      apply Forall_cons in Hd as [_ Hd]. now apply Hnot.
  - intros Hd.
    assert (Hmore :
      (PassiveLoop.patches sph
       < length (PassiveLoop.stimuli_with "G" stims))%nat ->
      exists w',
        PassiveLoop.main_loop sph sc_play_tone sc_play_noise w
        = (Some (PassiveLoop.Exn IndexError), w') /\
        PassiveLoop.pcs_idx w' = PassiveLoop.patches sph /\
        PassiveLoop.osc w'
        = PassiveLoop.osc w
          ++ flat_map (PassiveLoop.gabor_messages sph)
               (seq 0 (PassiveLoop.patches sph))).
    { intros Hk.
      destruct (replay_raises sph sc_play_tone sc_play_noise stims w0 Hd)
        as (w' & Hrun & Ho & Hp); [simpl; lia | simpl; lia|].
      simpl in Ho. rewrite Nat.sub_0_r in Ho. exists w'. auto. }
    assert (Hraise : forall r w',
      PassiveLoop.main_loop sph sc_play_tone sc_play_noise w = (Some r, w') ->
      (PassiveLoop.patches sph
       < length (PassiveLoop.stimuli_with "G" stims))%nat).
    { intros r w' H.
      destruct (decide (length (PassiveLoop.stimuli_with "G" stims)
                        <= PassiveLoop.patches sph)%nat) as [Hle|Hgt]; [|lia].
      destruct (replay_completes sph sc_play_tone sc_play_noise stims w0 Hd)
        as (w1 & Hrun & _); [simpl; lia|].
      unfold PassiveLoop.main_loop in H. fold stims w0 in H. congruence. }
    split.
    + split.
      * intros (r & w' & H). now apply (Hraise r w').
      * intros Hk. destruct (Hmore Hk) as (w' & H & _). eauto.
    + intros r w' H. destruct (Hmore (Hraise r w' H)) as (w1 & H1 & Hp & Ho).
      rewrite H in H1. injection H1 as -> ->. auto.
Qed.

Lemma passive_replay_raises_witness :
  exists r w',
    PassiveLoop.main_loop
      (PassiveCases.session ["G"; "V"; "G"; "T"] [1]%Q) 11 12
      (PassiveCases.start 0 1)
    = (Some r, w').
Proof.
  destruct (passive_replay_raises
              (PassiveCases.session ["G"; "V"; "G"; "T"] [1]%Q) 11 12
              (PassiveCases.start 0 1)) as [_ H].
  destruct H as [Hiff _]; [repeat constructor|].
  apply Hiff. vm_compute. lia.
Defined.

(** X19.  A negative delay ends the loop of the passive task with the
    [ValueError] of [time.sleep] in the pass of that stimulus, whatever the
    stimulus is: the stimuli before it have been delivered, given that
    their delays are not negative and that their patches have parameters,
    and nothing is sent for the stimulus itself or after. *)
Theorem passive_replay_negative_delay (sph : PassiveLoop.passive_params)
    (sc_play_tone sc_play_noise : Z) (w : PassiveLoop.world)
    (before after : list (Q * string)) (sdel : Q) (sid : string) :
  zip (PassiveLoop.STIM_DELAYS sph) (PassiveLoop.STIM_IDS sph)
  = before ++ (sdel, sid) :: after ->
  PassiveLoop.delays_ok before ->
  (length (PassiveLoop.stimuli_with "G" before) <= PassiveLoop.patches sph)%nat ->
  (sdel < 0)%Q ->
  exists w',
    PassiveLoop.main_loop sph sc_play_tone sc_play_noise w
    = (Some PassiveLoop.ValueError, w') /\
    PassiveLoop.bpod w'
    = PassiveLoop.bpod w
      ++ flat_map (fun s => PassiveLoop.bpod_calls_for sph sc_play_tone
                              sc_play_noise s.2) before /\
    PassiveLoop.osc w'
    = PassiveLoop.osc w
      ++ flat_map (PassiveLoop.gabor_messages sph)
           (seq 0 (length (PassiveLoop.stimuli_with "G" before))) /\
    PassiveLoop.scount w' = (1 + length before)%nat.
Proof.
  intros Hzip Hd Hk Hneg. unfold PassiveLoop.main_loop. rewrite Hzip.
  assert (Hneg' : Qle_bool 0 sdel = false).
  { destruct (Qle_bool 0 sdel) eqn:E; [|reflexivity].
    apply Qle_bool_iff in E. now apply Qle_not_lt in E. }
  destruct (replay_negative_delay sph sc_play_tone sc_play_noise before after
              sdel sid
              {| PassiveLoop.bpod := PassiveLoop.bpod w;
                 PassiveLoop.osc := PassiveLoop.osc w;
                 PassiveLoop.slept := PassiveLoop.slept w;
                 PassiveLoop.pcs_idx := 0;
                 PassiveLoop.scount := 1 |} Hd Hk Hneg')
    as (w' & Hrun & Hb & Ho & _ & Hc).
  exists w'. auto.
Qed.

Lemma passive_replay_negative_delay_witness :
  exists w',
    PassiveLoop.main_loop
      {| PassiveLoop.STIM_DELAYS := [1; -1 # 2; 3]%Q;
         PassiveLoop.STIM_IDS := ["V"; "T"; "G"];
         PassiveLoop.REWARD_VALVE_TIME := 1 # 10;
         PassiveLoop.POSITIONS := [];
         PassiveLoop.CONTRASTS := [];
         PassiveLoop.STIM_PHASE := [] |} 11 12 (PassiveCases.start 0 1)
    = (Some PassiveLoop.ValueError, w') /\
    PassiveLoop.scount w' = 2%nat.
Proof.
  destruct (passive_replay_negative_delay
              {| PassiveLoop.STIM_DELAYS := [1; -1 # 2; 3]%Q;
                 PassiveLoop.STIM_IDS := ["V"; "T"; "G"];
                 PassiveLoop.REWARD_VALVE_TIME := 1 # 10;
                 PassiveLoop.POSITIONS := [];
                 PassiveLoop.CONTRASTS := [];
                 PassiveLoop.STIM_PHASE := [] |} 11 12 (PassiveCases.start 0 1)
              [(1%Q, "V")] [(3%Q, "G")] (-1 # 2)%Q "T")
    as (w' & Hrun & _ & _ & Hc);
    [reflexivity | repeat constructor | vm_compute; lia | reflexivity|].
  exists w'. split; [exact Hrun | exact Hc].
Defined.

(** ** The backup of the local configuration *)

Lemma ignore_patterns_Dir (name : string) (entries : gmap string node) :
  Update.ignore_patterns name (Dir entries)
  = Dir (delete name (Update.ignore_patterns name <$> entries)).
Proof. reflexivity. Qed.

(** What is found in a tree from which every entry [name] is left out. *)
Lemma ignore_patterns_lookup (name : string) (q : path) (n : node) :
  fs_lookup q (Update.ignore_patterns name n)
  = if bool_decide (name ∈ q) then None
    else Update.ignore_patterns name <$> fs_lookup q n.
Proof.
  revert n. induction q as [|x q IH]; intros n.
  - rewrite bool_decide_false by apply not_elem_of_nil. reflexivity.
  - destruct n as [f|entries].
    + destruct (bool_decide (name ∈ x :: q)); reflexivity.
    + rewrite ignore_patterns_Dir. cbn [fs_lookup].
      destruct (decide (x = name)) as [->|Hne].
      * rewrite lookup_delete_eq, bool_decide_true by left. reflexivity.
      * rewrite lookup_delete_ne by congruence. rewrite lookup_fmap.
        destruct (entries !! x) as [m|]; simpl.
        -- rewrite IH.
           rewrite (bool_decide_ext (name ∈ x :: q) (name ∈ q)); [reflexivity|].
           rewrite elem_of_cons. split; [intros [?|?]; congruence | auto].
        -- destruct (bool_decide (name ∈ x :: q)); reflexivity.
Qed.

Lemma part_ways_siblings (folder : path) (a b : string) (r : path) :
  a <> b -> part_ways (folder ++ [a]) (folder ++ b :: r) = true.
Proof.
  intros Hne. induction folder as [|x folder IH]; simpl.
  - apply String.eqb_neq in Hne. now rewrite Hne.
  - now rewrite String.eqb_refl.
Qed.

Lemma string_app_ne (s t : string) : t <> "" -> s +:+ t <> s.
Proof.
  intros Ht. induction s as [|c s IH]; simpl.
  - exact Ht.
  - intros [= E]. now apply IH.
Qed.

Section Backup.

Variable cwd : path.
Variable home : path.

Local Abbreviation backup := (Update.backup_pybpod_projects cwd home).
Local Abbreviation bk := Update.default_filename.

(** A backup that completes has put the copy under the name it chose, where
    there was nothing, and has left the rest of the home folder alone. *)
Lemma backup_Ok_inv (filename : string) (fs fs' : node) :
  backup filename fs = Ok fs' ->
  exists tree,
    fs_lookup (cwd ++ ["pybpod_projects"]) fs = Some (Dir tree) /\
    fs_lookup (home ++ [Update.backup_name home filename fs]) fs = None /\
    fs_lookup (home ++ [Update.backup_name home filename fs]) fs'
    = Some (Update.ignore_patterns "sessions" (Dir tree)) /\
    forall q, part_ways (home ++ [Update.backup_name home filename fs]) q = true ->
              fs_lookup q fs' = fs_lookup q fs.
Proof.
  unfold Update.backup_pybpod_projects, Update.copytree_ignore,
    Update.pybpod_projects_path.
  destruct (fs_lookup (cwd ++ ["pybpod_projects"]) fs) as [[f|tree]|];
    try discriminate.
  intros H. exists tree. split; [reflexivity|].
  destruct (makedirs_with_Ok_inv _ _ _ _ _ H) as (entries & Hfs' & Hnew & Hb).
  split; [|split].
  - destruct Hb as [Hb|[Hb _]].
    + now rewrite (fs_lookup_entry _ _ _ _ Hb).
    + rewrite fs_lookup_app, Hb. reflexivity.
  - rewrite (fs_lookup_entry _ _ _ _ Hfs'), lookup_insert_eq.
    now rewrite ignore_patterns_Dir.
  - intros q Hq. apply (makedirs_with_frame _ _ _ _ _ H Hq).
Qed.

Lemma backup_name_cases (fs : node) :
  Update.backup_name home bk fs
  = match fs_lookup (home ++ [bk]) fs with
    | Some _ => "pybpod_projects.bk0"
    | None => "pybpod_projects.bk"
    end.
Proof. unfold Update.backup_name. now destruct (fs_lookup _ fs). Qed.

(** When both names are taken the backup raises. *)
Lemma backup_names_taken (fs : node) :
  is_Some (fs_lookup (home ++ [bk]) fs) ->
  is_Some (fs_lookup (home ++ ["pybpod_projects.bk0"]) fs) ->
  (forall fs', backup bk fs <> Ok fs') /\
  (forall tree, fs_lookup (cwd ++ ["pybpod_projects"]) fs = Some (Dir tree) ->
                backup bk fs = Raise FileExistsError).
Proof.
  intros [n Hn] [m Hm].
  assert (Hname : Update.backup_name home bk fs = "pybpod_projects.bk0")
    by now rewrite backup_name_cases, Hn.
  split.
  - intros fs' H. destruct (backup_Ok_inv _ _ _ H) as (tree & _ & Hnone & _).
    rewrite Hname in Hnone. congruence.
  - intros tree Hsrc.
    unfold Update.backup_pybpod_projects, Update.copytree_ignore,
      Update.pybpod_projects_path.
    rewrite Hsrc, Hname. now apply (makedirs_with_exists _ _ _ _ m).
Qed.

End Backup.

(** X20.  The backup of [pybpod_projects] leaves out every entry named
    [sessions], at every depth: below the name that the backup chose there
    is nothing at a path with a component [sessions], every file of the
    project folder at a path without such a component is in the backup with
    its content, and the backup holds nothing that the project folder does
    not hold.  The backup is put where nothing was, and paths that part
    ways with it are unchanged. *)
Theorem backup_ignores_sessions (cwd home : path) (fs fs' : node) :
  Update.backup_pybpod_projects cwd home Update.default_filename fs = Ok fs' ->
  exists tree name,
    fs_lookup (cwd ++ ["pybpod_projects"]) fs = Some (Dir tree) /\
    name = Update.backup_name home Update.default_filename fs /\
    fs_lookup (home ++ [name]) fs = None /\
    (forall q, "sessions" ∈ q -> fs_lookup (home ++ name :: q) fs' = None) /\
    (forall q f,
       "sessions" ∉ q -> fs_lookup q (Dir tree) = Some (File f) ->
       fs_lookup (home ++ name :: q) fs' = Some (File f)) /\
    (forall q n,
       fs_lookup (home ++ name :: q) fs' = Some n ->
       exists m, fs_lookup q (Dir tree) = Some m /\ is_dir m = is_dir n) /\
    (forall q, part_ways (home ++ [name]) q = true ->
               fs_lookup q fs' = fs_lookup q fs).
Proof.
  intros H. destruct (backup_Ok_inv _ _ _ _ _ H) as (tree & Hsrc & Hnone & Hdst & Hframe).
  exists tree, (Update.backup_name home Update.default_filename fs).
  split; [exact Hsrc|]. split; [reflexivity|]. split; [exact Hnone|].
  assert (Hbelow : forall q,
    fs_lookup (home ++ Update.backup_name home Update.default_filename fs :: q) fs'
    = if bool_decide ("sessions" ∈ q) then None
      else Update.ignore_patterns "sessions" <$> fs_lookup q (Dir tree)).
  { intros q.
    change (home ++ ?x :: q) with (home ++ [x] ++ q).
    rewrite app_assoc, fs_lookup_app, Hdst.
    exact (ignore_patterns_lookup "sessions" q (Dir tree)). }
  split; [|split; [|split; [|exact Hframe]]].
  - intros q Hq. rewrite Hbelow. now rewrite bool_decide_true.
  - intros q f Hq Hf. rewrite Hbelow, bool_decide_false, Hf by assumption.
    reflexivity.
  - intros q n Hn. rewrite Hbelow in Hn.
    destruct (bool_decide _); [discriminate|].
    destruct (fs_lookup q (Dir tree)) as [m|]; [|discriminate].
    injection Hn as <-. exists m. split; [reflexivity|]. now destruct m.
Qed.

Lemma backup_ignores_sessions_witness :
  exists fs',
    Update.backup_pybpod_projects [] ["home"] Update.default_filename
      (Dir {["pybpod_projects" :=
               Dir {["IBL" :=
                       Dir (<["sessions" := Dir {["s.json" := File (Bytes "1")]}]>
                              {["tasks.json" := File (Bytes "{}")]})]}]})
    = Ok fs' /\
    fs_lookup ["home"; "pybpod_projects.bk"; "IBL"; "sessions"; "s.json"] fs'
    = None /\
    fs_lookup ["home"; "pybpod_projects.bk"; "IBL"; "tasks.json"] fs'
    = Some (File (Bytes "{}")).
Proof.
  set (fs := Dir {["pybpod_projects" :=
               Dir {["IBL" :=
                       Dir (<["sessions" := Dir {["s.json" := File (Bytes "1")]}]>
                              {["tasks.json" := File (Bytes "{}")]})]}]}).
  destruct (Update.backup_pybpod_projects [] ["home"] Update.default_filename fs)
    as [fs'|e] eqn:E; [|vm_compute in E; discriminate].
  destruct (backup_ignores_sessions [] ["home"] fs fs' E)
    as (tree & name & Hsrc & -> & _ & Hgone & Hkept & _).
  vm_compute in Hsrc. injection Hsrc as <-.
  exists fs'. split; [reflexivity|]. split.
  - apply (Hgone ["IBL"; "sessions"; "s.json"]).
    apply elem_of_cons. right. apply elem_of_cons. now left.
  - apply (Hkept ["IBL"; "tasks.json"]); [|reflexivity].
    intros Hin. repeat (apply elem_of_cons in Hin as [Hin|Hin];
                        [discriminate Hin|]).
    now apply elem_of_nil in Hin.
Defined.

(** X21.  There are at most two backups.  The first goes to
    [pybpod_projects.bk] in the home folder; when that exists, the backup
    goes to [pybpod_projects.bk0]; when both exist, every further call
    raises, [FileExistsError] if [pybpod_projects] is a directory.  So two
    calls that complete started without [pybpod_projects.bk], leave both
    names taken, and no third call completes after them. *)
Theorem backup_at_most_twice (cwd home : path) (fs fs1 fs2 : node) :
  Update.backup_pybpod_projects cwd home Update.default_filename fs = Ok fs1 ->
  Update.backup_pybpod_projects cwd home Update.default_filename fs1 = Ok fs2 ->
  fs_lookup (home ++ ["pybpod_projects.bk"]) fs = None /\
  is_Some (fs_lookup (home ++ ["pybpod_projects.bk"]) fs2) /\
  is_Some (fs_lookup (home ++ ["pybpod_projects.bk0"]) fs2) /\
  (forall fs3,
     Update.backup_pybpod_projects cwd home Update.default_filename fs2
     <> Ok fs3) /\
  (forall tree,
     fs_lookup (cwd ++ ["pybpod_projects"]) fs2 = Some (Dir tree) ->
     Update.backup_pybpod_projects cwd home Update.default_filename fs2
     = Raise FileExistsError).
Proof.
  intros H1 H2.
  destruct (backup_Ok_inv _ _ _ _ _ H1) as (t1 & _ & Hnone1 & Hdst1 & Hframe1).
  destruct (backup_Ok_inv _ _ _ _ _ H2) as (t2 & _ & Hnone2 & Hdst2 & Hframe2).
  rewrite backup_name_cases in *.
  assert (Hbk1 : is_Some (fs_lookup (home ++ [Update.default_filename]) fs1)).
  { destruct (fs_lookup (home ++ [Update.default_filename]) fs) eqn:E.
    - rewrite Hframe1 by (now apply part_ways_siblings). rewrite E. eauto.
    - eauto. }
  destruct Hbk1 as [n1 Hn1]. rewrite Hn1 in *.
  destruct (fs_lookup (home ++ [Update.default_filename]) fs) eqn:E.
  { rewrite Hdst1 in Hnone2. discriminate. }
  assert (Hbk2 : is_Some (fs_lookup (home ++ [Update.default_filename]) fs2)).
  { rewrite Hframe2 by (now apply part_ways_siblings). rewrite Hn1. eauto. }
  assert (Hbk02 : is_Some (fs_lookup (home ++ ["pybpod_projects.bk0"]) fs2))
    by (rewrite Hdst2; eauto).
  split; [exact Hnone1|]. split; [exact Hbk2|]. split; [exact Hbk02|].
  apply backup_names_taken; assumption.
Qed.

Lemma backup_at_most_twice_witness :
  exists fs1 fs2,
    Update.backup_pybpod_projects ["iblrig"] ["home"] Update.default_filename
      (Dir {["iblrig" := Dir {["pybpod_projects" := Dir ∅]}]}) = Ok fs1 /\
    Update.backup_pybpod_projects ["iblrig"] ["home"] Update.default_filename
      fs1 = Ok fs2 /\
    Update.backup_pybpod_projects ["iblrig"] ["home"] Update.default_filename
      fs2 = Raise FileExistsError.
Proof.
  set (fs := Dir {["iblrig" := Dir {["pybpod_projects" := Dir ∅]}]}).
  destruct (Update.backup_pybpod_projects ["iblrig"] ["home"]
              Update.default_filename fs) as [fs1|e] eqn:E1;
    [|vm_compute in E1; discriminate].
  destruct (Update.backup_pybpod_projects ["iblrig"] ["home"]
              Update.default_filename fs1) as [fs2|e] eqn:E2;
    [|vm_compute in E1; injection E1 as <-; vm_compute in E2; discriminate].
  destruct (backup_at_most_twice ["iblrig"] ["home"] fs fs1 fs2 E1 E2)
    as (_ & _ & _ & _ & H).
  exists fs1, fs2. split; [reflexivity|]. split; [exact E2|].
  apply (H ∅).
  vm_compute in E1. injection E1 as <-. vm_compute in E2. injection E2 as <-.
  reflexivity.
Defined.
